(** * CRM server (src/server.ts): the generic entity routes over SQLite

    The server is an Express application over one better-sqlite3 handle.
    Every route builds the text of one SQL statement, by interpolating
    request data into a template string, and hands it to [db.prepare].
    The development keeps that shape:

    - [Js]      the JavaScript values and string operations the routes use;
    - [Sqlite]  a model of the SQL fragment the routes can issue: tokens,
                statements, name resolution against the schema, parameter
                binding, execution over tables of rows;
    - [Schema]  the nine tables of the [db.exec] block;
    - [Server]  the seed block and the route handlers, statement text
                included, as functions from a database to a response and
                a database.

    Scope of the SQLite model.  Numbers have integer values (better-sqlite3
    binds every JS number as REAL; a REAL is kept by its integer value and
    fractions are not modelled); request bodies hold scalars only; text
    turns numeric only when it is a plain decimal integer literal; every
    SQL keyword is reserved; the order of rows that tie under ORDER BY is
    the scan order.  No theorem below takes an input on which these
    choices differ from SQLite. *)

From Stdlib Require Import ZArith String Ascii List Lia Bool.
From Stdlib Require Import DecimalString DecimalZ Permutation Sorted.
From stdpp Require Import base option gmap strings.
Import ListNotations.

Local Open Scope string_scope.
Local Open Scope Z_scope.

(** ** JavaScript side *)

Module Js.

(** A scalar of a parsed JSON body or of a query string; [JNum z] is
    the number of integer value [z]. *)
Inductive jsval :=
| JNull
| JBool (b : bool)
| JNum (z : Z)
| JStr (s : string).

(** [if (x)] on an optional query parameter: undefined and the empty
    string are falsy. *)
Definition truthy (o : option string) : bool :=
  match o with
  | None => false
  | Some s => negb (String.eqb s "")
  end.

(** [Array.prototype.join]. *)
Fixpoint join (sep : string) (l : list string) : string :=
  match l with
  | [] => ""
  | [x] => x
  | x :: rest => x ++ sep ++ join sep rest
  end.

(** [Array.prototype.includes] on an array of strings. *)
Definition includes (l : list string) (x : string) : bool :=
  existsb (String.eqb x) l.

(** The double quote character, for [JSON.stringify]. *)
Definition dquote : string := String "034"%char EmptyString.

(** [JSON.stringify({ k: true })]. *)
Definition stringify_flag (k : string) : string :=
  "{" ++ dquote ++ k ++ dquote ++ ":true}".

End Js.

(** ** SQLite side *)

Module Sqlite.

(** *** Values, affinity, comparison *)

(** [VReal z] is the REAL of integer value [z]. *)
Inductive value :=
| VNull
| VInt (z : Z)
| VReal (z : Z)
| VText (s : string).

(** Equality as SQLite compares: an INTEGER and a REAL of one value are
    equal. *)
Definition value_eqb (a b : value) : bool :=
  match a, b with
  | VNull, VNull => true
  | (VInt x | VReal x), (VInt y | VReal y) => Z.eqb x y
  | VText s, VText t => String.eqb s t
  | _, _ => false
  end.

Inductive affinity := AffInteger | AffText | AffNumeric | AffReal.

Definition int64_min : Z := - 2 ^ 63.
Definition int64_max : Z := 2 ^ 63 - 1.

Definition in_int64 (z : Z) : bool := (int64_min <=? z) && (z <=? int64_max).

Definition text_of_int (z : Z) : string := NilZero.string_of_int (Z.to_int z).

(** Text that is a decimal integer literal fitting 64 bits. *)
Definition int_of_text (s : string) : option Z :=
  match NilZero.int_of_string s with
  | Some d => let z := Z.of_int d in if in_int64 z then Some z else None
  | None => None
  end.

(** A REAL as text, for values below 10^15 in magnitude (above, SQLite
    writes an exponent). *)
Definition real_text (z : Z) : string := text_of_int z ++ ".0".

(** A REAL of integer value becomes an INTEGER when it lies strictly
    between the least and the greatest 64-bit integer. *)
Definition fits_integer (z : Z) : bool := (int64_min <? z) && (z <? int64_max).

(** What a column (or a comparison against a column) of affinity [a]
    does to a value.  Of text only a decimal integer literal is taken
    for a number here; SQLite also reads signs, white space, fractions
    and exponents. *)
Definition apply_affinity (a : affinity) (v : value) : value :=
  match a, v with
  | _, VNull => VNull
  | AffText, VInt z => VText (text_of_int z)
  | AffText, VReal z => VText (real_text z)
  | AffText, VText s => VText s
  | AffReal, (VInt z | VReal z) => VReal z
  | AffReal, VText s =>
      match int_of_text s with
      | Some z => VReal z
      | None => VText s
      end
  | (AffInteger | AffNumeric), VInt z => VInt z
  | (AffInteger | AffNumeric), VReal z =>
      if fits_integer z then VInt z else VReal z
  | (AffInteger | AffNumeric), VText s =>
      match int_of_text s with
      | Some z => VInt z
      | None => VText s
      end
  end.

(** The order of ORDER BY: NULL, then numbers by value, then text
    bytewise. *)
Definition value_compare (a b : value) : comparison :=
  match a, b with
  | VNull, VNull => Eq
  | VNull, _ => Lt
  | _, VNull => Gt
  | (VInt x | VReal x), (VInt y | VReal y) => Z.compare x y
  | (VInt _ | VReal _), VText _ => Lt
  | VText _, (VInt _ | VReal _) => Gt
  | VText s, VText t => String.compare s t
  end.

(** [a = b] in a WHERE clause is true only between equal non-NULL
    values. *)
Definition sql_eq (a b : value) : bool :=
  match a with
  | VNull => false
  | _ => value_eqb a b
  end.

(** *** LIKE

    The LIKE function reads its pattern and its text as C strings, up to
    the first zero byte, one character at a time as [sqlite3Utf8Read]
    decodes UTF-8: a lead byte [0xC0..0xFF] takes every continuation
    byte that follows it, the value is kept in 32 bits, and a value below
    [0x80], a surrogate, [0xFFFE] or [0xFFFF] reads as [0xFFFD]. *)

Definition lead_bits (n : N) : N :=
  (if n <? 224 then n mod 32
   else if n <? 240 then n mod 16
   else if n <? 248 then n mod 8
   else if n <? 252 then n mod 4
   else if n <? 254 then n mod 2
   else 0)%N.

Definition read_char (c : N) : N :=
  (if (c <? 128) || ((55296 <=? c) && (c <? 57344))
      || (c =? 65534) || (c =? 65535)
   then 65533 else c)%N.

Definition is_continuation (n : N) : bool := ((128 <=? n) && (n <? 192))%N.

Definition flush (pending : option N) : list N :=
  match pending with
  | Some c => [read_char c]
  | None => []
  end.

(** The characters of a C string; [pending] is the character whose
    continuation bytes are being read. *)
Fixpoint decode_from (pending : option N) (s : string) : list N :=
  match s with
  | EmptyString => flush pending
  | String b s' =>
      let n := N_of_ascii b in
      if (n =? 0)%N then flush pending
      else
        match pending with
        | Some c =>
            if is_continuation n
            then decode_from (Some ((c * 64 + n mod 64) mod 2 ^ 32)%N) s'
            else if (192 <=? n)%N
            then read_char c :: decode_from (Some (lead_bits n)) s'
            else read_char c :: n :: decode_from None s'
        | None =>
            if (192 <=? n)%N then decode_from (Some (lead_bits n)) s'
            else n :: decode_from None s'
        end
  end.

Definition decode (s : string) : list N := decode_from None s.

Definition lower (c : N) : N :=
  (if (65 <=? c) && (c <=? 90) then c + 32 else c)%N.

(** Characters match when equal, or when both are ASCII and equal up to
    case. *)
Definition same_char (c d : N) : bool :=
  ((c =? d) || ((c <? 128) && (d <? 128) && (lower c =? lower d)))%N.

(** [%] is any run of characters, [_] any one character, anything else
    itself up to ASCII case. *)
Fixpoint like_match (p s : list N) {struct p} : bool :=
  match p with
  | [] => match s with [] => true | _ => false end
  | c :: p' =>
      if (c =? 37)%N then
        (fix star (s : list N) : bool :=
           like_match p' s ||
           match s with
           | [] => false
           | _ :: s' => star s'
           end) s
      else
        match s with
        | [] => false
        | d :: s' => ((c =? 95)%N || same_char c d) && like_match p' s'
        end
  end.

Definition as_text (v : value) : option string :=
  match v with
  | VNull => None
  | VInt z => Some (text_of_int z)
  | VReal z => Some (real_text z)
  | VText s => Some s
  end.

Definition sql_like (v pat : value) : bool :=
  match as_text v, as_text pat with
  | Some s, Some p => like_match (decode p) (decode s)
  | _, _ => false
  end.

(** *** Errors

    [SqliteError] is what SQLite reports; [TypeError] and [RangeError]
    are thrown by the binding layer before a statement runs. *)

Inductive sqlite_error :=
| SyntaxError
| NoSuchTable (t : string)
| NoSuchColumn (c : string)
| NoColumnNamed (t c : string)
| ValueCountMismatch
| TooManyColumns
| DatatypeMismatch
| DatabaseFull
| ConstraintPrimaryKey
| ConstraintUnique (c : string)
| ConstraintForeignKey.

Inductive exn :=
| SqliteError (e : sqlite_error)
| TypeError (msg : string)
| RangeError (msg : string).

Inductive result (A : Type) :=
| Ok (a : A)
| Err (e : exn).
Arguments Ok {A} a.
Arguments Err {A} e.

Definition bind {A B : Type} (r : result A) (k : A -> result B) : result B :=
  match r with
  | Ok a => k a
  | Err e => Err e
  end.

Notation "'let?' x ':=' r 'in' k" := (bind r (fun x => k))
  (at level 10, x name, r at level 100, k at level 200).

(** *** Tokens *)

Inductive token :=
| TId (s : string)
| TInt (z : Z)
| TStr (s : string)
| TQMark | TLParen | TRParen | TComma | TEq | TStar | TSemi | TDot
| TBad.

Inductive lstate :=
| LDefault
| LIdent (acc : string)
| LNum (acc : string)
| LStr (acc : string)
| LStrQ (acc : string)
| LMinus
| LLine
| LSlash
| LBlock
| LBlockStar
| LBom1
| LBom2.

Definition code (c : ascii) : nat := nat_of_ascii c.

Definition between (lo hi : nat) (c : ascii) : bool :=
  ((lo <=? code c)%nat && (code c <=? hi)%nat)%bool.

Definition is_space (c : ascii) : bool :=
  existsb (Nat.eqb (code c)) [32; 9; 10; 12; 13]%nat.

Definition is_digit (c : ascii) : bool := between 48 57 c.

Definition is_ident_start (c : ascii) : bool :=
  between 65 90 c || between 97 122 c || Nat.eqb (code c) 95 || (128 <=? code c)%nat.

Definition is_ident_char (c : ascii) : bool :=
  is_ident_start c || is_digit c || Nat.eqb (code c) 36.

Definition snoc (acc : string) (c : ascii) : string := acc ++ String c EmptyString.

Definition int_token (digits : string) : token :=
  match NilZero.uint_of_string digits with
  | Some u => TInt (Z.of_uint u)
  | None => TBad
  end.

(** Where a token may start, the three bytes [EF BB BF] of a byte-order
    mark are white space; [LBom1] and [LBom2] have read one and two of
    them.  Anywhere else they are identifier characters. *)
Definition bom : string := String "239" (String "187" (String "191" EmptyString)).

Definition lex_default (c : ascii) : list token * lstate :=
  if is_space c then ([], LDefault)
  else if Nat.eqb (code c) 239 then ([], LBom1)
  else if is_ident_start c then ([], LIdent (String c EmptyString))
  else if is_digit c then ([], LNum (String c EmptyString))
  else if Ascii.eqb c "'" then ([], LStr EmptyString)
  else if Ascii.eqb c "-" then ([], LMinus)
  else if Ascii.eqb c "/" then ([], LSlash)
  else if Ascii.eqb c "?" then ([TQMark], LDefault)
  else if Ascii.eqb c "(" then ([TLParen], LDefault)
  else if Ascii.eqb c ")" then ([TRParen], LDefault)
  else if Ascii.eqb c "," then ([TComma], LDefault)
  else if Ascii.eqb c "=" then ([TEq], LDefault)
  else if Ascii.eqb c "*" then ([TStar], LDefault)
  else if Ascii.eqb c ";" then ([TSemi], LDefault)
  else if Ascii.eqb c "." then ([TDot], LDefault)
  else ([TBad], LDefault).

Definition emit_then (t : token) (c : ascii) : list token * lstate :=
  let '(ts, st) := lex_default c in (t :: ts, st).

Definition lex_ident (acc : string) (c : ascii) : list token * lstate :=
  if is_ident_char c then ([], LIdent (snoc acc c))
  else emit_then (TId acc) c.

Definition lex_step (st : lstate) (c : ascii) : list token * lstate :=
  match st with
  | LDefault => lex_default c
  | LIdent acc => lex_ident acc c
  | LBom1 =>
      if Nat.eqb (code c) 187 then ([], LBom2)
      else lex_ident (String "239" EmptyString) c
  | LBom2 =>
      if Nat.eqb (code c) 191 then ([], LDefault)
      else lex_ident (String "239" (String "187" EmptyString)) c
  | LNum acc =>
      if is_digit c then ([], LNum (snoc acc c))
      else if is_ident_char c || Ascii.eqb c "." then ([TBad], LDefault)
      else emit_then (int_token acc) c
  | LStr acc =>
      if Ascii.eqb c "'" then ([], LStrQ acc) else ([], LStr (snoc acc c))
  | LStrQ acc =>
      if Ascii.eqb c "'" then ([], LStr (snoc acc c))
      else emit_then (TStr acc) c
  | LMinus =>
      if Ascii.eqb c "-" then ([], LLine) else emit_then TBad c
  | LLine =>
      if Nat.eqb (code c) 10 then ([], LDefault) else ([], LLine)
  | LSlash =>
      if Ascii.eqb c "*" then ([], LBlock) else emit_then TBad c
  | LBlock =>
      if Ascii.eqb c "*" then ([], LBlockStar) else ([], LBlock)
  | LBlockStar =>
      if Ascii.eqb c "/" then ([], LDefault)
      else if Ascii.eqb c "*" then ([], LBlockStar)
      else ([], LBlock)
  end.

Fixpoint lex_run (st : lstate) (s : string) : list token * lstate :=
  match s with
  | EmptyString => ([], st)
  | String c s' =>
      let '(ts, st') := lex_step st c in
      let '(ts', st'') := lex_run st' s' in
      ((ts ++ ts')%list, st'')
  end.

Definition lex_finish (st : lstate) : list token :=
  match st with
  | LIdent acc => [TId acc]
  | LNum acc => [int_token acc]
  | LStrQ acc => [TStr acc]
  | LStr _ | LMinus | LSlash => [TBad]
  | LDefault | LLine | LBlock | LBlockStar => []
  | LBom1 => [TId (String "239" EmptyString)]
  | LBom2 => [TId (String "239" (String "187" EmptyString))]
  end.

Definition tokens (sql : string) : list token :=
  let '(ts, st) := lex_run LDefault sql in (ts ++ lex_finish st)%list.

(** *** Keywords *)

Definition upper (c : ascii) : ascii :=
  if between 97 122 c then ascii_of_nat (code c - 32) else c.

Fixpoint upper_string (s : string) : string :=
  match s with
  | EmptyString => EmptyString
  | String c s' => String (upper c) (upper_string s')
  end.

(** The keywords that cannot name a table or a column; every other
    keyword (KEY, ROW, FIRST, ...) is taken for a name where one is
    expected. *)
Definition reserved : list string :=
  [ "ADD"; "ALL"; "ALTER"; "AND"; "AS"; "AUTOINCREMENT"; "BETWEEN"; "CASE";
    "CHECK"; "COLLATE"; "COMMIT"; "CONSTRAINT"; "CREATE"; "DEFAULT";
    "DEFERRABLE"; "DELETE"; "DISTINCT"; "DROP"; "ELSE"; "ESCAPE"; "EXCEPT";
    "EXISTS"; "FOREIGN"; "FROM"; "GROUP"; "HAVING"; "IN"; "INDEX"; "INSERT";
    "INTERSECT"; "INTO"; "IS"; "ISNULL"; "JOIN"; "LIMIT"; "NOT"; "NOTHING";
    "NOTNULL"; "NULL"; "ON"; "OR"; "ORDER"; "PRIMARY"; "REFERENCES";
    "RETURNING"; "SELECT"; "SET"; "TABLE"; "THEN"; "TO"; "TRANSACTION";
    "UNION"; "UNIQUE"; "UPDATE"; "USING"; "VALUES"; "WHEN"; "WHERE" ].

Definition is_reserved (s : string) : bool :=
  existsb (String.eqb (upper_string s)) reserved.

(** The token [s] is the keyword [k] (given in upper case). *)
Definition kw (k s : string) : bool := String.eqb (upper_string s) k.

Definition is_name (s : string) : bool := negb (is_reserved s).

(** *** Statements

    The right-hand sides the routes write are a parameter, a literal,
    NULL or CURRENT_TIMESTAMP; conditions compare a column with one of
    these. *)

Inductive expr :=
| EParam
| ELit (v : value)
| ENow.

Inductive cond :=
| CEq (c : string) (e : expr)
| CLike (c : string) (e : expr)
| CAnd (a b : cond)
| COr (a b : cond).

Inductive stmt :=
| SSelect (t : string) (w : option cond) (order_desc : option (string * bool))
| SInsert (t : string) (cols : list string) (vals : list expr)
| SInsertDefault (t : string)
| SUpdate (t : string) (sets : list (string * expr)) (w : option cond).

Definition expr_of_token (t : token) : option expr :=
  match t with
  | TQMark => Some EParam
  | TInt z => Some (ELit (VInt z))
  | TStr s => Some (ELit (VText s))
  | TId k =>
      if kw "NULL" k then Some (ELit VNull)
      else if kw "CURRENT_TIMESTAMP" k then Some ENow
      else None
  | _ => None
  end.

Inductive level := LvOr | LvAnd | LvAtom.

(** Conditions by recursive descent: OR below AND below comparison. *)
Fixpoint parse_cond (fuel : nat) (lv : level) (ts : list token)
  : option (cond * list token) :=
  match fuel with
  | O => None
  | S f =>
      match lv with
      | LvOr =>
          match parse_cond f LvAnd ts with
          | Some (a, TId k :: r) =>
              if kw "OR" k then
                match parse_cond f LvOr r with
                | Some (b, r') => Some (COr a b, r')
                | None => None
                end
              else Some (a, TId k :: r)
          | other => other
          end
      | LvAnd =>
          match parse_cond f LvAtom ts with
          | Some (a, TId k :: r) =>
              if kw "AND" k then
                match parse_cond f LvAnd r with
                | Some (b, r') => Some (CAnd a b, r')
                | None => None
                end
              else Some (a, TId k :: r)
          | other => other
          end
      | LvAtom =>
          match ts with
          | TLParen :: r =>
              match parse_cond f LvOr r with
              | Some (c, TRParen :: r') => Some (c, r')
              | _ => None
              end
          | TId c :: TEq :: t :: r =>
              if is_name c then
                match expr_of_token t with
                | Some e => Some (CEq c e, r)
                | None => None
                end
              else None
          | TId c :: TId l :: t :: r =>
              if is_name c && kw "LIKE" l then
                match expr_of_token t with
                | Some e => Some (CLike c e, r)
                | None => None
                end
              else None
          | _ => None
          end
      end
  end.

Definition parse_where (ts : list token) : option (cond * list token) :=
  parse_cond (3 * List.length ts + 3) LvOr ts.

Fixpoint parse_idlist (ts : list token) : option (list string * list token) :=
  match ts with
  | TId k :: r =>
      if is_name k then
        match r with
        | TComma :: r' =>
            match parse_idlist r' with
            | Some (ks, r'') => Some (k :: ks, r'')
            | None => None
            end
        | _ => Some ([k], r)
        end
      else None
  | _ => None
  end.

Fixpoint parse_exprlist (ts : list token) : option (list expr * list token) :=
  match ts with
  | t :: r =>
      match expr_of_token t with
      | Some e =>
          match r with
          | TComma :: r' =>
              match parse_exprlist r' with
              | Some (es, r'') => Some (e :: es, r'')
              | None => None
              end
          | _ => Some ([e], r)
          end
      | None => None
      end
  | [] => None
  end.

Fixpoint parse_assigns (ts : list token)
  : option (list (string * expr) * list token) :=
  match ts with
  | TId k :: TEq :: t :: r =>
      if is_name k then
        match expr_of_token t with
        | Some e =>
            match r with
            | TComma :: r' =>
                match parse_assigns r' with
                | Some (xs, r'') => Some ((k, e) :: xs, r'')
                | None => None
                end
            | _ => Some ([(k, e)], r)
            end
        | None => None
        end
      else None
  | _ => None
  end.

Definition multi_statement : exn :=
  RangeError "The supplied SQL string contains more than one statement".

(** Nothing may follow the statement but one semicolon. *)
Definition parse_end (s : stmt) (ts : list token) : result stmt :=
  match ts with
  | [] | [TSemi] => Ok s
  | TSemi :: _ => Err multi_statement
  | _ => Err (SqliteError SyntaxError)
  end.

Definition syntax_error {A : Type} : result A := Err (SqliteError SyntaxError).

Definition parse_opt_where (ts : list token)
  : option (option cond * list token) :=
  match ts with
  | TId k :: r =>
      if kw "WHERE" k then
        match parse_where r with
        | Some (c, r') => Some (Some c, r')
        | None => None
        end
      else Some (None, ts)
  | _ => Some (None, ts)
  end.

Definition parse_order (s : option cond -> option (string * bool) -> stmt)
    (w : option cond) (ts : list token) : result stmt :=
  match ts with
  | TId o :: TId b :: TId c :: r =>
      if kw "ORDER" o && kw "BY" b && is_name c then
        match r with
        | TId d :: r' =>
            if kw "DESC" d then parse_end (s w (Some (c, true))) r'
            else if kw "ASC" d then parse_end (s w (Some (c, false))) r'
            else syntax_error
        | _ => parse_end (s w (Some (c, false))) r
        end
      else syntax_error
  | _ => parse_end (s w None) ts
  end.

Definition parse_insert (t : string) (ts : list token) : result stmt :=
  match ts with
  | TLParen :: r1 =>
      match parse_idlist r1 with
      | Some (cols, TRParen :: TId v :: TLParen :: r2) =>
          if kw "VALUES" v then
            match parse_exprlist r2 with
            | Some (vals, TRParen :: r3) => parse_end (SInsert t cols vals) r3
            | _ => syntax_error
            end
          else syntax_error
      | _ => syntax_error
      end
  | TId d :: TId v :: r =>
      if kw "DEFAULT" d && kw "VALUES" v then parse_end (SInsertDefault t) r
      else syntax_error
  | _ => syntax_error
  end.

(** SQLITE_MAX_COLUMN: an UPDATE that is otherwise well formed is
    refused with "too many columns in set list" when it assigns more than
    this many times. *)
Definition max_columns : nat := 2000.

Definition parse_update (t : string) (ts : list token) : result stmt :=
  match parse_assigns ts with
  | Some (sets, r) =>
      match parse_opt_where r with
      | Some (w, r') =>
          match r' with
          | [] | TSemi :: _ =>
              if (max_columns <? List.length sets)%nat
              then Err (SqliteError TooManyColumns)
              else parse_end (SUpdate t sets w) r'
          | _ => syntax_error
          end
      | None => syntax_error
      end
  | None => syntax_error
  end.

Definition parse_select (t : string) (ts : list token) : result stmt :=
  match parse_opt_where ts with
  | Some (w, r) => parse_order (SSelect t) w r
  | None => syntax_error
  end.

Definition parse_stmt (ts : list token) : result stmt :=
  match ts with
  | TId a :: TId b :: TId t :: r =>
      if kw "INSERT" a && kw "INTO" b && is_name t then parse_insert t r
      else if kw "UPDATE" a && is_name b && kw "SET" t then parse_update b r
      else syntax_error
  | TId a :: TStar :: TId f :: TId t :: r =>
      if kw "SELECT" a && kw "FROM" f && is_name t then parse_select t r
      else syntax_error
  | _ => syntax_error
  end.

(** *** Schema and name resolution

    Every table of this program starts with
    [id INTEGER PRIMARY KEY AUTOINCREMENT]; a [table_def] lists the other
    columns.  [col_ref] is the parent table of a FOREIGN KEY, which
    always references the parent's [id]. *)

Inductive default_spec :=
| DefNull
| DefLit (v : value)
| DefNow.

Record column := {
  col_name : string;
  col_aff : affinity;
  col_default : default_spec;
  col_unique : bool;
  col_ref : option string
}.

Record table_def := {
  tbl_name : string;
  tbl_cols : list column
}.

Definition schema := list table_def.

(** Names are matched without regard to ASCII case. *)
Definition same_name (a b : string) : bool :=
  String.eqb (upper_string a) (upper_string b).

Definition find_table (sch : schema) (t : string) : option table_def :=
  List.find (fun d => same_name (tbl_name d) t) sch.

Definition find_column (d : table_def) (c : string) : option column :=
  List.find (fun k => same_name (col_name k) c) (tbl_cols d).

Definition rowid_aliases : list string := ["ROWID"; "OID"; "_ROWID_"].

(** The declared name a written column name stands for; the rowid
    aliases stand for [id]. *)
Definition resolve_col (d : table_def) (c : string) : option string :=
  if same_name "id" c then Some "id"
  else
    match find_column d c with
    | Some k => Some (col_name k)
    | None =>
        if existsb (String.eqb (upper_string c)) rowid_aliases
        then Some "id" else None
    end.

Definition col_affinity (d : table_def) (c : string) : affinity :=
  match find_column d c with
  | Some k => col_aff k
  | None => AffInteger
  end.

Fixpoint resolve_cols (err : string -> sqlite_error) (d : table_def)
    (cs : list string) : result (list string) :=
  match cs with
  | [] => Ok []
  | c :: rest =>
      match resolve_col d c with
      | Some c' =>
          let? rest' := resolve_cols err d rest in Ok (c' :: rest')
      | None => Err (SqliteError (err c))
      end
  end.

Fixpoint resolve_cond (d : table_def) (c : cond) : result cond :=
  match c with
  | CEq x e =>
      match resolve_col d x with
      | Some x' => Ok (CEq x' e)
      | None => Err (SqliteError (NoSuchColumn x))
      end
  | CLike x e =>
      match resolve_col d x with
      | Some x' => Ok (CLike x' e)
      | None => Err (SqliteError (NoSuchColumn x))
      end
  | CAnd a b =>
      let? a' := resolve_cond d a in
      let? b' := resolve_cond d b in
      Ok (CAnd a' b')
  | COr a b =>
      let? a' := resolve_cond d a in
      let? b' := resolve_cond d b in
      Ok (COr a' b')
  end.

Definition resolve_where (d : table_def) (w : option cond)
  : result (option cond) :=
  match w with
  | None => Ok None
  | Some c => let? c' := resolve_cond d c in Ok (Some c')
  end.

Definition resolve_table (sch : schema) (t : string) : result table_def :=
  match find_table sch t with
  | Some d => Ok d
  | None => Err (SqliteError (NoSuchTable t))
  end.

(** Compilation after parsing: the table, then the columns in the order
    SQLite meets them. *)
Definition resolve (sch : schema) (s : stmt) : result stmt :=
  match s with
  | SInsert t cols vals =>
      let? d := resolve_table sch t in
      let? cols' := resolve_cols (NoColumnNamed t) d cols in
      if Nat.eqb (List.length cols) (List.length vals)
      then Ok (SInsert (tbl_name d) cols' vals)
      else Err (SqliteError ValueCountMismatch)
  | SInsertDefault t =>
      let? d := resolve_table sch t in Ok (SInsertDefault (tbl_name d))
  | SUpdate t sets w =>
      let? d := resolve_table sch t in
      let? cols' := resolve_cols NoSuchColumn d (List.map fst sets) in
      let? w' := resolve_where d w in
      Ok (SUpdate (tbl_name d) (List.combine cols' (List.map snd sets)) w')
  | SSelect t w o =>
      let? d := resolve_table sch t in
      let? w' := resolve_where d w in
      match o with
      | None => Ok (SSelect (tbl_name d) w' None)
      | Some (c, desc) =>
          match resolve_col d c with
          | Some c' => Ok (SSelect (tbl_name d) w' (Some (c', desc)))
          | None => Err (SqliteError (NoSuchColumn c))
          end
      end
  end.

(** [db.prepare(sql)]. *)
Definition prepare (sch : schema) (sql : string) : result stmt :=
  let? s := parse_stmt (tokens sql) in resolve sch s.

(** *** Binding parameters *)

Definition expr_params (e : expr) : nat :=
  match e with EParam => 1 | _ => 0 end.

Fixpoint cond_params (c : cond) : nat :=
  match c with
  | CEq _ e | CLike _ e => expr_params e
  | CAnd a b | COr a b => cond_params a + cond_params b
  end.

Definition where_params (w : option cond) : nat :=
  match w with Some c => cond_params c | None => 0 end.

Definition sum_params (es : list expr) : nat :=
  List.fold_right (fun e n => (expr_params e + n)%nat) O es.

Definition stmt_params (s : stmt) : nat :=
  match s with
  | SSelect _ w _ => where_params w
  | SInsert _ _ vals => sum_params vals
  | SInsertDefault _ => O
  | SUpdate _ sets w => (sum_params (List.map snd sets) + where_params w)%nat
  end.

Definition to_value (j : Js.jsval) : option value :=
  match j with
  | Js.JNull => Some VNull
  | Js.JNum z => Some (VReal z)
  | Js.JStr s => Some (VText s)
  | Js.JBool _ => None
  end.

Definition cannot_bind : exn :=
  TypeError "SQLite3 can only bind numbers, strings, bigints, buffers, and null".
Definition too_many : exn := RangeError "Too many parameter values were provided".
Definition too_few : exn := RangeError "Too few parameter values were provided".

(** The arguments of [run]/[all] against the [n] anonymous parameters
    still unbound. *)
Fixpoint bind_args (n : nat) (args : list Js.jsval) : result (list value) :=
  match args with
  | [] => match n with O => Ok [] | S _ => Err too_few end
  | a :: rest =>
      match to_value a with
      | None => Err cannot_bind
      | Some v =>
          match n with
          | O => Err too_many
          | S n' => let? vs := bind_args n' rest in Ok (v :: vs)
          end
      end
  end.

Definition subst_expr (e : expr) (vs : list value) : expr * list value :=
  match e, vs with
  | EParam, v :: rest => (ELit v, rest)
  | _, _ => (e, vs)
  end.

Fixpoint subst_exprs (es : list expr) (vs : list value)
  : list expr * list value :=
  match es with
  | [] => ([], vs)
  | e :: rest =>
      let '(e', vs') := subst_expr e vs in
      let '(rest', vs'') := subst_exprs rest vs' in
      (e' :: rest', vs'')
  end.

Fixpoint subst_cond (c : cond) (vs : list value) : cond * list value :=
  match c with
  | CEq x e => let '(e', vs') := subst_expr e vs in (CEq x e', vs')
  | CLike x e => let '(e', vs') := subst_expr e vs in (CLike x e', vs')
  | CAnd a b =>
      let '(a', vs') := subst_cond a vs in
      let '(b', vs'') := subst_cond b vs' in
      (CAnd a' b', vs'')
  | COr a b =>
      let '(a', vs') := subst_cond a vs in
      let '(b', vs'') := subst_cond b vs' in
      (COr a' b', vs'')
  end.

Definition subst_where (w : option cond) (vs : list value) : option cond :=
  match w with
  | Some c => Some (fst (subst_cond c vs))
  | None => None
  end.

(** Parameters are numbered in the order they are written. *)
Definition subst_stmt (s : stmt) (vs : list value) : stmt :=
  match s with
  | SSelect t w o => SSelect t (subst_where w vs) o
  | SInsert t cols vals => SInsert t cols (fst (subst_exprs vals vs))
  | SInsertDefault t => s
  | SUpdate t sets w =>
      let '(es, vs') := subst_exprs (List.map snd sets) vs in
      SUpdate t (List.combine (List.map fst sets) es) (subst_where w vs')
  end.

Definition bind_stmt (s : stmt) (args : list Js.jsval) : result stmt :=
  let? vs := bind_args (stmt_params s) args in Ok (subst_stmt s vs).

(** *** Tables and rows

    A row is its rowid (the [id] column) and its other cells by column
    name; a table keeps its rows in rowid order, with the AUTOINCREMENT
    high-water mark of [sqlite_sequence]. *)

Record row := {
  rowid : Z;
  cells : gmap string value
}.

Record table := {
  tbl_rows : list row;
  tbl_seq : Z
}.

Definition empty_table : table := {| tbl_rows := []; tbl_seq := 0 |}.

Definition get_table (db : gmap string table) (t : string) : table :=
  default empty_table (db !! t).

Definition row_get (r : row) (c : string) : value :=
  if String.eqb c "id" then VInt (rowid r) else default VNull (cells r !! c).

Definition ids (t : table) : list Z := List.map rowid (tbl_rows t).

(** The object better-sqlite3 builds for a row of [SELECT *]. *)
Definition row_object (d : table_def) (r : row) : gmap string value :=
  list_to_map
    (("id", VInt (rowid r))
       :: List.map (fun k => (col_name k, row_get r (col_name k))) (tbl_cols d)).

Definition eval_expr (now : string) (e : expr) : value :=
  match e with
  | ELit v => v
  | ENow => VText now
  | EParam => VNull
  end.

(** A comparison gives the column's affinity to the other operand. *)
Fixpoint eval_cond (d : table_def) (now : string) (r : row) (c : cond) : bool :=
  match c with
  | CEq x e =>
      sql_eq (row_get r x) (apply_affinity (col_affinity d x) (eval_expr now e))
  | CLike x e => sql_like (row_get r x) (eval_expr now e)
  | CAnd a b => eval_cond d now r a && eval_cond d now r b
  | COr a b => eval_cond d now r a || eval_cond d now r b
  end.

Definition eval_where (d : table_def) (now : string) (w : option cond)
    (r : row) : bool :=
  match w with
  | Some c => eval_cond d now r c
  | None => true
  end.

(** *** Sorting *)

Section Sort.
Context {A : Type} (before : A -> A -> bool).

Fixpoint insert_sorted (x : A) (l : list A) : list A :=
  match l with
  | [] => [x]
  | y :: l' => if before x y then x :: l else y :: insert_sorted x l'
  end.

Definition sort_by (l : list A) : list A :=
  List.fold_right insert_sorted [] l.
End Sort.

(** [x] may stand before [y] under ORDER BY [c] (DESC or ASC). *)
Definition order_before (c : string) (desc : bool) (x y : row) : bool :=
  match value_compare (row_get x c) (row_get y c) with
  | Eq => true
  | Lt => negb desc
  | Gt => desc
  end.

Definition order_rows (o : option (string * bool)) (l : list row) : list row :=
  match o with
  | Some (c, desc) => sort_by (order_before c desc) l
  | None => l
  end.

Definition rowid_before (x y : row) : bool := rowid x <=? rowid y.

(** *** SELECT *)

Definition select_rows (d : table_def) (now : string) (w : option cond)
    (o : option (string * bool)) (t : table) : list row :=
  order_rows o (List.filter (eval_where d now w) (tbl_rows t)).

(** *** Constraints *)

Definition fk_ok (db : gmap string table) (k : column) (v : value) : bool :=
  match col_ref k with
  | None => true
  | Some parent =>
      match v with
      | VNull => true
      | VInt z | VReal z => existsb (Z.eqb z) (ids (get_table db parent))
      | VText _ => false
      end
  end.

Definition row_fks_ok (db : gmap string table) (ks : list column) (r : row)
  : bool :=
  forallb (fun k => fk_ok db k (row_get r (col_name k))) ks.

Definition non_null (v : value) : bool :=
  match v with VNull => false | _ => true end.

Fixpoint distinct_by {A : Type} (eqb : A -> A -> bool) (l : list A) : bool :=
  match l with
  | [] => true
  | x :: l' => negb (existsb (eqb x) l') && distinct_by eqb l'
  end.

(** No two rows share a non-NULL value of column [c]. *)
Definition unique_ok (rows : list row) (c : string) : bool :=
  distinct_by value_eqb
    (List.filter non_null (List.map (fun r => row_get r c) rows)).

Definition first_violation (rows : list row) (ks : list column)
  : option string :=
  option_map col_name
    (List.find (fun k => col_unique k && negb (unique_ok rows (col_name k))) ks).

(** Every child row of the schema still finds its parent in [db]. *)
Definition all_fks_ok (sch : schema) (db : gmap string table) : bool :=
  forallb
    (fun d => forallb (row_fks_ok db (tbl_cols d)) (tbl_rows (get_table db (tbl_name d))))
    sch.

(** *** INSERT *)

Definition default_value (now : string) (k : column) : value :=
  match col_default k with
  | DefNull => VNull
  | DefLit v => v
  | DefNow => VText now
  end.

(** The value written for column [c].  (Of one column listed twice the
    first value is taken; no statement below lists a column twice.) *)
Definition given (cols : list string) (vals : list value) (c : string)
  : option value :=
  option_map snd (List.find (fun p => String.eqb (fst p) c) (List.combine cols vals)).

Definition new_cell (now : string) (cols : list string) (vals : list value)
    (k : column) : value :=
  match given cols vals (col_name k) with
  | Some v => apply_affinity (col_aff k) v
  | None => default_value now k
  end.

Definition new_cells (now : string) (d : table_def) (cols : list string)
    (vals : list value) : gmap string value :=
  list_to_map (List.map (fun k => (col_name k, new_cell now cols vals k)) (tbl_cols d)).

(** The rowid AUTOINCREMENT hands out: one more than the largest rowid
    the table holds or ever held. *)
Definition next_rowid (t : table) : result Z :=
  let z := List.fold_right Z.max (tbl_seq t) (ids t) + 1 in
  if z <=? int64_max then Ok z else Err (SqliteError DatabaseFull).

(** Of [id] listed more than once (under its own name or a rowid alias)
    the last value is taken. *)
Definition given_id (cols : list string) (vals : list value) : option value :=
  option_map snd
    (List.find (fun p => String.eqb (fst p) "id")
       (List.rev (List.combine cols vals))).

Definition new_rowid (t : table) (cols : list string) (vals : list value)
  : result Z :=
  match given_id cols vals with
  | None => next_rowid t
  | Some v =>
      match apply_affinity AffInteger v with
      | VNull => next_rowid t
      | VInt z => Ok z
      | VReal _ | VText _ => Err (SqliteError DatatypeMismatch)
      end
  end.

Record run_info := {
  changes : nat;
  lastInsertRowid : option Z
}.

Definition exec_insert (now : string) (d : table_def) (cols : list string)
    (vals : list value) (db : gmap string table)
  : result (run_info * gmap string table) :=
  let t := get_table db (tbl_name d) in
  let? id := new_rowid t cols vals in
  let r := {| rowid := id; cells := new_cells now d cols vals |} in
  if existsb (Z.eqb id) (ids t) then Err (SqliteError ConstraintPrimaryKey)
  else
    let rows := insert_sorted rowid_before r (tbl_rows t) in
    match first_violation rows (tbl_cols d) with
    | Some c => Err (SqliteError (ConstraintUnique c))
    | None =>
        let db' :=
          <[tbl_name d := {| tbl_rows := rows; tbl_seq := Z.max (tbl_seq t) id |}]> db in
        if row_fks_ok db' (tbl_cols d) r
        then Ok ({| changes := 1; lastInsertRowid := Some id |}, db')
        else Err (SqliteError ConstraintForeignKey)
    end.

(** *** UPDATE *)

(** Of several assignments to one column only the rightmost counts. *)
Fixpoint effective (sets : list (string * value)) : list (string * value) :=
  match sets with
  | [] => []
  | (c, v) :: rest =>
      if existsb (fun p => String.eqb (fst p) c) rest then effective rest
      else (c, v) :: effective rest
  end.

Definition assign (d : table_def) (r : row) (a : string * value) : result row :=
  let '(c, v) := a in
  if String.eqb c "id" then
    match apply_affinity AffInteger v with
    | VInt z => Ok {| rowid := z; cells := cells r |}
    | _ => Err (SqliteError DatatypeMismatch)
    end
  else
    Ok {| rowid := rowid r;
          cells := <[c := apply_affinity (col_affinity d c) v]> (cells r) |}.

Fixpoint assign_all (d : table_def) (r : row) (sets : list (string * value))
  : result row :=
  match sets with
  | [] => Ok r
  | a :: rest => let? r' := assign d r a in assign_all d r' rest
  end.

(** The rows after the update, each with whether it was touched. *)
Fixpoint update_rows (d : table_def) (now : string) (w : option cond)
    (sets : list (string * value)) (rows : list row)
  : result (list (bool * row)) :=
  match rows with
  | [] => Ok []
  | r :: rest =>
      let? r' := (if eval_where d now w r
                  then let? x := assign_all d r sets in Ok (true, x)
                  else Ok (false, r)) in
      let? rest' := update_rows d now w sets rest in
      Ok (r' :: rest')
  end.

Definition assigned (sets : list (string * value)) (c : string) : bool :=
  existsb (fun p => String.eqb (fst p) c) sets.

Definition exec_update (sch : schema) (now : string) (d : table_def)
    (sets : list (string * expr)) (w : option cond) (db : gmap string table)
  : result (run_info * gmap string table) :=
  let t := get_table db (tbl_name d) in
  let sets' := effective (List.map (fun p => (fst p, eval_expr now (snd p))) sets) in
  let? marked := update_rows d now w sets' (tbl_rows t) in
  let touched := List.map snd (List.filter fst marked) in
  let rows :=
    if assigned sets' "id"
    then sort_by rowid_before (List.map snd marked)
    else List.map snd marked in
  let db' := <[tbl_name d := {| tbl_rows := rows; tbl_seq := tbl_seq t |}]> db in
  let set_cols := List.filter (fun k => assigned sets' (col_name k)) (tbl_cols d) in
  match touched with
  | [] => Ok ({| changes := 0; lastInsertRowid := None |}, db)
  | _ =>
      if assigned sets' "id" && negb (distinct_by Z.eqb (List.map rowid rows))
      then Err (SqliteError ConstraintPrimaryKey)
      else
        match first_violation rows set_cols with
        | Some c => Err (SqliteError (ConstraintUnique c))
        | None =>
            if forallb (row_fks_ok db' set_cols) touched
               && (negb (assigned sets' "id") || all_fks_ok sch db')
            then Ok ({| changes := List.length touched; lastInsertRowid := None |}, db')
            else Err (SqliteError ConstraintForeignKey)
        end
  end.

(** *** Running a bound statement *)

Definition exec (sch : schema) (now : string) (s : stmt)
    (db : gmap string table) : result (run_info * gmap string table) :=
  match s with
  | SInsert t cols vals =>
      let? d := resolve_table sch t in
      exec_insert now d cols (List.map (eval_expr now) vals) db
  | SInsertDefault t =>
      let? d := resolve_table sch t in exec_insert now d [] [] db
  | SUpdate t sets w =>
      let? d := resolve_table sch t in exec_update sch now d sets w db
  | SSelect _ _ _ =>
      Ok ({| changes := 0; lastInsertRowid := None |}, db)
  end.

(** [stmt.run(...args)]. *)
Definition run (sch : schema) (now : string) (s : stmt) (args : list Js.jsval)
    (db : gmap string table) : result (run_info * gmap string table) :=
  let? b := bind_stmt s args in exec sch now b db.

Definition not_a_reader : exn :=
  TypeError "This statement does not return data. Use run() instead".

(** [stmt.all(...args)]. *)
Definition all (sch : schema) (now : string) (s : stmt) (args : list Js.jsval)
    (db : gmap string table) : result (list (gmap string value)) :=
  match s with
  | SSelect _ _ _ =>
      let? b := bind_stmt s args in
      match b with
      | SSelect t w o =>
          let? d := resolve_table sch t in
          Ok (List.map (row_object d) (select_rows d now w o (get_table db t)))
      | _ => Ok []
      end
  | _ => Err not_a_reader
  end.

End Sqlite.

(** ** The schema of the [db.exec] block *)

Module Schema.
Import Sqlite.

Definition col (name : string) (a : affinity) : column :=
  {| col_name := name; col_aff := a; col_default := DefNull;
     col_unique := false; col_ref := None |}.

Definition text (name : string) : column := col name AffText.
Definition integer (name : string) : column := col name AffInteger.
Definition real (name : string) : column := col name AffReal.
(** DATETIME and DATE give NUMERIC affinity. *)
Definition datetime (name : string) : column := col name AffNumeric.

Definition unique (k : column) : column :=
  {| col_name := col_name k; col_aff := col_aff k; col_default := col_default k;
     col_unique := true; col_ref := col_ref k |}.

Definition with_default (k : column) (d : default_spec) : column :=
  {| col_name := col_name k; col_aff := col_aff k; col_default := d;
     col_unique := col_unique k; col_ref := col_ref k |}.

Definition references (k : column) (parent : string) : column :=
  {| col_name := col_name k; col_aff := col_aff k; col_default := col_default k;
     col_unique := col_unique k; col_ref := Some parent |}.

(** The four columns every module table ends with. *)
Definition stamps : list column :=
  [ with_default (datetime "created_at") DefNow;
    with_default (datetime "updated_at") DefNow;
    with_default (integer "is_deleted") (DefLit (VInt 0));
    datetime "deleted_at" ].

Definition owner : column := references (integer "owner_id") "users".

Definition status (dflt : string) : column :=
  with_default (text "status") (DefLit (VText dflt)).

Definition roles : table_def :=
  {| tbl_name := "roles";
     tbl_cols := [ unique (text "name"); integer "level"; text "permissions" ] |}.

Definition users : table_def :=
  {| tbl_name := "users";
     tbl_cols := [ unique (text "username"); text "password";
                   references (integer "role_id") "roles"; text "department" ] |}.

Definition leads : table_def :=
  {| tbl_name := "leads";
     tbl_cols := ([ text "name"; text "contact_person"; text "phone"; text "email";
                    text "source"; text "level"; status "未跟进"; owner ]
                  ++ stamps)%list |}.

Definition customers : table_def :=
  {| tbl_name := "customers";
     tbl_cols := ([ text "name"; text "type"; text "industry";
                    text "contact_person"; text "phone"; text "address";
                    text "level"; status "合作中"; owner ]
                  ++ stamps)%list |}.

Definition opportunities : table_def :=
  {| tbl_name := "opportunities";
     tbl_cols := ([ text "name"; references (integer "customer_id") "customers";
                    text "stage"; integer "probability"; real "amount";
                    datetime "expected_date"; text "description"; owner ]
                  ++ stamps)%list |}.

Definition contracts : table_def :=
  {| tbl_name := "contracts";
     tbl_cols := ([ unique (text "contract_no"); text "name";
                    references (integer "customer_id") "customers";
                    references (integer "opportunity_id") "opportunities";
                    text "type"; real "amount"; text "payment_method";
                    datetime "sign_date"; datetime "expiry_date";
                    status "草稿"; owner ]
                  ++ stamps)%list |}.

Definition activities : table_def :=
  {| tbl_name := "activities";
     tbl_cols := ([ text "name"; text "type"; text "channel";
                    datetime "start_time"; datetime "end_time"; text "location";
                    text "details"; real "budget"; status "策划中"; owner ]
                  ++ stamps)%list |}.

Definition comments : table_def :=
  {| tbl_name := "comments";
     tbl_cols := [ text "entity_type"; integer "entity_id";
                   references (integer "user_id") "users"; text "content";
                   integer "parent_id";
                   with_default (datetime "created_at") DefNow ] |}.

Definition follow_ups : table_def :=
  {| tbl_name := "follow_ups";
     tbl_cols := [ text "entity_type"; integer "entity_id"; text "method";
                   text "result"; text "content"; datetime "next_step_time";
                   references (integer "user_id") "users";
                   with_default (datetime "created_at") DefNow ] |}.

Definition schema : Sqlite.schema :=
  [ roles; users; leads; customers; opportunities; contracts; activities;
    comments; follow_ups ].

End Schema.

(** ** The server *)

Module Server.
Import Sqlite.
Export Js.

Abbreviation database := (gmap string table).

Definition schema : Sqlite.schema := Schema.schema.

(** What a route sends back.  A handler that throws is answered by
    Express with status 500; [Unhandled] keeps the exception. *)
Inductive body :=
| BError (msg : string)
| BRows (rows : list (gmap string value))
| BId (id : Z)
| BSuccess.

Inductive response :=
| Json (status : nat) (b : body)
| Unhandled (e : exn).

(** [req.query] of the list route, each parameter given at most once. *)
Record query := {
  q : option string;
  status : option string;
  owner_id : option string;
  is_deleted : option string
}.

Definition no_filters : query :=
  {| q := None; status := None; owner_id := None; is_deleted := None |}.

(** *** Seed block *)

Definition run_db (now : string) (s : stmt) (args : list jsval) (db : database)
  : result database :=
  let? r := run schema now s args db in Ok (snd r).

(** [SELECT COUNT( * ) as count FROM roles]. *)
Definition roleCount (db : database) : nat :=
  List.length (tbl_rows (get_table db "roles")).

(** [SELECT id FROM roles WHERE name = '超级管理员'], first row; reading
    [.id] of no row is a TypeError. *)
Definition adminRole (db : database) : result Z :=
  match List.find (fun r => sql_eq (row_get r "name") (VText "超级管理员"))
          (tbl_rows (get_table db "roles")) with
  | Some r => Ok (rowid r)
  | None => Err (TypeError "Cannot read properties of undefined (reading 'id')")
  end.

Definition insertRole_sql : string :=
  "INSERT INTO roles (name, level, permissions) VALUES (?, ?, ?)".
Definition insertUser_sql : string :=
  "INSERT INTO users (username, password, role_id, department) VALUES (?, ?, ?, ?)".
Definition insertLead_sql : string :=
  "INSERT INTO leads (name, contact_person, phone, email, source, level, status, owner_id) VALUES (?, ?, ?, ?, ?, ?, ?, ?)".
Definition insertCustomer_sql : string :=
  "INSERT INTO customers (name, type, industry, contact_person, phone, address, level, status, owner_id) VALUES (?, ?, ?, ?, ?, ?, ?, ?, ?)".
Definition insertOpportunity_sql : string :=
  "INSERT INTO opportunities (name, customer_id, stage, probability, amount, expected_date, owner_id) VALUES (?, ?, ?, ?, ?, ?, ?)".

(** The statements of the seed block, each at its own clock reading
    [clock i]. *)
Definition seed_rows (clock : nat -> string) (db : database) : result database :=
  let? insertRole := prepare schema insertRole_sql in
  let? db := run_db (clock 0%nat) insertRole
    [JStr "超级管理员"; JNum 1; JStr (stringify_flag "all")] db in
  let? db := run_db (clock 1%nat) insertRole
    [JStr "部门管理员"; JNum 2; JStr (stringify_flag "dept")] db in
  let? db := run_db (clock 2%nat) insertRole
    [JStr "普通员工"; JNum 3; JStr (stringify_flag "self")] db in
  let? db := run_db (clock 3%nat) insertRole
    [JStr "只读用户"; JNum 4; JStr (stringify_flag "read")] db in
  let? admin := adminRole db in
  let? insertUser := prepare schema insertUser_sql in
  let? db := run_db (clock 4%nat) insertUser
    [JStr "admin"; JStr "admin123"; JNum admin; JStr "总部"] db in
  let? insertLead := prepare schema insertLead_sql in
  let? db := run_db (clock 5%nat) insertLead
    [JStr "Tech Solutions Inc"; JStr "Alice Smith"; JStr "123-456-7890";
     JStr "alice@tech.com"; JStr "官网"; JStr "A"; JStr "跟进中"; JNum 1] db in
  let? db := run_db (clock 6%nat) insertLead
    [JStr "Green Energy Co"; JStr "Bob Brown"; JStr "098-765-4321";
     JStr "bob@green.com"; JStr "推荐"; JStr "B"; JStr "未跟进"; JNum 1] db in
  let? insertCustomer := prepare schema insertCustomer_sql in
  let? db := run_db (clock 7%nat) insertCustomer
    [JStr "Global Logistics"; JStr "企业"; JStr "物流"; JStr "Charlie Davis";
     JStr "555-0199"; JStr "123 Main St"; JStr "VIP"; JStr "合作中"; JNum 1] db in
  let? insertOpportunity := prepare schema insertOpportunity_sql in
  run_db (clock 8%nat) insertOpportunity
    [JStr "Q1 Software Upgrade"; JNum 1; JStr "初步沟通"; JNum 20; JNum 50000;
     JStr "2026-06-01"; JNum 1] db.

(** [if (roleCount.count === 0) { ... }]. *)
Definition seed (clock : nat -> string) (db : database) : result database :=
  if Nat.eqb (roleCount db) 0 then seed_rows clock db else Ok db.

(** *** Generic list route: [app.get("/api/:module")] *)

Definition validModules : list string :=
  ["leads"; "customers"; "opportunities"; "contracts"; "activities"].

Definition list_sql (module : string) (qy : query) : string * list jsval :=
  let sql := "SELECT * FROM " ++ module ++ " WHERE is_deleted = ?" in
  let params :=
    [match is_deleted qy with Some s => JStr s | None => JNum 0 end] in
  let '(sql, params) :=
    if truthy (q qy) then
      let pat := JStr ("%" ++ default "" (q qy) ++ "%") in
      (sql ++ " AND (name LIKE ? OR contact_person LIKE ?)",
       (params ++ [pat; pat])%list)
    else (sql, params) in
  let '(sql, params) :=
    if truthy (status qy) then
      (sql ++ " AND status = ?", (params ++ [JStr (default "" (status qy))])%list)
    else (sql, params) in
  (sql ++ " ORDER BY created_at DESC", params).

Definition get_list (now : string) (module : string) (qy : query) (db : database)
  : response * database :=
  if negb (includes validModules module)
  then (Json 404 (BError "Invalid module"), db)
  else
    let '(sql, params) := list_sql module qy in
    match (let? st := prepare schema sql in all schema now st params db) with
    | Ok data => (Json 200 (BRows data), db)
    | Err e => (Unhandled e, db)
    end.

(** *** Create route: [app.post("/api/:module")]

    A body is the list of its own properties in [Object.keys] order. *)

Definition create_sql (module : string) (fields : list string) : string :=
  let placeholders := join "," (List.map (fun _ => "?") fields) in
  "INSERT INTO " ++ module ++ " (" ++ join "," fields ++ ") VALUES ("
    ++ placeholders ++ ")".

Definition post_create (now : string) (module : string)
    (body : list (string * jsval)) (db : database) : response * database :=
  let fields := List.map fst body in
  let values := List.map snd body in
  let sql := create_sql module fields in
  match (let? st := prepare schema sql in run schema now st values db) with
  | Ok (info, db') => (Json 200 (BId (default 0 (lastInsertRowid info))), db')
  | Err e => (Unhandled e, db)
  end.

(** *** Update route: [app.put("/api/:module/:id")] *)

Definition update_sql (module : string) (fields : list string) : string :=
  let setClause := join "," (List.map (fun f => f ++ " = ?") fields) in
  "UPDATE " ++ module ++ " SET " ++ setClause
    ++ ", updated_at = CURRENT_TIMESTAMP WHERE id = ?".

Definition put_update (now : string) (module id : string)
    (body : list (string * jsval)) (db : database) : response * database :=
  let fields := List.map fst body in
  let values := (List.map snd body ++ [JStr id])%list in
  let sql := update_sql module fields in
  match (let? st := prepare schema sql in run schema now st values db) with
  | Ok (_, db') => (Json 200 BSuccess, db')
  | Err e => (Unhandled e, db)
  end.

(** *** Soft delete route: [app.delete("/api/:module/:id")] *)

Definition delete_sql (module : string) : string :=
  "UPDATE " ++ module
    ++ " SET is_deleted = 1, deleted_at = CURRENT_TIMESTAMP WHERE id = ?".

Definition delete_soft (now : string) (module id : string) (db : database)
  : response * database :=
  match (let? st := prepare schema (delete_sql module) in
         run schema now st [JStr id] db) with
  | Ok (_, db') => (Json 200 BSuccess, db')
  | Err e => (Unhandled e, db)
  end.

(** *** Restore route: [app.post("/api/:module/:id/restore")] *)

Definition restore_sql (module : string) : string :=
  "UPDATE " ++ module ++ " SET is_deleted = 0, deleted_at = NULL WHERE id = ?".

Definition post_restore (now : string) (module id : string) (db : database)
  : response * database :=
  match (let? st := prepare schema (restore_sql module) in
         run schema now st [JStr id] db) with
  | Ok (_, db') => (Json 200 BSuccess, db')
  | Err e => (Unhandled e, db)
  end.

(** *** Comments routes *)

(** The rows of
    [SELECT c.*, u.username FROM comments c JOIN users u ON c.user_id = u.id
     WHERE entity_type = ? AND entity_id = ? ORDER BY created_at DESC]:
    each comment of the pair with each user it joins. *)
Definition comment_matches (type id : string) (c : row) : bool :=
  sql_eq (row_get c "entity_type") (apply_affinity AffText (VText type))
  && sql_eq (row_get c "entity_id") (apply_affinity AffInteger (VText id)).

Definition joins (c u : row) : bool :=
  sql_eq (row_get c "user_id") (VInt (rowid u)).

Definition newest_first (x y : row * row) : bool :=
  order_before "created_at" true (fst x) (fst y).

Definition comment_object (cu : row * row) : gmap string value :=
  <["username" := row_get (snd cu) "username"]>
    (row_object Schema.comments (fst cu)).

Definition joined_comments (type id : string) (db : database)
  : list (row * row) :=
  List.flat_map
    (fun c =>
       List.map (fun u => (c, u))
         (List.filter (joins c) (tbl_rows (get_table db "users"))))
    (List.filter (comment_matches type id) (tbl_rows (get_table db "comments"))).

Definition get_comments (type id : string) (db : database)
  : response * database :=
  let comments :=
    List.map comment_object (sort_by newest_first (joined_comments type id db)) in
  (Json 200 (BRows comments), db).

(** [app.post("/api/comments")].  Express tries routes in the order they
    were registered and [app.post("/api/:module")] comes first, so a POST
    to /api/comments is answered by the create route with module
    [comments]; this handler is the one registered after it.

    A property the body lacks is [undefined], bound as NULL. *)
Definition prop (body : list (string * jsval)) (k : string) : jsval :=
  match List.find (fun p => String.eqb (fst p) k) body with
  | Some p => snd p
  | None => JNull
  end.

Definition post_comment (now : string) (body : list (string * jsval))
    (db : database) : response * database :=
  let sql := "
      INSERT INTO comments (entity_type, entity_id, user_id, content, parent_id) 
      VALUES (?, ?, ?, ?, ?)
    " in
  let args := List.map (prop body)
                ["entity_type"; "entity_id"; "user_id"; "content"; "parent_id"] in
  match (let? st := prepare schema sql in run schema now st args db) with
  | Ok (info, db') => (Json 200 (BId (default 0 (lastInsertRowid info))), db')
  | Err e => (Unhandled e, db)
  end.

(** *** Current user route: [app.get("/api/me")] *)

(** The rows of
    [SELECT u.*, r.name as role_name, r.level as role_level, r.permissions
     FROM users u JOIN roles r ON u.role_id = r.id WHERE u.username = 'admin']:
    each user named admin with each role it joins. *)
Definition is_admin (u : row) : bool :=
  sql_eq (row_get u "username") (VText "admin").

Definition has_role (u r : row) : bool :=
  sql_eq (row_get u "role_id") (VInt (rowid r)).

Definition me_object (ur : row * row) : gmap string value :=
  <["permissions" := row_get (snd ur) "permissions"]>
    (<["role_level" := row_get (snd ur) "level"]>
       (<["role_name" := row_get (snd ur) "name"]>
          (row_object Schema.users (fst ur)))).

Definition admins (db : database) : list (row * row) :=
  List.flat_map
    (fun u =>
       List.map (fun r => (u, r))
         (List.filter (has_role u) (tbl_rows (get_table db "roles"))))
    (List.filter is_admin (tbl_rows (get_table db "users"))).

(** [.get()] gives the first row, or [undefined] when there is none;
    [res.json] sends it. *)
Definition get_me (db : database) : option (gmap string value) * database :=
  (List.head (List.map me_object (admins db)), db).

(** *** Routing

    The routes in the order [startServer] registers them.  Express tries
    them in that order and the first whose method and path match
    answers; every handler above ends the request.  A request no route
    matches goes on to the front-end middleware. *)
Inductive method := GET | POST | PUT | DELETE.

Definition method_eqb (a b : method) : bool :=
  match a, b with
  | GET, GET | POST, POST | PUT, PUT | DELETE, DELETE => true
  | _, _ => false
  end.

(** A piece of a route path between slashes: literal text or a named
    parameter. *)
Inductive segment :=
| Lit (s : string)
| Par (name : string).

Inductive handler :=
| HMe | HList | HCreate | HUpdate | HDelete | HComments | HPostComment
| HStats | HRestore.

Definition routes : list (method * list segment * handler) :=
  [ (GET, [Lit "api"; Lit "me"], HMe);
    (GET, [Lit "api"; Par "module"], HList);
    (POST, [Lit "api"; Par "module"], HCreate);
    (PUT, [Lit "api"; Par "module"; Par "id"], HUpdate);
    (DELETE, [Lit "api"; Par "module"; Par "id"], HDelete);
    (GET, [Lit "api"; Lit "comments"; Par "type"; Par "id"], HComments);
    (POST, [Lit "api"; Lit "comments"], HPostComment);
    (GET, [Lit "api"; Lit "stats"; Lit "opportunities"], HStats);
    (POST, [Lit "api"; Par "module"; Par "id"; Lit "restore"], HRestore) ].

(** A request path, as the pieces between its slashes ([/api/leads/7]
    is [["api"; "leads"; "7"]]), against a route path.  Literal pieces
    match without regard to ASCII case, a parameter takes one piece that
    is not empty, and one slash at the end of the request path is
    allowed.  The parameters are the pieces as sent: they are what the
    handler reads when they hold no percent sign.  Express
    percent-decodes a parameter before the handler reads it, and answers
    400 without calling a handler when a piece is not the percent-encoding
    of a string. *)
Fixpoint match_path (pat : list segment) (path : list string)
  : option (list (string * string)) :=
  match pat, path with
  | [], [] => Some []
  | [], [x] => if String.eqb x "" then Some [] else None
  | Lit s :: pat', x :: path' =>
      if same_name s x then match_path pat' path' else None
  | Par name :: pat', x :: path' =>
      if String.eqb x "" then None
      else
        match match_path pat' path' with
        | Some ps => Some ((name, x) :: ps)
        | None => None
        end
  | _, _ => None
  end.

Fixpoint first_match (rs : list (method * list segment * handler))
    (meth : method) (path : list string)
  : option (handler * list (string * string)) :=
  match rs with
  | [] => None
  | (meth', pat, h) :: rest =>
      if method_eqb meth' meth then
        match match_path pat path with
        | Some ps => Some (h, ps)
        | None => first_match rest meth path
        end
      else first_match rest meth path
  end.

Definition dispatch (meth : method) (path : list string)
  : option (handler * list (string * string)) :=
  first_match routes meth path.

End Server.


(** * Properties *)

Import Sqlite Server.

(** ** Vocabulary of the statements *)

Definition rows_of (db : database) (t : string) : list row :=
  tbl_rows (get_table db t).

Definition only_q (s : string) : query :=
  {| q := Some s; status := None; owner_id := None; is_deleted := None |}.

Definition only_is_deleted (s : string) : query :=
  {| q := None; status := None; owner_id := None; is_deleted := Some s |}.

(** The table a module name stands for. *)
Definition def_of (m : string) : table_def :=
  default {| tbl_name := m; tbl_cols := [] |} (find_table schema m).

(** Writing one cell, and several, of a row. *)
Definition set_cell (d : table_def) (r : row) (a : string * value) : row :=
  {| rowid := rowid r;
     cells := <[fst a := apply_affinity (col_affinity d (fst a)) (snd a)]> (cells r) |}.

Definition set_cells (d : table_def) (sets : list (string * value)) (r : row) : row :=
  List.fold_left (set_cell d) sets r.

(** A row after an UPDATE, with whether the WHERE clause selected it. *)
Definition mark (d : table_def) (now : string) (w : option cond)
    (sets : list (string * value)) (r : row) : bool * row :=
  if eval_where d now w r then (true, set_cells d sets r) else (false, r).

(** [WHERE id = ?] with the path parameter bound. *)
Definition id_is (id : string) : option cond :=
  Some (CEq "id" (ELit (VText id))).

(** What the update, soft delete and restore routes answer after [run]. *)
Definition answer (r : result (run_info * database)) (db : database)
  : response * database :=
  match r with
  | Ok (_, db') => (Json 200 BSuccess, db')
  | Err e => (Unhandled e, db)
  end.

(** The assignments of the soft delete and restore statements. *)
Definition delete_sets : list (string * expr) :=
  [("is_deleted", ELit (VInt 1)); ("deleted_at", ENow)].

Definition restore_sets : list (string * expr) :=
  [("is_deleted", ELit (VInt 0)); ("deleted_at", ELit VNull)].

(** The path parameter [id] selects the row [r]. *)
Definition id_matches (id : string) (r : row) : bool :=
  sql_eq (VInt (rowid r)) (apply_affinity AffInteger (VText id)).

(** Table [m] with [f] applied to the rows [id] selects, as one UPDATE
    leaves it. *)
Definition rewrite_rows (f : row -> row) (id m : string) (db : database)
  : database :=
  let t := get_table db m in
  if existsb (id_matches id) (tbl_rows t)
  then <[m := {| tbl_rows :=
                   List.map (fun r => if id_matches id r then f r else r) (tbl_rows t);
                 tbl_seq := tbl_seq t |}]> db
  else db.

(** What CURRENT_TIMESTAMP leaves in a DATETIME column. *)
Definition timestamp (now : string) : value :=
  apply_affinity AffNumeric (VText now).

(** The value a client reads as a set flag. *)
Definition flag_set (v : value) : bool :=
  match v with
  | VNull => false
  | VInt z | VReal z => negb (z =? 0)
  | VText s => negb (String.eqb s "")
  end.

(** The parameter the list route binds for [is_deleted]. *)
Definition is_deleted_param (o : option string) : value :=
  match o with
  | Some s => VText s
  | None => VReal 0
  end.

Definition newest : option (string * bool) := Some ("created_at", true).

(** The modules whose table has a [status] column. *)
Definition statusModules : list string :=
  ["leads"; "customers"; "contracts"; "activities"].

(** The assignments of the update route for a body with the one key
    [status]. *)
Definition status_sets (e : expr) : list (string * expr) :=
  [("status", e); ("updated_at", ENow)].

(** A database with one lead, as the create route leaves the empty
    database for the body [{name: "Acme"}]. *)
Definition acme : row :=
  {| rowid := 1;
     cells := new_cells "2026-11-03 09:00:00" Schema.leads ["name"] [VText "Acme"] |}.

Definition one_lead : database :=
  {[ "leads" := {| tbl_rows := [acme]; tbl_seq := 1 |} ]}.

(** How many rows table [t] holds. *)
Definition count (db : database) (t : string) : nat :=
  List.length (rows_of db t).

(** The creation time ORDER BY compares, of a comment with its user. *)
Definition created_at (cu : row * row) : value :=
  row_get (fst cu) "created_at".

(** [x] is not older than [y]. *)
Definition not_older (x y : row * row) : Prop :=
  value_compare (created_at x) (created_at y) <> Lt.

(** Comment [c] is stored for entity [n] of kind [type]. *)
Definition stored_for (type : string) (n : Z) (c : row) : bool :=
  sql_eq (row_get c "entity_type") (VText type)
  && sql_eq (row_get c "entity_id") (VInt n).

(** The comments stored for entity [n] of kind [type], each with every
    stored user whose id its [user_id] is: the pairs of a comment and a
    user, comment by comment and user by user in table order. *)
Definition comments_with_users (type : string) (n : Z) (db : database)
  : list (row * row) :=
  List.filter (fun cu => stored_for type n (fst cu) && joins (fst cu) (snd cu))
    (List.list_prod (rows_of db "comments") (rows_of db "users")).

(** The body of a comment on lead 1 that names no user. *)
Definition anonymous_comment : list (string * jsval) :=
  [("entity_type", JStr "leads"); ("entity_id", JNum 1); ("user_id", JNull);
   ("content", JStr "hi"); ("parent_id", JNull)].

(** Every character of [s] passes [f]. *)
Fixpoint all_chars (f : ascii -> bool) (s : string) : bool :=
  match s with
  | EmptyString => true
  | String c s' => f c && all_chars f s'
  end.

(** A key made of a letter, underscore or non-ASCII byte, then
    identifier characters, that is not a reserved word. *)
Definition plain_name (k : string) : bool :=
  match k with
  | EmptyString => false
  | String c rest => is_ident_start c && all_chars is_ident_char rest
  end && is_name k.

(** A key that does not begin with a byte-order mark, and one that is
    one identifier token of a statement. *)
Definition no_bom (k : string) : bool := negb (String.prefix bom k).

Definition identifier (k : string) : bool := plain_name k && no_bom k.

(** A piece of a request path with no percent sign in it: Express hands
    it to the handler as it was sent.  (A piece with one is
    percent-decoded first, and the request is answered 400 when the
    decoding fails.) *)
Definition unescaped (piece : string) : bool :=
  all_chars (fun c => negb (Ascii.eqb c "%")) piece.

(** SQLITE_MAX_VARIABLE_NUMBER, as SQLite sets it by default: a statement
    with more parameters is refused. *)
Definition max_variables : Z := 32766.

(** [k] names a column of module [m]'s table (in any case, or by a rowid
    alias). *)
Definition known_column (m k : string) : bool :=
  match resolve_col (def_of m) k with
  | Some _ => true
  | None => false
  end.

(** Tokens separated by commas. *)
Fixpoint comma_separated (ts : list token) : list token :=
  match ts with
  | [] => []
  | [t] => [t]
  | t :: rest => t :: TComma :: comma_separated rest
  end.

(** The tokens of a text read from lexer state [st]. *)
Definition lex_tokens (st : lstate) (s : string) : list token :=
  (fst (lex_run st s) ++ lex_finish (snd (lex_run st s)))%list.

(** The key of a create body that smuggles the rest of the statement. *)
Definition injected_key : string := "name) VALUES (?) --".

(** The tokens of the update route's statement: one assignment per key,
    each followed by a comma, then the fixed tail. *)
Definition assign_tokens (keys : list string) : list token :=
  List.flat_map (fun k => [TId k; TEq; TQMark; TComma]) keys.

Definition update_tail : list token :=
  [TId "updated_at"; TEq; TId "CURRENT_TIMESTAMP";
   TId "WHERE"; TId "id"; TEq; TQMark].

Definition key_sets (keys : list string) : list (string * expr) :=
  (List.map (fun k => (k, EParam)) keys ++ [("updated_at", ENow)])%list.

(** A value of a body that better-sqlite3 can bind. *)
Definition bindable (v : jsval) : bool :=
  match to_value v with Some _ => true | None => false end.

Definition values_of (args : list jsval) : list value :=
  List.map (fun a => default VNull (to_value a)) args.

(** The modules whose table has [name] and [contact_person]. *)
Definition searchModules : list string := ["leads"; "customers"].

(** The LIKE pattern and the WHERE clause of the list route for [q]. *)
Definition q_pattern (q : string) : string := "%" ++ q ++ "%".

Definition q_filter (q : string) : option cond :=
  Some (CAnd (CEq "is_deleted" (ELit (VReal 0)))
          (COr (CLike "name" (ELit (VText (q_pattern q))))
               (CLike "contact_person" (ELit (VText (q_pattern q)))))).

(** The cells soft delete and restore write. *)
Definition deleted_cells (now : string) : list (string * value) :=
  [("is_deleted", VInt 1); ("deleted_at", VText now)].

Definition restored_cells : list (string * value) :=
  [("is_deleted", VInt 0); ("deleted_at", VNull)].

(** A row as create leaves its delete columns: not deleted, never
    deleted. *)
Definition never_deleted (r : row) : Prop :=
  cells r !! "is_deleted" = Some (VInt 0) /\ cells r !! "deleted_at" = Some VNull.

(** The query with the one parameter [status]. *)
Definition only_status (s : string) : query :=
  {| q := None; status := Some s; owner_id := None; is_deleted := None |}.

(** The rows a query of the list route asks for: the [is_deleted]
    parameter, the [q] pattern when [q] is given, the [status] when it
    is given. *)
Definition q_wanted (qy : query) (r : row) : bool :=
  if truthy (q qy) then
    sql_like (row_get r "name") (VText (q_pattern (default "" (q qy))))
    || sql_like (row_get r "contact_person") (VText (q_pattern (default "" (q qy))))
  else true.

Definition status_wanted (qy : query) (r : row) : bool :=
  if truthy (status qy)
  then sql_eq (row_get r "status") (VText (default "" (status qy)))
  else true.

Definition wanted (qy : query) (r : row) : bool :=
  sql_eq (row_get r "is_deleted")
    (apply_affinity AffInteger (is_deleted_param (is_deleted qy)))
  && q_wanted qy r && status_wanted qy r.

(** SQLITE_MAX_LIKE_PATTERN_LENGTH: LIKE refuses a pattern of more
    bytes. *)
Definition max_like_pattern : Z := 50000.

(** A row whose [name] and [contact_person] hold NULL or text, as the
    TEXT affinity of the two columns leaves whatever a statement
    stores. *)
Definition holds_text (v : value) : bool :=
  match v with
  | VNull | VText _ => true
  | VInt _ | VReal _ => false
  end.

Definition searchable (r : row) : bool :=
  holds_text (row_get r "name") && holds_text (row_get r "contact_person").

(** Three leads, created in the order of their ids at different times;
    the second neither is named nor has a contact like [acme]. *)
Definition initech : row :=
  {| rowid := 2;
     cells := new_cells "2026-11-03 09:15:00" Schema.leads ["name"]
                [VText "Initech"] |}.

Definition globex : row :=
  {| rowid := 3;
     cells := new_cells "2026-11-03 09:30:00" Schema.leads
                ["name"; "contact_person"] [VText "Globex"; VText "Ann of ACME"] |}.

Definition three_leads : database :=
  {[ "leads" := {| tbl_rows := [acme; initech; globex]; tbl_seq := 3 |} ]}.

(** Text that spells a whole number in decimal. *)
Definition decimal (s : string) : Prop :=
  exists z : Z, in_int64 z = true /\ s = text_of_int z.

(** [x] was not created before [y]. *)
Definition newer_first (x y : row) : Prop :=
  value_compare (row_get x "created_at") (row_get y "created_at") <> Lt.

(** The largest whole number a JavaScript number holds exactly. *)
Definition max_safe_integer : Z := 9007199254740991.

(** Text that SQLite may read as a number when a column is not a text
    column: it is made only of digits, white space, signs, a point and
    an exponent mark, has a digit, and has its signs in front or right
    after an exponent mark.  (Every numeric literal is such a text; a
    date or a time of day is not.) *)
Definition is_blank (c : ascii) : bool := between 9 13 c || Nat.eqb (code c) 32.

Definition is_sign (c : ascii) : bool := Ascii.eqb c "+" || Ascii.eqb c "-".

Definition is_exp (c : ascii) : bool := Ascii.eqb c "e" || Ascii.eqb c "E".

Definition numeric_char (c : ascii) : bool :=
  is_digit c || is_blank c || is_sign c || is_exp c || Ascii.eqb c ".".

Fixpoint signs_in_place (front after_exp : bool) (s : string) : bool :=
  match s with
  | EmptyString => true
  | String c s' =>
      if is_sign c then (front || after_exp) && signs_in_place false false s'
      else signs_in_place (front && is_blank c) (is_exp c) s'
  end.

Definition may_be_number (s : string) : bool :=
  all_chars numeric_char s
  && negb (all_chars (fun c => negb (is_digit c)) s)
  && signs_in_place true false s.

(** A value of a body that a column of affinity [a] stores unchanged in
    meaning: null; a whole number, below 10^15 in magnitude for a text
    column (where it is written out in digits) and exact as a JavaScript
    number otherwise; a string for a text column, and for another column
    a string that is a decimal integer exact as a JavaScript number or
    one that cannot be a number. *)
Definition kept (a : affinity) (v : jsval) : bool :=
  match v with
  | JNull => true
  | JBool _ => false
  | JNum z =>
      match a with
      | AffText => Z.abs z <? 10 ^ 15
      | _ => Z.abs z <=? max_safe_integer
      end
  | JStr s =>
      match a with
      | AffText => true
      | _ =>
          match int_of_text s with
          | Some z => Z.abs z <=? max_safe_integer
          | None => negb (may_be_number s)
          end
      end
  end.

(** Every value of the body is kept by the column its key names. *)
Definition all_kept (m : string) (body : list (string * jsval)) : bool :=
  forallb (fun p => kept (col_affinity (def_of m) (fst p)) (snd p)) body.

(** The rowid AUTOINCREMENT hands out next in table [t]. *)
Definition next_id (t : table) : Z :=
  List.fold_right Z.max (tbl_seq t) (ids t) + 1.

(** [k] names a column of module [m] other than [id] that carries no
    UNIQUE or FOREIGN KEY constraint. *)
Definition free_column (m k : string) : bool :=
  negb (same_name "id" k)
  && match find_column (def_of m) k with
     | Some c =>
         negb (col_unique c)
         && match col_ref c with Some _ => false | None => true end
     | None => false
     end.

(** The declared name of the column a key stands for. *)
Definition column_of (m k : string) : string :=
  default k (resolve_col (def_of m) k).

(** The row the create route inserts for a body of free columns. *)
Definition created_row (now m : string) (body : list (string * jsval))
    (db : database) : row :=
  {| rowid := next_id (get_table db m);
     cells := new_cells now (def_of m)
                (List.map (column_of m) (List.map fst body))
                (values_of (List.map snd body)) |}.

(** A row after the update route has written the body to it. *)
Definition updated_row (now m : string) (body : list (string * jsval))
    (r : row) : row :=
  set_cells (def_of m)
    (List.combine (List.map (column_of m) (List.map fst body) ++ ["updated_at"])
       (values_of (List.map snd body) ++ [VText now]))
    r.

(** The keys of the body of a comment, and the body a client posts for a
    comment of user [uid] on record [eid] of [type]. *)
Definition comment_keys : list string :=
  ["entity_type"; "entity_id"; "user_id"; "content"; "parent_id"].

Definition comment_body (type : string) (eid uid : Z) (text : string)
    (parent : jsval) : list (string * jsval) :=
  [("entity_type", JStr type); ("entity_id", JNum eid); ("user_id", JNum uid);
   ("content", JStr text); ("parent_id", parent)].

(** A database holding one user. *)
Definition alice : row :=
  {| rowid := 1;
     cells := new_cells "2026-11-03 09:00:00" Schema.users ["username"]
                [VText "alice"] |}.

Definition one_user : database :=
  {[ "users" := {| tbl_rows := [alice]; tbl_seq := 1 |} ]}.

(** That database after a comment of its user on lead 7. *)
Definition commented : database :=
  snd (post_create "2026-11-03 10:00:00" "comments"
         (comment_body "leads" 7 (rowid alice) "hello" JNull) one_user).

(** ** The allow-list *)

Lemma valid_module_cases (P : string -> Prop) :
  P "leads" -> P "customers" -> P "opportunities" -> P "contracts" ->
  P "activities" ->
  forall m, In m validModules -> P m.
Proof.
  intros H1 H2 H3 H4 H5 m Hm.
  unfold validModules in Hm. simpl in Hm.
  repeat (destruct Hm as [<- | Hm]; [assumption |]).
  contradiction.
Qed.

Lemma includes_In (l : list string) (x : string) :
  includes l x = true <-> In x l.
Proof.
  unfold includes. rewrite existsb_exists. split.
  - intros [y [Hy Heq]]. apply String.eqb_eq in Heq. now subst.
  - intros H. exists x. split; [assumption | apply String.eqb_refl].
Qed.

(** The list route answers 404 outside the allow-list and prepares
    nothing. *)
Lemma get_list_invalid_module (now module : string) (qy : query) (db : database) :
  ~ In module validModules ->
  get_list now module qy db = (Json 404 (BError "Invalid module"), db).
Proof.
  intros H. unfold get_list.
  destruct (includes validModules module) eqn:E.
  - apply includes_In in E. contradiction.
  - reflexivity.
Qed.

Lemma one_lead_created :
  post_create "2026-11-03 09:00:00" "leads" [("name", JStr "Acme")] ∅
  = (Json 200 (BId 1), one_lead).
Proof. vm_compute. reflexivity. Qed.

(** C10: with an empty body the create route writes an INSERT whose column
    and value lists are empty; SQLite refuses it as a syntax error and the
    database is left as it was, for each of the five modules. *)
Theorem create_empty_body_rejected (now module : string) (db : database) :
  In module validModules ->
  create_sql module [] = "INSERT INTO " ++ module ++ " () VALUES ()"
  /\ post_create now module [] db = (Unhandled (SqliteError SyntaxError), db).
Proof.
  revert module. apply valid_module_cases; split; vm_compute; reflexivity.
Qed.

Lemma create_empty_body_rejected_witness :
  In "leads" validModules
  /\ create_sql "leads" [] = "INSERT INTO leads () VALUES ()"
  /\ post_create "2026-11-03 10:00:00" "leads" [] ∅
     = (Unhandled (SqliteError SyntaxError), ∅).
Proof.
  split; [simpl; tauto |].
  apply (create_empty_body_rejected "2026-11-03 10:00:00" "leads" ∅).
  simpl; tauto.
Defined.

(** ** Sorting *)

Section SortFacts.
Context {A : Type} (before : A -> A -> bool).

Lemma insert_sorted_perm (x : A) (l : list A) :
  Permutation (x :: l) (insert_sorted before x l).
Proof.
  induction l as [| y l IH]; simpl.
  - apply Permutation_refl.
  - destruct (before x y).
    + apply Permutation_refl.
    + eapply Permutation_trans; [apply perm_swap |].
      apply perm_skip. exact IH.
Qed.

Lemma sort_by_perm (l : list A) : Permutation l (sort_by before l).
Proof.
  induction l as [| x l IH]; simpl.
  - apply perm_nil.
  - eapply Permutation_trans; [| apply insert_sorted_perm].
    apply perm_skip. exact IH.
Qed.

Lemma sort_by_In (x : A) (l : list A) : In x (sort_by before l) <-> In x l.
Proof.
  split; apply Permutation_in;
    [apply Permutation_sym |]; apply sort_by_perm.
Qed.

(** Whichever way two elements compare, one may stand before the
    other. *)
Hypothesis before_total : forall x y, before x y = false -> before y x = true.

Let ordered (x y : A) : Prop := before x y = true.

Lemma insert_sorted_HdRel (a x : A) (l : list A) :
  before a x = true -> HdRel ordered a l ->
  HdRel ordered a (insert_sorted before x l).
Proof.
  intros Hax Hl. destruct l as [| y l]; simpl.
  - constructor. exact Hax.
  - destruct (before x y); constructor.
    + exact Hax.
    + inversion Hl; assumption.
Qed.

Lemma insert_sorted_Sorted (x : A) (l : list A) :
  Sorted ordered l -> Sorted ordered (insert_sorted before x l).
Proof.
  induction l as [| y l IH]; intros Hs; simpl.
  - repeat constructor.
  - destruct (before x y) eqn:E.
    + constructor; [exact Hs | constructor; exact E].
    + inversion Hs as [| ? ? Hs' Hhd]; subst.
      constructor; [apply IH; exact Hs' |].
      apply insert_sorted_HdRel; [apply before_total; exact E | exact Hhd].
Qed.

Lemma sort_by_Sorted (l : list A) : Sorted ordered (sort_by before l).
Proof.
  induction l as [| x l IH]; simpl.
  - constructor.
  - apply insert_sorted_Sorted. exact IH.
Qed.
End SortFacts.

(** ** Values and decimal text *)

Lemma value_compare_antisym (a b : value) :
  value_compare a b = CompOpp (value_compare b a).
Proof.
  destruct a, b; simpl; try reflexivity;
    try apply Z.compare_antisym; apply String.compare_antisym.
Qed.

Lemma order_before_total (c : string) (desc : bool) (x y : row) :
  order_before c desc x y = false -> order_before c desc y x = true.
Proof.
  unfold order_before. rewrite (value_compare_antisym (row_get y c)).
  destruct (value_compare (row_get x c) (row_get y c)), desc; simpl; congruence.
Qed.

Lemma int_of_text_of_int (n : Z) :
  in_int64 n = true -> int_of_text (text_of_int n) = Some n.
Proof.
  intros Hn. unfold int_of_text, text_of_int.
  rewrite NilZero.isi.
  - rewrite DecimalZ.of_to, Hn. reflexivity.
  - destruct n; simpl; try discriminate.
    intros [= H]. exact (DecimalPos.Unsigned.to_uint_nonnil _ H).
  - destruct n; simpl; try discriminate.
    intros [= H]. exact (DecimalPos.Unsigned.to_uint_nonnil _ H).
Qed.

(** The path parameter that spells the rowid [n] compares as [n]. *)
Lemma id_param_value (n : Z) :
  in_int64 n = true ->
  apply_affinity AffInteger (VText (text_of_int n)) = VInt n.
Proof.
  intros Hn. simpl. rewrite (int_of_text_of_int n Hn). reflexivity.
Qed.

Lemma sql_eq_id (r : row) (n : Z) :
  sql_eq (row_get r "id") (VInt n) = (rowid r =? n).
Proof. reflexivity. Qed.

(** ** UPDATE *)

Lemma find_all_false {A : Type} (f : A -> bool) (l : list A) :
  (forall x, In x l -> f x = false) -> List.find f l = None.
Proof.
  induction l as [| x l IH]; intros H; simpl.
  - reflexivity.
  - rewrite (H x (or_introl eq_refl)). apply IH.
    intros y Hy. apply H. right. exact Hy.
Qed.

Lemma assign_all_plain (d : table_def) (sets : list (string * value)) (r : row) :
  assigned sets "id" = false -> assign_all d r sets = Ok (set_cells d sets r).
Proof.
  revert r. induction sets as [| [c v] sets IH]; intros r H; simpl.
  - reflexivity.
  - unfold assigned in H. simpl in H. apply orb_false_iff in H as [Hc Hs].
    rewrite Hc. simpl. apply IH. exact Hs.
Qed.

Lemma update_rows_plain (d : table_def) (now : string) (w : option cond)
    (sets : list (string * value)) (rows : list row) :
  assigned sets "id" = false ->
  update_rows d now w sets rows = Ok (List.map (mark d now w sets) rows).
Proof.
  intros H. induction rows as [| r rows IH]; simpl.
  - reflexivity.
  - rewrite IH. unfold mark.
    destruct (eval_where d now w r); simpl.
    + rewrite (assign_all_plain d sets r H). reflexivity.
    + reflexivity.
Qed.

(** When no row satisfies the WHERE clause nothing is written, whatever
    the assignments. *)
Lemma update_rows_no_match (d : table_def) (now : string) (w : option cond)
    (sets : list (string * value)) (rows : list row) :
  (forall r, In r rows -> eval_where d now w r = false) ->
  update_rows d now w sets rows = Ok (List.map (fun r => (false, r)) rows).
Proof.
  induction rows as [| r rows IH]; intros H; simpl.
  - reflexivity.
  - rewrite (H r (or_introl eq_refl)). simpl.
    rewrite IH; [reflexivity |]. intros x Hx. apply H. right. exact Hx.
Qed.

Lemma filter_fst_unmarked (rows : list row) :
  List.filter fst (List.map (fun r : row => (false, r)) rows) = [].
Proof. induction rows; simpl; auto. Qed.

Lemma exec_update_no_match (sch : Sqlite.schema) (now : string) (d : table_def)
    (sets : list (string * expr)) (w : option cond) (db : database) :
  (forall r, In r (rows_of db (tbl_name d)) -> eval_where d now w r = false) ->
  exec_update sch now d sets w db
  = Ok ({| changes := 0; lastInsertRowid := None |}, db).
Proof.
  intros H. unfold exec_update.
  rewrite (update_rows_no_match d now w _ _ H). simpl.
  rewrite filter_fst_unmarked. reflexivity.
Qed.

Lemma marked_rows (d : table_def) (now : string) (w : option cond)
    (sets : list (string * value)) (rows : list row) :
  List.map snd (List.map (mark d now w sets) rows)
  = List.map (fun r => if eval_where d now w r then set_cells d sets r else r) rows.
Proof.
  rewrite List.map_map. apply List.map_ext. intros r. unfold mark.
  destruct (eval_where d now w r); reflexivity.
Qed.

Lemma touched_rows (d : table_def) (now : string) (w : option cond)
    (sets : list (string * value)) (rows : list row) :
  List.map snd (List.filter fst (List.map (mark d now w sets) rows))
  = List.map (set_cells d sets) (List.filter (eval_where d now w) rows).
Proof.
  induction rows as [| r rows IH]; simpl.
  - reflexivity.
  - assert (Hm : mark d now w sets r
                 = if eval_where d now w r
                   then (true, set_cells d sets r) else (false, r)) by reflexivity.
    rewrite Hm. destruct (eval_where d now w r); simpl; rewrite IH; reflexivity.
Qed.

(** An update that assigns neither [id], nor a UNIQUE column, nor a
    FOREIGN KEY column cannot fail: it rewrites the cells of the rows the
    WHERE clause selects and nothing else. *)
Lemma exec_update_plain (sch : Sqlite.schema) (now : string) (d : table_def)
    (sets : list (string * expr)) (w : option cond) (db : database) :
  let sets' := effective (List.map (fun p => (fst p, eval_expr now (snd p))) sets) in
  let t := get_table db (tbl_name d) in
  assigned sets' "id" = false ->
  (forall k, In k (tbl_cols d) -> assigned sets' (col_name k) = true ->
             col_unique k = false /\ col_ref k = None) ->
  exists info,
    exec_update sch now d sets w db
    = Ok (info,
          if existsb (eval_where d now w) (tbl_rows t)
          then <[tbl_name d :=
                   {| tbl_rows :=
                        List.map (fun r => if eval_where d now w r
                                           then set_cells d sets' r else r)
                          (tbl_rows t);
                      tbl_seq := tbl_seq t |}]> db
          else db).
Proof.
  intros sets' t Hid Hcols. unfold exec_update.
  fold sets'. fold t.
  rewrite (update_rows_plain d now w sets' (tbl_rows t) Hid). simpl.
  rewrite Hid. simpl.
  rewrite touched_rows, marked_rows.
  destruct (List.filter (eval_where d now w) (tbl_rows t)) as [| r0 rest] eqn:Ef.
  - simpl. eexists.
    replace (existsb (eval_where d now w) (tbl_rows t)) with false; [reflexivity |].
    symmetry. apply not_true_is_false. intros Hex.
    apply existsb_exists in Hex as [x [Hx Hw]].
    assert (In x (List.filter (eval_where d now w) (tbl_rows t)))
      by (apply List.filter_In; auto).
    rewrite Ef in H. contradiction.
  - assert (existsb (eval_where d now w) (tbl_rows t) = true) as ->.
    { apply existsb_exists. exists r0.
      assert (In r0 (List.filter (eval_where d now w) (tbl_rows t)))
        by (rewrite Ef; left; reflexivity).
      apply List.filter_In in H. exact H. }
    simpl List.map at 1.
    assert (Hset : forall k,
               In k (List.filter (fun k => assigned sets' (col_name k)) (tbl_cols d)) ->
               col_unique k = false /\ col_ref k = None).
    { intros k Hk. apply List.filter_In in Hk as [Hk Ha]. auto. }
    unfold first_violation. rewrite find_all_false.
    2:{ intros k Hk. destruct (Hset k Hk) as [-> _]. reflexivity. }
    simpl.
    assert (Hrow : forall db' r,
               row_fks_ok db'
                 (List.filter (fun k => assigned sets' (col_name k)) (tbl_cols d)) r
               = true).
    { intros db' r. unfold row_fks_ok. apply forallb_forall. intros k Hk.
      unfold fk_ok. destruct (Hset k Hk) as [_ ->]. reflexivity. }
    match goal with
    | |- context [forallb ?f ?l] =>
        assert (Hfk : forallb f l = true)
          by (apply forallb_forall; intros r _; apply Hrow)
    end.
    rewrite Hrow, Hfk. eexists. reflexivity.
Qed.

(** ** The statements the routes compile, module by module *)

Lemma resolve_table_valid (m : string) :
  In m validModules -> resolve_table schema m = Ok (def_of m).
Proof. revert m. apply valid_module_cases; vm_compute; reflexivity. Qed.

Lemma prepare_delete (m : string) :
  In m validModules ->
  prepare schema (delete_sql m)
  = Ok (SUpdate m delete_sets (Some (CEq "id" EParam))).
Proof. revert m. apply valid_module_cases; vm_compute; reflexivity. Qed.

Lemma prepare_restore (m : string) :
  In m validModules ->
  prepare schema (restore_sql m)
  = Ok (SUpdate m restore_sets (Some (CEq "id" EParam))).
Proof. revert m. apply valid_module_cases; vm_compute; reflexivity. Qed.

Lemma delete_soft_exec (now m id : string) (db : database) :
  In m validModules ->
  delete_soft now m id db
  = answer (exec_update schema now (def_of m) delete_sets (id_is id) db) db.
Proof.
  intros Hm. unfold delete_soft. rewrite (prepare_delete m Hm).
  cbn [bind run bind_stmt stmt_params delete_sets List.map snd sum_params
       List.fold_right expr_params where_params cond_params Nat.add bind_args
       to_value subst_stmt subst_exprs subst_expr subst_where subst_cond fst
       List.combine exec].
  rewrite (resolve_table_valid m Hm). reflexivity.
Qed.

Lemma post_restore_exec (now m id : string) (db : database) :
  In m validModules ->
  post_restore now m id db
  = answer (exec_update schema now (def_of m) restore_sets (id_is id) db) db.
Proof.
  intros Hm. unfold post_restore. rewrite (prepare_restore m Hm).
  cbn [bind run bind_stmt stmt_params restore_sets List.map snd sum_params
       List.fold_right expr_params where_params cond_params Nat.add bind_args
       to_value subst_stmt subst_exprs subst_expr subst_where subst_cond fst
       List.combine exec].
  rewrite (resolve_table_valid m Hm). reflexivity.
Qed.

Lemma def_of_name (m : string) : In m validModules -> tbl_name (def_of m) = m.
Proof. revert m. apply valid_module_cases; reflexivity. Qed.

Lemma def_of_id_affinity (m : string) :
  In m validModules -> col_affinity (def_of m) "id" = AffInteger.
Proof. revert m. apply valid_module_cases; reflexivity. Qed.

Lemma def_of_is_deleted_affinity (m : string) :
  In m validModules -> col_affinity (def_of m) "is_deleted" = AffInteger.
Proof. revert m. apply valid_module_cases; reflexivity. Qed.

Lemma def_of_names_nodup (m : string) :
  In m validModules ->
  NoDup ("id" :: List.map col_name (tbl_cols (def_of m))).
Proof.
  revert m.
  apply valid_module_cases; apply (bool_decide_unpack _); vm_compute; reflexivity.
Qed.

Lemma def_of_has_stamps (m : string) (c : string) :
  In m validModules ->
  In c ["created_at"; "updated_at"; "is_deleted"; "deleted_at"] ->
  In c (List.map col_name (tbl_cols (def_of m))).
Proof.
  intros Hm Hc. revert m Hm.
  apply valid_module_cases; simpl in Hc |- *; intuition (subst; auto 20).
Qed.

(** ** Rows as objects *)

Lemma row_object_lookup (d : table_def) (r : row) (c : string) :
  NoDup ("id" :: List.map col_name (tbl_cols d)) ->
  In c (List.map col_name (tbl_cols d)) ->
  row_object d r !! c = Some (row_get r c).
Proof.
  intros Hnd Hc. unfold row_object.
  apply elem_of_list_to_map_1.
  - simpl. rewrite List.map_map. simpl. exact Hnd.
  - apply list_elem_of_In. right.
    apply List.in_map_iff in Hc as [k [<- Hk]].
    apply List.in_map_iff. exists k. split; [reflexivity | exact Hk].
Qed.

(** ** The list route *)

Lemma list_sql_plain (m : string) (o d : option string) :
  In m validModules ->
  let qy := {| q := None; status := None; owner_id := o; is_deleted := d |} in
  prepare schema (fst (list_sql m qy))
  = Ok (SSelect m (Some (CEq "is_deleted" EParam)) newest)
  /\ snd (list_sql m qy)
     = [match d with Some s => JStr s | None => JNum 0 end].
Proof.
  revert m. apply valid_module_cases; split; vm_compute; reflexivity.
Qed.

Lemma get_list_plain (now m : string) (o d : option string) (db : database) :
  In m validModules ->
  get_list now m {| q := None; status := None; owner_id := o; is_deleted := d |} db
  = (Json 200
       (BRows
          (List.map (row_object (def_of m))
             (select_rows (def_of m) now
                (Some (CEq "is_deleted" (ELit (is_deleted_param d)))) newest
                (get_table db m)))),
     db).
Proof.
  intros Hm. unfold get_list.
  assert (includes validModules m = true) as -> by (apply includes_In; exact Hm).
  destruct (list_sql_plain m o d Hm) as [Hsql Hargs].
  destruct (list_sql m _) as [sql args]. simpl in Hsql, Hargs. subst args.
  cbn [negb]. rewrite Hsql.
  destruct d as [s |];
    cbv [all bind_stmt stmt_params where_params cond_params expr_params
         Sqlite.bind bind_args to_value subst_stmt subst_where subst_cond
         subst_expr fst];
    rewrite (resolve_table_valid m Hm); reflexivity.
Qed.

Lemma listed_rows (now m : string) (v : value) (db : database)
    (o : gmap string value) :
  In m validModules ->
  In o (List.map (row_object (def_of m))
          (select_rows (def_of m) now (Some (CEq "is_deleted" (ELit v))) newest
             (get_table db m))) ->
  exists x,
    o !! "is_deleted" = Some x
    /\ sql_eq x (apply_affinity AffInteger v) = true.
Proof.
  intros Hm Ho. apply List.in_map_iff in Ho as [r [<- Hr]].
  unfold select_rows, newest, order_rows in Hr.
  apply sort_by_In in Hr. apply List.filter_In in Hr as [_ Hw].
  simpl in Hw. rewrite (def_of_is_deleted_affinity m Hm) in Hw.
  exists (row_get r "is_deleted"). split; [| exact Hw].
  apply row_object_lookup.
  - apply def_of_names_nodup. exact Hm.
  - apply def_of_has_stamps; [exact Hm | simpl; auto].
Qed.

Lemma sql_eq_zero_flag (x : value) : sql_eq x (VInt 0) = true -> flag_set x = false.
Proof.
  destruct x; simpl; try discriminate; intros H;
    apply Z.eqb_eq in H; subst; reflexivity.
Qed.

Lemma sql_eq_one_flag (x : value) : sql_eq x (VInt 1) = true -> flag_set x = true.
Proof.
  destruct x; simpl; try discriminate; intros H;
    apply Z.eqb_eq in H; subst; reflexivity.
Qed.

Lemma sql_eq_text_flag (x : value) (s : string) :
  s <> "" -> sql_eq x (VText s) = true -> flag_set x = true.
Proof.
  intros Hs. destruct x; simpl; try discriminate. intros H.
  apply String.eqb_eq in H. subst. apply negb_true_iff.
  apply String.eqb_neq. exact Hs.
Qed.

(** C4: on each of the five modules the list route without filters
    answers rows whose [is_deleted] is 0, never a deleted one; asked for
    [is_deleted] 1 (what soft delete writes) or [true] it answers only
    rows whose flag is set. *)
Theorem list_respects_is_deleted (now m : string) (db : database) :
  In m validModules ->
  (exists rows,
      get_list now m no_filters db = (Json 200 (BRows rows), db)
      /\ forall o, In o rows ->
           exists x, o !! "is_deleted" = Some x /\ flag_set x = false)
  /\ (forall s, In s ["1"; "true"] ->
      exists rows,
        get_list now m (only_is_deleted s) db = (Json 200 (BRows rows), db)
        /\ forall o, In o rows ->
             exists x, o !! "is_deleted" = Some x /\ flag_set x = true).
Proof.
  intros Hm. split.
  - eexists. split; [apply (get_list_plain now m None None db Hm) |].
    intros o Ho. destruct (listed_rows now m _ db o Hm Ho) as [x [Hx He]].
    exists x. split; [exact Hx |]. apply sql_eq_zero_flag. exact He.
  - intros s Hs. eexists.
    split; [apply (get_list_plain now m None (Some s) db Hm) |].
    intros o Ho. destruct (listed_rows now m _ db o Hm Ho) as [x [Hx He]].
    exists x. split; [exact Hx |].
    simpl in Hs. destruct Hs as [<- | [<- | []]].
    + apply sql_eq_one_flag. exact He.
    + apply (sql_eq_text_flag x "true"); [discriminate | exact He].
Qed.

Lemma list_respects_is_deleted_witness :
  In "leads" validModules
  /\ (exists rows,
         get_list "2026-11-03 10:00:00" "leads" no_filters ∅
         = (Json 200 (BRows rows), ∅)
         /\ forall o, In o rows ->
              exists x, o !! "is_deleted" = Some x /\ flag_set x = false)
  /\ (forall s, In s ["1"; "true"] ->
      exists rows,
        get_list "2026-11-03 10:00:00" "leads" (only_is_deleted s) ∅
        = (Json 200 (BRows rows), ∅)
        /\ forall o, In o rows ->
             exists x, o !! "is_deleted" = Some x /\ flag_set x = true).
Proof.
  split; [simpl; tauto |].
  apply (list_respects_is_deleted "2026-11-03 10:00:00" "leads" ∅).
  simpl; tauto.
Defined.

(** ** Soft delete, restore and update of one row *)

Lemma eval_where_id (m now id : string) (r : row) :
  In m validModules ->
  eval_where (def_of m) now (id_is id) r = id_matches id r.
Proof.
  intros Hm. unfold id_is, id_matches. simpl.
  rewrite (def_of_id_affinity m Hm). reflexivity.
Qed.

Lemma id_matches_rowid (n : Z) (r : row) :
  in_int64 n = true -> id_matches (text_of_int n) r = (rowid r =? n).
Proof.
  intros Hn. unfold id_matches. rewrite (id_param_value n Hn). reflexivity.
Qed.

Lemma rows_of_rewrite (f : row -> row) (id m : string) (db : database) :
  rows_of (rewrite_rows f id m db) m
  = List.map (fun r => if id_matches id r then f r else r) (rows_of db m).
Proof.
  unfold rewrite_rows, rows_of.
  destruct (existsb (id_matches id) (tbl_rows (get_table db m))) eqn:E.
  - unfold get_table at 1. rewrite lookup_insert_eq. reflexivity.
  - symmetry. erewrite List.map_ext_in; [apply List.map_id |].
    intros r Hr. simpl.
    destruct (id_matches id r) eqn:Er; [| reflexivity].
    assert (existsb (id_matches id) (tbl_rows (get_table db m)) = true)
      by (apply existsb_exists; eauto).
    congruence.
Qed.

Lemma existsb_ext {A : Type} (f g : A -> bool) (l : list A) :
  (forall x, f x = g x) -> existsb f l = existsb g l.
Proof.
  intros H. induction l as [| x l IH]; simpl; [reflexivity |].
  rewrite H, IH. reflexivity.
Qed.

(** An UPDATE of a module table through [WHERE id = ?] that assigns only
    plain columns answers success and rewrites the selected rows. *)
Lemma update_by_id (now m id : string) (sets : list (string * expr))
    (db : database) :
  In m validModules ->
  let sets' := effective (List.map (fun p => (fst p, eval_expr now (snd p))) sets) in
  assigned sets' "id" = false ->
  (forall k, In k (tbl_cols (def_of m)) -> assigned sets' (col_name k) = true ->
             col_unique k = false /\ col_ref k = None) ->
  answer (exec_update schema now (def_of m) sets (id_is id) db) db
  = (Json 200 BSuccess, rewrite_rows (set_cells (def_of m) sets') id m db).
Proof.
  intros Hm sets' Hid Hcols.
  destruct (exec_update_plain schema now (def_of m) sets (id_is id) db Hid Hcols)
    as [info ->].
  unfold answer, rewrite_rows. rewrite (def_of_name m Hm).
  assert (Hw : forall r, eval_where (def_of m) now (id_is id) r = id_matches id r)
    by (intros r; apply eval_where_id; exact Hm).
  rewrite (existsb_ext _ _ _ Hw).
  destruct (existsb (id_matches id) (tbl_rows (get_table db m))); [| reflexivity].
  do 3 f_equal. apply List.map_ext. intros r. rewrite Hw. reflexivity.
Qed.

(** Case analysis on a module of the allow-list. *)
Ltac each_module m Hm :=
  revert m Hm;
  match goal with
  | |- forall x, In x validModules -> @?P x => apply (valid_module_cases P)
  end.

(** Decides, column by column of a concrete table, that the assigned
    ones are unconstrained. *)
Ltac plain_columns :=
  let k := fresh "k" in
  let Hk := fresh "Hk" in
  let Ha := fresh "Ha" in
  intros k Hk Ha; vm_compute in Hk;
  repeat (destruct Hk as [<- | Hk];
          [first [vm_compute in Ha; discriminate Ha | split; reflexivity] |]);
  contradiction.

Lemma delete_soft_spec (now m id : string) (db : database) :
  In m validModules ->
  delete_soft now m id db
  = (Json 200 BSuccess,
     rewrite_rows
       (set_cells (def_of m) [("is_deleted", VInt 1); ("deleted_at", VText now)])
       id m db).
Proof.
  intros Hm. rewrite (delete_soft_exec now m id db Hm).
  apply (update_by_id now m id delete_sets db Hm); [reflexivity |].
  each_module m Hm; plain_columns.
Qed.

Lemma post_restore_spec (now m id : string) (db : database) :
  In m validModules ->
  post_restore now m id db
  = (Json 200 BSuccess,
     rewrite_rows
       (set_cells (def_of m) [("is_deleted", VInt 0); ("deleted_at", VNull)])
       id m db).
Proof.
  intros Hm. rewrite (post_restore_exec now m id db Hm).
  apply (update_by_id now m id restore_sets db Hm); [reflexivity |].
  each_module m Hm; plain_columns.
Qed.

Lemma set_cells_rowid (d : table_def) (sets : list (string * value)) (r : row) :
  rowid (set_cells d sets r) = rowid r.
Proof.
  unfold set_cells. revert r.
  induction sets as [| a sets IH]; intros r; simpl; [reflexivity |].
  rewrite IH. reflexivity.
Qed.

Lemma row_get_set_cell_other (d : table_def) (a : string * value) (r : row)
    (c : string) :
  c <> fst a -> row_get (set_cell d r a) c = row_get r c.
Proof.
  intros Hc. unfold row_get, set_cell. simpl.
  destruct (String.eqb c "id"); [reflexivity |].
  rewrite lookup_insert_ne by congruence. reflexivity.
Qed.

Lemma row_get_set_cell_same (d : table_def) (a : string * value) (r : row) :
  fst a <> "id" ->
  row_get (set_cell d r a) (fst a)
  = apply_affinity (col_affinity d (fst a)) (snd a).
Proof.
  intros Hc. unfold row_get, set_cell. simpl.
  apply String.eqb_neq in Hc. rewrite Hc.
  rewrite lookup_insert_eq. reflexivity.
Qed.

(** Cells that are not assigned keep their value. *)
Lemma row_get_set_cells_other (d : table_def) (sets : list (string * value))
    (r : row) (c : string) :
  ~ In c (List.map fst sets) -> row_get (set_cells d sets r) c = row_get r c.
Proof.
  unfold set_cells. revert r.
  induction sets as [| a sets IH]; intros r Hc; simpl; [reflexivity |].
  simpl in Hc. rewrite IH by tauto.
  apply row_get_set_cell_other. intros ->. tauto.
Qed.

(** Of two assignments the second column reads its own value, the first
    keeps the one written first. *)
Lemma row_get_set_cells_2 (d : table_def) (c1 c2 : string) (v1 v2 : value)
    (r : row) :
  c1 <> "id" -> c2 <> "id" -> c1 <> c2 ->
  row_get (set_cells d [(c1, v1); (c2, v2)] r) c1
  = apply_affinity (col_affinity d c1) v1
  /\ row_get (set_cells d [(c1, v1); (c2, v2)] r) c2
     = apply_affinity (col_affinity d c2) v2.
Proof.
  intros H1 H2 H12. unfold set_cells. simpl. split.
  - rewrite row_get_set_cell_other by (simpl; congruence).
    apply (row_get_set_cell_same d (c1, v1) r H1).
  - apply (row_get_set_cell_same d (c2, v2) _ H2).
Qed.

Lemma apply_affinity_null (a : affinity) : apply_affinity a VNull = VNull.
Proof. destruct a; reflexivity. Qed.

Lemma listed_default (now m : string) (db : database) (r : row) :
  In m validModules ->
  In r (rows_of db m) ->
  row_get r "is_deleted" = VInt 0 ->
  exists rows,
    get_list now m no_filters db = (Json 200 (BRows rows), db)
    /\ In (row_object (def_of m) r) rows.
Proof.
  intros Hm Hr H0. eexists.
  split; [apply (get_list_plain now m None None db Hm) |].
  apply List.in_map. unfold select_rows, newest, order_rows.
  apply sort_by_In. apply List.filter_In. split; [exact Hr |].
  simpl. rewrite (def_of_is_deleted_affinity m Hm), H0. reflexivity.
Qed.

(** C5: for a row of one of the five modules, soft delete followed by
    restore (both addressed by the row's id) both answer success and leave
    a row with the same id and the same value in every column other than
    [is_deleted] and [deleted_at], which are 0 and NULL; the default
    listing of the module contains that row. *)
Theorem soft_delete_then_restore (t1 t2 t3 m : string) (db : database) (r : row) :
  In m validModules ->
  In r (rows_of db m) ->
  in_int64 (rowid r) = true ->
  let id := text_of_int (rowid r) in
  let deleted := delete_soft t1 m id db in
  let restored := post_restore t2 m id (snd deleted) in
  fst deleted = Json 200 BSuccess
  /\ fst restored = Json 200 BSuccess
  /\ exists r',
       In r' (rows_of (snd restored) m)
       /\ rowid r' = rowid r
       /\ (forall c, c <> "is_deleted" -> c <> "deleted_at" ->
                     row_get r' c = row_get r c)
       /\ row_get r' "is_deleted" = VInt 0
       /\ row_get r' "deleted_at" = VNull
       /\ exists rows,
            get_list t3 m no_filters (snd restored)
            = (Json 200 (BRows rows), snd restored)
            /\ In (row_object (def_of m) r') rows.
Proof.
  intros Hm Hr H64 id deleted restored.
  subst deleted restored.
  rewrite (delete_soft_spec t1 m id db Hm).
  cbn [fst snd]. rewrite (post_restore_spec t2 m id _ Hm). cbn [fst snd].
  split; [reflexivity |]. split; [reflexivity |].
  set (del := set_cells (def_of m) [("is_deleted", VInt 1); ("deleted_at", VText t1)]).
  set (res := set_cells (def_of m) [("is_deleted", VInt 0); ("deleted_at", VNull)]).
  assert (Hid : forall x, rowid x = rowid r -> id_matches id x = true).
  { intros x Hx. subst id. rewrite (id_matches_rowid _ x H64).
    apply Z.eqb_eq. exact Hx. }
  assert (Hin : In (res (del r)) (rows_of (rewrite_rows res id m (rewrite_rows del id m db)) m)).
  { rewrite rows_of_rewrite. apply List.in_map_iff. exists (del r). split.
    - rewrite Hid; [reflexivity |]. apply set_cells_rowid.
    - rewrite rows_of_rewrite. apply List.in_map_iff. exists r. split.
      + rewrite Hid; reflexivity.
      + exact Hr. }
  assert (H0 : row_get (res (del r)) "is_deleted" = VInt 0
               /\ row_get (res (del r)) "deleted_at" = VNull).
  { subst res.
    destruct (row_get_set_cells_2 (def_of m) "is_deleted" "deleted_at"
                (VInt 0) VNull (del r)) as [Ha Hb]; try discriminate.
    rewrite Ha, Hb, (def_of_is_deleted_affinity m Hm), apply_affinity_null.
    split; reflexivity. }
  exists (res (del r)). split; [exact Hin |].
  split; [subst res del; rewrite !set_cells_rowid; reflexivity |].
  split.
  { intros c Hc1 Hc2. subst res del.
    rewrite !row_get_set_cells_other; [reflexivity | |]; simpl; intuition congruence. }
  split; [apply H0 |]. split; [apply H0 |].
  apply listed_default; [exact Hm | exact Hin | apply H0].
Qed.

Lemma soft_delete_then_restore_witness :
  In "leads" validModules
  /\ In acme (rows_of one_lead "leads")
  /\ in_int64 (rowid acme) = true
  /\ let deleted := delete_soft "2026-11-03 10:00:00" "leads" "1" one_lead in
     let restored := post_restore "2026-11-03 10:05:00" "leads" "1" (snd deleted) in
     fst deleted = Json 200 BSuccess
     /\ fst restored = Json 200 BSuccess
     /\ exists r',
          In r' (rows_of (snd restored) "leads")
          /\ rowid r' = rowid acme
          /\ (forall c, c <> "is_deleted" -> c <> "deleted_at" ->
                        row_get r' c = row_get acme c)
          /\ row_get r' "is_deleted" = VInt 0
          /\ row_get r' "deleted_at" = VNull
          /\ exists rows,
               get_list "2026-11-03 10:06:00" "leads" no_filters (snd restored)
               = (Json 200 (BRows rows), snd restored)
               /\ In (row_object (def_of "leads") r') rows.
Proof.
  split; [simpl; tauto |].
  split; [vm_compute; left; reflexivity |].
  split; [reflexivity |].
  apply (soft_delete_then_restore "2026-11-03 10:00:00" "2026-11-03 10:05:00"
           "2026-11-03 10:06:00" "leads" one_lead acme).
  - simpl; tauto.
  - vm_compute; left; reflexivity.
  - reflexivity.
Defined.

(** ** Update of the status alone *)

Lemma status_module_valid (m : string) : In m statusModules -> In m validModules.
Proof. unfold statusModules, validModules. simpl. intuition. Qed.

Lemma valid_module_status (m : string) :
  In m validModules -> m = "opportunities" \/ In m statusModules.
Proof. unfold statusModules, validModules. simpl. intuition. Qed.

Lemma prepare_update_status (m : string) :
  In m statusModules ->
  prepare schema (update_sql m ["status"])
  = Ok (SUpdate m (status_sets EParam) (Some (CEq "id" EParam))).
Proof.
  unfold statusModules. simpl.
  intros [<- | [<- | [<- | [<- | []]]]]; vm_compute; reflexivity.
Qed.

Lemma prepare_update_status_opportunities :
  prepare schema (update_sql "opportunities" ["status"])
  = Err (SqliteError (NoSuchColumn "status")).
Proof. vm_compute. reflexivity. Qed.

Lemma put_status_exec (now m id : string) (v : jsval) (db : database) :
  In m statusModules ->
  put_update now m id [("status", v)] db
  = match to_value v with
    | Some x =>
        answer (exec_update schema now (def_of m) (status_sets (ELit x)) (id_is id) db) db
    | None => (Unhandled cannot_bind, db)
    end.
Proof.
  intros Hm. unfold put_update.
  cbn [List.map fst snd List.app]. rewrite (prepare_update_status m Hm).
  cbv [run bind_stmt stmt_params status_sets List.map snd sum_params
       List.fold_right expr_params where_params cond_params Nat.add
       Sqlite.bind bind_args].
  destruct (to_value v) as [x |]; [| reflexivity].
  cbv [to_value subst_stmt subst_exprs subst_expr subst_where subst_cond fst snd
       List.map List.combine exec Sqlite.bind].
  rewrite (resolve_table_valid m (status_module_valid m Hm)). reflexivity.
Qed.

Lemma put_status_spec (now m id : string) (v : jsval) (x : value) (db : database) :
  In m statusModules ->
  to_value v = Some x ->
  put_update now m id [("status", v)] db
  = (Json 200 BSuccess,
     rewrite_rows
       (set_cells (def_of m) [("status", x); ("updated_at", VText now)]) id m db).
Proof.
  intros Hs Hv. rewrite (put_status_exec now m id v db Hs), Hv.
  pose proof (status_module_valid m Hs) as Hm.
  apply (update_by_id now m id (status_sets (ELit x)) db Hm); [reflexivity |].
  clear Hm. revert m Hs. unfold statusModules. simpl.
  intros m [<- | [<- | [<- | [<- | []]]]]; plain_columns.
Qed.

(** When the status update does not go through, nothing is written. *)
Lemma put_status_refused (now m id : string) (v : jsval) (db : database) :
  In m validModules ->
  m = "opportunities" \/ to_value v = None ->
  exists e, put_update now m id [("status", v)] db = (Unhandled e, db).
Proof.
  intros Hm Hc.
  destruct (valid_module_status m Hm) as [-> | Hs].
  - eexists. unfold put_update. cbn [List.map fst snd].
    rewrite prepare_update_status_opportunities. reflexivity.
  - destruct Hc as [-> | Hv].
    + revert Hs. unfold statusModules. simpl. intuition discriminate.
    + eexists. rewrite (put_status_exec now m id v db Hs), Hv. reflexivity.
Qed.

Lemma rows_of_rewrite_other (f : row -> row) (id m t : string) (db : database) :
  t <> m -> rows_of (rewrite_rows f id m db) t = rows_of db t.
Proof.
  intros Ht. unfold rewrite_rows, rows_of.
  destruct (existsb (id_matches id) (tbl_rows (get_table db m))); [| reflexivity].
  unfold get_table. rewrite lookup_insert_ne by congruence. reflexivity.
Qed.

Lemma def_of_updated_at_affinity (m : string) :
  In m validModules -> col_affinity (def_of m) "updated_at" = AffNumeric.
Proof. revert m. apply valid_module_cases; reflexivity. Qed.

Lemma def_of_status_affinity (m : string) :
  In m statusModules -> col_affinity (def_of m) "status" = AffText.
Proof.
  unfold statusModules. simpl.
  intros [<- | [<- | [<- | [<- | []]]]]; reflexivity.
Qed.

(** C7: for a row of one of the five modules, the update route with the
    one key [status] leaves a row of the same id whose every column other
    than [status] and [updated_at] holds its prior value, and leaves every
    other row and every other table as they were.  When the route answers
    success, [updated_at] holds the current time and [status] the text
    (or null) that was sent.  It answers success on every module with a
    [status] column for every value that can be bound. *)
Theorem update_status_only (now m : string) (v : jsval) (db : database)
    (r : row) :
  In m validModules ->
  In r (rows_of db m) ->
  in_int64 (rowid r) = true ->
  let out := put_update now m (text_of_int (rowid r)) [("status", v)] db in
  (exists r',
      In r' (rows_of (snd out) m)
      /\ rowid r' = rowid r
      /\ (forall c, c <> "status" -> c <> "updated_at" ->
                    row_get r' c = row_get r c)
      /\ (fst out = Json 200 BSuccess ->
          row_get r' "updated_at" = timestamp now
          /\ match v with
             | JStr s => row_get r' "status" = VText s
             | JNull => row_get r' "status" = VNull
             | _ => True
             end))
  /\ (forall x, In x (rows_of db m) -> rowid x <> rowid r ->
                In x (rows_of (snd out) m))
  /\ (forall t, t <> m -> rows_of (snd out) t = rows_of db t)
  /\ (In m statusModules -> to_value v <> None -> fst out = Json 200 BSuccess).
Proof.
  intros Hm Hr H64 out. subst out.
  set (id := text_of_int (rowid r)).
  destruct (valid_module_status m Hm) as [Hopp | Hs];
    [| destruct (to_value v) as [x |] eqn:Hv].
  - (* no status column: the statement does not compile *)
    destruct (put_status_refused now m id v db Hm (or_introl Hopp)) as [e ->].
    cbn [fst snd]. split; [| split; [| split]].
    + exists r. repeat split; try assumption; try reflexivity; discriminate.
    + auto.
    + auto.
    + subst m. unfold statusModules. simpl. intuition discriminate.
  - (* the update runs *)
    rewrite (put_status_spec now m id v x db Hs Hv). cbn [fst snd].
    set (upd := set_cells (def_of m) [("status", x); ("updated_at", VText now)]).
    assert (Hid : forall y, id_matches id y = (rowid y =? rowid r))
      by (intros y; apply id_matches_rowid; exact H64).
    split; [| split; [| split]].
    + exists (upd r). split; [| split; [| split]].
      * rewrite rows_of_rewrite. apply List.in_map_iff. exists r.
        rewrite Hid, Z.eqb_refl. auto.
      * apply set_cells_rowid.
      * intros c Hc1 Hc2. apply row_get_set_cells_other.
        simpl. intuition congruence.
      * intros _.
        destruct (row_get_set_cells_2 (def_of m) "status" "updated_at"
                    x (VText now) r) as [Ha Hb]; try discriminate.
        fold upd in Ha, Hb.
        rewrite Ha, Hb, (def_of_status_affinity m Hs),
          (def_of_updated_at_affinity m Hm).
        split; [reflexivity |].
        destruct v; simpl in Hv; try exact I; injection Hv as <-; reflexivity.
    + intros y Hy Hne. rewrite rows_of_rewrite. apply List.in_map_iff.
      exists y. rewrite Hid. apply Z.eqb_neq in Hne. rewrite Hne. auto.
    + intros t Ht. apply rows_of_rewrite_other. exact Ht.
    + reflexivity.
  - (* a value that cannot be bound *)
    destruct (put_status_refused now m id v db Hm (or_intror Hv)) as [e ->].
    cbn [fst snd]. split; [| split; [| split]].
    + exists r. repeat split; try assumption; try reflexivity; discriminate.
    + auto.
    + auto.
    + intros _ H. congruence.
Qed.

Lemma update_status_only_witness :
  In "leads" validModules
  /\ In acme (rows_of one_lead "leads")
  /\ in_int64 (rowid acme) = true
  /\ let out := put_update "2026-11-03 10:00:00" "leads" (text_of_int (rowid acme))
                  [("status", JStr "跟进中")] one_lead in
     (exists r',
         In r' (rows_of (snd out) "leads")
         /\ rowid r' = rowid acme
         /\ (forall c, c <> "status" -> c <> "updated_at" ->
                       row_get r' c = row_get acme c)
         /\ (fst out = Json 200 BSuccess ->
             row_get r' "updated_at" = timestamp "2026-11-03 10:00:00"
             /\ row_get r' "status" = VText "跟进中"))
     /\ (forall x, In x (rows_of one_lead "leads") -> rowid x <> rowid acme ->
                   In x (rows_of (snd out) "leads"))
     /\ (forall t, t <> "leads" -> rows_of (snd out) t = rows_of one_lead t)
     /\ (In "leads" statusModules -> to_value (JStr "跟进中") <> None ->
         fst out = Json 200 BSuccess).
Proof.
  split; [simpl; tauto |].
  split; [vm_compute; left; reflexivity |].
  split; [reflexivity |].
  apply (update_status_only "2026-11-03 10:00:00" "leads" (JStr "跟进中")
           one_lead acme).
  - simpl; tauto.
  - vm_compute; left; reflexivity.
  - reflexivity.
Defined.

(** ** INSERT and the seed block *)

Lemma bind_ok {A B : Type} (r : result A) (k : A -> result B) (b : B) :
  Sqlite.bind r k = Ok b -> exists a, r = Ok a /\ k a = Ok b.
Proof. destruct r as [a | e]; simpl; [eauto | discriminate]. Qed.

Lemma insert_sorted_length {A : Type} (f : A -> A -> bool) (x : A) (l : list A) :
  List.length (insert_sorted f x l) = S (List.length l).
Proof.
  induction l as [| y l IH]; simpl; [reflexivity |].
  destruct (f x y); simpl; [reflexivity | rewrite IH; reflexivity].
Qed.

(** A successful INSERT adds one row to its table and leaves the other
    tables alone. *)
Lemma exec_insert_count (now : string) (d : table_def) (cols : list string)
    (vals : list value) (db db' : database) (info : run_info) :
  exec_insert now d cols vals db = Ok (info, db') ->
  forall t,
    count db' t
    = if String.eqb t (tbl_name d) then S (count db t) else count db t.
Proof.
  unfold exec_insert. intros H t.
  apply bind_ok in H as [id [_ H]].
  destruct (existsb (Z.eqb id) (ids (get_table db (tbl_name d)))); [discriminate |].
  destruct (first_violation _ _); [discriminate |].
  destruct (row_fks_ok _ _ _); [| discriminate].
  injection H as _ <-. unfold count, rows_of, get_table.
  destruct (String.eqb_spec t (tbl_name d)) as [-> | Hne].
  - rewrite lookup_insert_eq. simpl. apply insert_sorted_length.
  - rewrite lookup_insert_ne by congruence. reflexivity.
Qed.

Lemma run_db_insert_count (now t : string) (cols : list string)
    (vals : list expr) (args : list jsval) (db db' : database) :
  option_map tbl_name (find_table schema t) = Some t ->
  run_db now (SInsert t cols vals) args db = Ok db' ->
  forall t',
    count db' t' = if String.eqb t' t then S (count db t') else count db t'.
Proof.
  intros Hd H. unfold run_db, run in H.
  apply bind_ok in H as [[info db1] [H Heq]]. injection Heq as <-.
  apply bind_ok in H as [b [Hb H]].
  unfold bind_stmt in Hb. apply bind_ok in Hb as [vs [_ Hb]].
  injection Hb as <-. cbn [subst_stmt exec] in H.
  unfold resolve_table in H.
  destruct (find_table schema t) as [d |]; [| discriminate].
  injection Hd as Hd. cbn [Sqlite.bind] in H.
  subst t. eapply exec_insert_count. exact H.
Qed.

Lemma prepare_insertRole :
  prepare schema insertRole_sql
  = Ok (SInsert "roles" ["name"; "level"; "permissions"] [EParam; EParam; EParam]).
Proof. vm_compute. reflexivity. Qed.

Lemma prepare_insertUser :
  prepare schema insertUser_sql
  = Ok (SInsert "users" ["username"; "password"; "role_id"; "department"]
          [EParam; EParam; EParam; EParam]).
Proof. vm_compute. reflexivity. Qed.

Lemma prepare_insertLead :
  prepare schema insertLead_sql
  = Ok (SInsert "leads"
          ["name"; "contact_person"; "phone"; "email"; "source"; "level";
           "status"; "owner_id"]
          [EParam; EParam; EParam; EParam; EParam; EParam; EParam; EParam]).
Proof. vm_compute. reflexivity. Qed.

Lemma prepare_insertCustomer :
  prepare schema insertCustomer_sql
  = Ok (SInsert "customers"
          ["name"; "type"; "industry"; "contact_person"; "phone"; "address";
           "level"; "status"; "owner_id"]
          [EParam; EParam; EParam; EParam; EParam; EParam; EParam; EParam; EParam]).
Proof. vm_compute. reflexivity. Qed.

Lemma prepare_insertOpportunity :
  prepare schema insertOpportunity_sql
  = Ok (SInsert "opportunities"
          ["name"; "customer_id"; "stage"; "probability"; "amount";
           "expected_date"; "owner_id"]
          [EParam; EParam; EParam; EParam; EParam; EParam; EParam]).
Proof. vm_compute. reflexivity. Qed.

(** One step of the seed block: a statement that ran, with the row
    counts it leaves. *)
Ltac seed_step H E :=
  let db1 := fresh "db" in
  let E' := fresh "E" in
  apply bind_ok in H as [db1 [E' H]];
  pose proof (fun Hd => run_db_insert_count _ _ _ _ _ _ _ Hd E') as E;
  specialize (E eq_refl); clear E'.

Ltac seed_prepare H lem :=
  let st := fresh "st" in
  let E := fresh "E" in
  apply bind_ok in H as [st [E H]];
  rewrite lem in E; injection E as <-.

(** The seed block, when it completes, has added four roles, one user,
    two leads, one customer and one opportunity. *)
Lemma seed_rows_counts (clock : nat -> string) (db db' : database) :
  seed_rows clock db = Ok db' ->
  forall t,
    count db' t
    = (count db t
       + (if String.eqb t "roles" then 4
          else if String.eqb t "users" then 1
          else if String.eqb t "leads" then 2
          else if String.eqb t "customers" then 1
          else if String.eqb t "opportunities" then 1
          else 0))%nat.
Proof.
  intros H t. unfold seed_rows in H.
  seed_prepare H prepare_insertRole.
  seed_step H E1. seed_step H E2. seed_step H E3. seed_step H E4.
  apply bind_ok in H as [admin [_ H]].
  seed_prepare H prepare_insertUser.
  seed_step H E5.
  seed_prepare H prepare_insertLead.
  seed_step H E6. seed_step H E7.
  seed_prepare H prepare_insertCustomer.
  seed_step H E8.
  seed_prepare H prepare_insertOpportunity.
  pose proof (fun Hd => run_db_insert_count _ _ _ _ _ _ _ Hd H) as E9.
  specialize (E9 eq_refl).
  rewrite (E9 t), (E8 t), (E7 t), (E6 t), (E5 t), (E4 t), (E3 t), (E2 t), (E1 t).
  destruct (String.eqb_spec t "roles") as [-> | _]; [simpl; lia |].
  destruct (String.eqb_spec t "users") as [-> | _]; [simpl; lia |].
  destruct (String.eqb_spec t "leads") as [-> | _]; [simpl; lia |].
  destruct (String.eqb_spec t "customers") as [-> | _]; [simpl; lia |].
  destruct (String.eqb_spec t "opportunities") as [-> | _]; [simpl; lia |].
  lia.
Qed.

(** C9: the seed block leaves a database whose [roles] table is not empty
    exactly as it is; on one whose [roles] table is empty it runs the seed
    statements, which add four roles, one user, two leads, one customer
    and one opportunity and nothing else.  On the fresh database it
    completes, and every later start leaves the seeded database as it
    is. *)
Theorem seed_only_when_roles_empty (clock : nat -> string) (db : database) :
  (roleCount db <> 0%nat -> seed clock db = Ok db)
  /\ (roleCount db = 0%nat ->
      seed clock db = seed_rows clock db
      /\ forall db', seed clock db = Ok db' ->
           count db' "roles" = 4%nat
           /\ count db' "users" = S (count db "users")
           /\ count db' "leads" = S (S (count db "leads"))
           /\ count db' "customers" = S (count db "customers")
           /\ count db' "opportunities" = S (count db "opportunities")
           /\ count db' "contracts" = count db "contracts"
           /\ count db' "activities" = count db "activities"
           /\ count db' "comments" = count db "comments"
           /\ count db' "follow_ups" = count db "follow_ups")
  /\ exists seeded,
       seed clock ∅ = Ok seeded
       /\ forall again, seed again seeded = Ok seeded.
Proof.
  split; [| split].
  - intros H. unfold seed. apply Nat.eqb_neq in H. rewrite H. reflexivity.
  - intros H. unfold seed. rewrite H. simpl. split; [reflexivity |].
    intros db' Hs. pose proof (seed_rows_counts clock db db' Hs) as Hc.
    unfold roleCount in H. fold (rows_of db "roles") in H.
    fold (count db "roles") in H.
    rewrite !Hc, H. simpl. repeat split; lia.
  - assert (Hs : exists seeded, seed clock ∅ = Ok seeded)
      by (eexists; vm_compute; reflexivity).
    destruct Hs as [seeded Hs]. exists seeded. split; [exact Hs |].
    intros again. unfold seed.
    assert (Hr : roleCount seeded = 4%nat).
    { pose proof (seed_rows_counts clock ∅ seeded Hs "roles") as Hc.
      exact Hc. }
    rewrite Hr. reflexivity.
Qed.

(** ** Routes without the allow-list check *)

(** C1: the list route rejects the module [users] with 404 "Invalid
    module", but the create route, given the same module, writes
    [INSERT INTO users ...], runs it and answers the new id; soft delete
    on the module string [LEADS], which is not in the allow-list either,
    runs its UPDATE and marks the lead deleted; restore and update on
    [users] reach SQLite and fail there, not on the allow-list. *)
Theorem create_skips_allow_list (now : string) :
  includes validModules "users" = false
  /\ includes validModules "LEADS" = false
  /\ get_list now "users" no_filters ∅ = (Json 404 (BError "Invalid module"), ∅)
  /\ create_sql "users" ["username"] = "INSERT INTO users (username) VALUES (?)"
  /\ fst (post_create now "users" [("username", JStr "eve")] ∅) = Json 200 (BId 1)
  /\ count (snd (post_create now "users" [("username", JStr "eve")] ∅)) "users" = 1%nat
  /\ fst (delete_soft now "LEADS" "1" one_lead) = Json 200 BSuccess
  /\ List.map (fun r => row_get r "is_deleted")
       (rows_of (snd (delete_soft now "LEADS" "1" one_lead)) "leads")
     = [VInt 1]
  /\ fst (post_restore now "users" "1" ∅)
     = Unhandled (SqliteError (NoSuchColumn "is_deleted"))
  /\ fst (put_update now "users" "1" [("password", JStr "x")] ∅)
     = Unhandled (SqliteError (NoSuchColumn "updated_at")).
Proof. repeat split; vm_compute; reflexivity. Qed.

(** ** Free-text search *)

(** C6: on the modules [opportunities], [contracts] and [activities],
    whose tables have no [contact_person] column, the list route with any
    non-empty [q] does not answer rows: its statement does not compile. *)
Theorem list_q_needs_contact_person (now : string) (c : ascii) (s : string)
    (db : database) :
  let no_column := Unhandled (SqliteError (NoSuchColumn "contact_person")) in
  get_list now "opportunities" (only_q (String c s)) db = (no_column, db)
  /\ get_list now "contracts" (only_q (String c s)) db = (no_column, db)
  /\ get_list now "activities" (only_q (String c s)) db = (no_column, db).
Proof. repeat split; vm_compute; reflexivity. Qed.

(** On [leads] and [customers], whose tables have both columns, the
    list route with a non-empty [q] answers the rows that are not deleted
    and whose [name] or [contact_person] is LIKE [%q%]. *)
Lemma list_sql_q (m : string) (c : ascii) (s : string) :
  In m searchModules ->
  prepare schema (fst (list_sql m (only_q (String c s))))
  = Ok (SSelect m
          (Some (CAnd (CEq "is_deleted" EParam)
                   (COr (CLike "name" EParam) (CLike "contact_person" EParam))))
          newest)
  /\ snd (list_sql m (only_q (String c s)))
     = [JNum 0; JStr (q_pattern (String c s)); JStr (q_pattern (String c s))].
Proof.
  unfold searchModules. simpl.
  intros [<- | [<- | []]]; split; vm_compute; reflexivity.
Qed.

Lemma get_list_q (now m : string) (c : ascii) (s : string) (db : database) :
  In m searchModules ->
  get_list now m (only_q (String c s)) db
  = (Json 200
       (BRows
          (List.map (row_object (def_of m))
             (select_rows (def_of m) now (q_filter (String c s)) newest
                (get_table db m)))),
     db).
Proof.
  intros Hs.
  assert (Hm : In m validModules)
    by (revert Hs; unfold searchModules, validModules; simpl; intuition).
  unfold get_list.
  assert (includes validModules m = true) as -> by (apply includes_In; exact Hm).
  destruct (list_sql_q m c s Hs) as [Hsql Hargs].
  destruct (list_sql m _) as [sql args]. simpl in Hsql, Hargs. subst args.
  cbn [negb]. rewrite Hsql.
  cbv [all bind_stmt stmt_params where_params cond_params expr_params Nat.add
       Sqlite.bind bind_args to_value subst_stmt subst_where subst_cond
       subst_expr fst].
  rewrite (resolve_table_valid m Hm). reflexivity.
Qed.

Lemma get_list_q_rows (now m : string) (c : ascii) (s : string) (db : database)
    (r : row) :
  In m searchModules ->
  In r (select_rows (def_of m) now (q_filter (String c s)) newest (get_table db m))
  <-> In r (rows_of db m)
      /\ sql_eq (row_get r "is_deleted") (VInt 0) = true
      /\ (sql_like (row_get r "name") (VText (q_pattern (String c s)))
          || sql_like (row_get r "contact_person") (VText (q_pattern (String c s))))
         = true.
Proof.
  intros Hs. unfold select_rows, newest, order_rows.
  rewrite sort_by_In, List.filter_In. unfold rows_of.
  assert (Ha : col_affinity (def_of m) "is_deleted" = AffInteger).
  { revert Hs. unfold searchModules. simpl. intros [<- | [<- | []]]; reflexivity. }
  unfold q_filter. cbn [eval_where eval_cond eval_expr]. rewrite Ha.
  cbn [apply_affinity]. change (in_int64 0) with true. cbv iota.
  rewrite andb_true_iff. tauto.
Qed.

(** ** Comments *)

Lemma comment_routes_agree :
  post_create "2026-11-03 10:00:00" "comments" anonymous_comment ∅
  = post_comment "2026-11-03 10:00:00" anonymous_comment ∅.
Proof. vm_compute. reflexivity. Qed.

(** C8, as stated, fails: a comment stored for lead 1 without a user is
    not listed. *)
Lemma comment_without_user_not_listed :
  let posted := post_create "2026-11-03 10:00:00" "comments" anonymous_comment ∅ in
  fst posted = Json 200 (BId 1)
  /\ (exists c, In c (rows_of (snd posted) "comments")
                /\ comment_matches "leads" "1" c = true)
  /\ fst (get_comments "leads" "1" (snd posted)) = Json 200 (BRows []).
Proof.
  split; [vm_compute; reflexivity |].
  split; [| vm_compute; reflexivity].
  eexists. split; [vm_compute; left; reflexivity | vm_compute; reflexivity].
Qed.

Lemma newest_first_total (x y : row * row) :
  newest_first x y = false -> newest_first y x = true.
Proof. apply order_before_total. Qed.

Lemma newest_first_not_older (x y : row * row) :
  newest_first x y = true -> not_older x y.
Proof.
  unfold newest_first, order_before, not_older, created_at.
  destruct (value_compare _ _); simpl; congruence.
Qed.

Lemma Sorted_impl {A : Type} (R S : A -> A -> Prop) (l : list A) :
  (forall x y, R x y -> S x y) -> Sorted R l -> Sorted S l.
Proof.
  intros HRS. induction 1 as [| x l Hs IH Hhd]; constructor.
  - exact IH.
  - destruct Hhd; constructor. apply HRS. assumption.
Qed.

Lemma joined_comments_In (type id : string) (db : database) (c u : row) :
  In (c, u) (joined_comments type id db)
  <-> In c (rows_of db "comments") /\ comment_matches type id c = true
      /\ In u (rows_of db "users") /\ joins c u = true.
Proof.
  unfold joined_comments, rows_of. rewrite List.in_flat_map. split.
  - intros [c' [Hc Hu]]. apply List.filter_In in Hc as [Hc Hm].
    apply List.in_map_iff in Hu as [u' [Heq Hu]]. injection Heq as <- <-.
    apply List.filter_In in Hu as [Hu Hj]. auto.
  - intros [Hc [Hm [Hu Hj]]]. exists c. split.
    + apply List.filter_In. auto.
    + apply List.in_map_iff. exists u. split; [reflexivity |].
      apply List.filter_In. auto.
Qed.

Lemma filter_pairs {A B : Type} (f : A -> bool) (g : A -> B -> bool)
    (x : A) (l : list B) :
  List.filter (fun p => f (fst p) && g (fst p) (snd p)) (List.map (pair x) l)
  = if f x then List.map (pair x) (List.filter (g x) l) else [].
Proof.
  induction l as [| y l IH]; simpl; [destruct (f x); reflexivity |].
  rewrite IH. destruct (f x); simpl; [| reflexivity].
  destruct (g x y); reflexivity.
Qed.

Lemma flat_map_filter_pairs {A B : Type} (f : A -> bool) (g : A -> B -> bool)
    (l : list A) (l' : list B) :
  List.flat_map (fun x => List.map (pair x) (List.filter (g x) l'))
    (List.filter f l)
  = List.filter (fun p => f (fst p) && g (fst p) (snd p)) (List.list_prod l l').
Proof.
  induction l as [| x l IH]; simpl; [reflexivity |].
  rewrite List.filter_app, filter_pairs, <- IH.
  destruct (f x); reflexivity.
Qed.

Lemma comment_matches_stored (type : string) (n : Z) (c : row) :
  in_int64 n = true ->
  comment_matches type (text_of_int n) c = stored_for type n c.
Proof.
  intros Hn. unfold comment_matches, stored_for.
  rewrite (id_param_value n Hn). reflexivity.
Qed.

Lemma joined_comments_pairs (type : string) (n : Z) (db : database) :
  in_int64 n = true ->
  joined_comments type (text_of_int n) db = comments_with_users type n db.
Proof.
  intros Hn. unfold joined_comments, comments_with_users, rows_of.
  rewrite (flat_map_filter_pairs (comment_matches type (text_of_int n)) joins).
  apply List.filter_ext. intros [c u]. cbn [fst snd].
  rewrite (comment_matches_stored type n c Hn). reflexivity.
Qed.

(** C8, amended: for an id that spells a 64-bit whole number in decimal
    the comments route answers, newest first, exactly the comments stored
    for the pair whose [user_id] is the id of a stored user, each as often
    as it is stored and with that user's [username]. *)
Theorem comments_of_known_users (type : string) (n : Z) (db : database) :
  in_int64 n = true ->
  exists l,
    get_comments type (text_of_int n) db
    = (Json 200 (BRows (List.map comment_object l)), db)
    /\ Permutation l (comments_with_users type n db)
    /\ (forall cu, comment_object cu !! "username" = Some (row_get (snd cu) "username"))
    /\ Sorted not_older l.
Proof.
  intros Hn.
  exists (sort_by newest_first (joined_comments type (text_of_int n) db)).
  split; [reflexivity |]. split; [| split].
  - rewrite <- (joined_comments_pairs type n db Hn).
    apply Permutation_sym, sort_by_perm.
  - intros cu. unfold comment_object. apply lookup_insert_eq.
  - eapply Sorted_impl; [exact newest_first_not_older |].
    apply sort_by_Sorted. exact newest_first_total.
Qed.

Lemma comments_of_known_users_witness :
  in_int64 7 = true
  /\ List.length (comments_with_users "leads" 7 commented) = 1%nat
  /\ exists l,
       get_comments "leads" (text_of_int 7) commented
       = (Json 200 (BRows (List.map comment_object l)), commented)
       /\ Permutation l (comments_with_users "leads" 7 commented)
       /\ (forall cu, comment_object cu !! "username"
                      = Some (row_get (snd cu) "username"))
       /\ Sorted not_older l.
Proof.
  split; [reflexivity |]. split; [vm_compute; reflexivity |].
  apply (comments_of_known_users "leads" 7 commented). reflexivity.
Defined.

(** ** A target that does not exist *)

(** C3, as stated, fails: on the empty database update, soft delete and
    restore of lead 999 all answer success. *)
Lemma missing_row_reports_success :
  put_update "2026-11-03 10:00:00" "leads" "999" [("status", JStr "x")] ∅
  = (Json 200 BSuccess, ∅)
  /\ delete_soft "2026-11-03 10:00:00" "leads" "999" ∅ = (Json 200 BSuccess, ∅)
  /\ post_restore "2026-11-03 10:00:00" "leads" "999" ∅ = (Json 200 BSuccess, ∅).
Proof. repeat split; vm_compute; reflexivity. Qed.

(** ** Lexing and parsing statements built from plain keys *)

Lemma tokens_lex_tokens (sql : string) : tokens sql = lex_tokens LDefault sql.
Proof.
  unfold tokens, lex_tokens. destruct (lex_run LDefault sql). reflexivity.
Qed.

Lemma lex_tokens_cons (st : lstate) (c : ascii) (s : string) :
  lex_tokens st (String c s)
  = (fst (lex_step st c) ++ lex_tokens (snd (lex_step st c)) s)%list.
Proof.
  unfold lex_tokens. cbn [lex_run].
  destruct (lex_step st c) as [ts st']. cbn [fst snd].
  destruct (lex_run st' s) as [ts' st'']. cbn [fst snd].
  rewrite <- List.app_assoc. reflexivity.
Qed.

Lemma lex_tokens_app (st : lstate) (s1 s2 : string) :
  lex_tokens st (s1 ++ s2)
  = (fst (lex_run st s1) ++ lex_tokens (snd (lex_run st s1)) s2)%list.
Proof.
  revert st. induction s1 as [| c s1 IH]; intros st.
  - reflexivity.
  - change (String c s1 ++ s2) with (String c (s1 ++ s2)).
    rewrite lex_tokens_cons, IH. cbn [lex_run].
    destruct (lex_step st c) as [ts st']. cbn [fst snd].
    destruct (lex_run st' s1) as [ts' st'']. cbn [fst snd].
    rewrite <- List.app_assoc. reflexivity.
Qed.

Lemma append_assoc (a b c : string) : (a ++ b) ++ c = a ++ b ++ c.
Proof.
  induction a as [| x a IH]; [reflexivity |].
  change (String x ((a ++ b) ++ c) = String x (a ++ b ++ c)).
  rewrite IH. reflexivity.
Qed.

Lemma append_empty (a : string) : a ++ "" = a.
Proof.
  induction a as [| x a IH]; [reflexivity |].
  change (String x (a ++ "") = String x a). rewrite IH. reflexivity.
Qed.

Lemma ident_start_not_space (c : ascii) :
  is_ident_start c = true -> is_space c = false.
Proof.
  destruct c as [[] [] [] [] [] [] [] []]; vm_compute; congruence.
Qed.

Lemma ident_char_not_bom (c : ascii) :
  is_ident_char c = false ->
  Nat.eqb (code c) 239 = false /\ Nat.eqb (code c) 187 = false
  /\ Nat.eqb (code c) 191 = false.
Proof.
  destruct c as [[] [] [] [] [] [] [] []]; vm_compute; intuition congruence.
Qed.

Lemma code_is (c : ascii) (n : nat) :
  Nat.eqb (code c) n = true -> c = ascii_of_nat n.
Proof.
  intros H. apply Nat.eqb_eq in H. rewrite <- H. unfold code.
  symmetry. apply ascii_nat_embedding.
Qed.

Lemma lex_run_ident (acc s : string) :
  all_chars is_ident_char s = true ->
  lex_run (LIdent acc) s = ([], LIdent (acc ++ s)).
Proof.
  revert acc. induction s as [| c s IH]; intros acc H; simpl.
  - rewrite append_empty. reflexivity.
  - simpl in H. apply andb_true_iff in H as [Hc Hs].
    unfold lex_ident. rewrite Hc. rewrite (IH _ Hs). unfold snoc.
    rewrite append_assoc. reflexivity.
Qed.

Lemma lex_run_cons (st : lstate) (c : ascii) (s : string) :
  lex_run st (String c s)
  = ((fst (lex_step st c) ++ fst (lex_run (snd (lex_step st c)) s))%list,
     snd (lex_run (snd (lex_step st c)) s)).
Proof.
  cbn [lex_run]. destruct (lex_step st c) as [ts st']. cbn [fst snd].
  destruct (lex_run st' s). reflexivity.
Qed.

(** An identifier is read without a token coming out, into a state in
    which the next character that is no identifier character ends it. *)
Lemma lex_run_identifier (k : string) :
  identifier k = true ->
  exists st,
    lex_run LDefault k = ([], st)
    /\ forall c, is_ident_char c = false -> lex_step st c = emit_then (TId k) c.
Proof.
  unfold identifier, plain_name, no_bom. intros H.
  apply andb_true_iff in H as [H Hb]. apply andb_true_iff in H as [H _].
  apply negb_true_iff in Hb.
  destruct k as [| x k1]; [discriminate |].
  apply andb_true_iff in H as [Hx Hk1].
  assert (Hend : forall acc c, is_ident_char c = false ->
                   lex_step (LIdent acc) c = emit_then (TId acc) c).
  { intros acc c Hc. cbn [lex_step]. unfold lex_ident. rewrite Hc. reflexivity. }
  assert (Hid : forall acc c s,
             is_ident_char c = true -> all_chars is_ident_char s = true ->
             lex_run (snd (lex_ident acc c)) s = ([], LIdent (acc ++ String c s))
             /\ fst (lex_ident acc c) = []).
  { intros acc c s Hc Hs. unfold lex_ident. rewrite Hc. cbn [fst snd].
    rewrite (lex_run_ident _ s Hs). unfold snoc. rewrite append_assoc. auto. }
  destruct (Nat.eqb (code x) 239) eqn:Ex.
  - apply code_is in Ex. subst x.
    destruct k1 as [| y k2].
    + exists LBom1. split; [reflexivity |].
      intros c Hc. destruct (ident_char_not_bom c Hc) as [_ [H187 _]].
      cbn [lex_step]. rewrite H187. unfold lex_ident. rewrite Hc. reflexivity.
    + cbn [all_chars] in Hk1. apply andb_true_iff in Hk1 as [Hy Hk2].
      rewrite lex_run_cons.
      change (lex_step LDefault (ascii_of_nat 239)) with (@nil token, LBom1).
      cbn [fst snd List.app].
      destruct (Nat.eqb (code y) 187) eqn:Ey.
      * apply code_is in Ey. subst y.
        destruct k2 as [| z k3].
        -- exists LBom2. split; [reflexivity |].
           intros c Hc. destruct (ident_char_not_bom c Hc) as [_ [_ H191]].
           cbn [lex_step]. rewrite H191. unfold lex_ident. rewrite Hc. reflexivity.
        -- cbn [all_chars] in Hk2. apply andb_true_iff in Hk2 as [Hz Hk3].
           assert (Ez : Nat.eqb (code z) 191 = false).
           { destruct (Nat.eqb (code z) 191) eqn:Ez; [| reflexivity].
             apply code_is in Ez. subst z. simpl in Hb.
             destruct k3; discriminate Hb. }
           eexists. split; [| apply Hend].
           rewrite lex_run_cons.
           change (lex_step LBom1 (ascii_of_nat 187)) with (@nil token, LBom2).
           cbn [fst snd List.app]. rewrite lex_run_cons.
           cbn [lex_step]. rewrite Ez.
           destruct (Hid (String "239" (String "187" "")) z k3 Hz Hk3) as [-> ->].
           reflexivity.
      * eexists. split; [| apply Hend].
        rewrite lex_run_cons. cbn [lex_step]. rewrite Ey.
        destruct (Hid (String "239" "") y k2 Hy Hk2) as [-> ->].
        reflexivity.
  - exists (LIdent (String x k1)). split; [| apply Hend].
    rewrite lex_run_cons. cbn [lex_step]. unfold lex_default.
    rewrite (ident_start_not_space x Hx), Ex, Hx. cbn [fst snd List.app].
    rewrite (lex_run_ident _ k1 Hk1). reflexivity.
Qed.

(** An identifier followed by a character that ends it is one identifier
    token. *)
Lemma lex_plain_then (k : string) (c : ascii) (rest : string) :
  identifier k = true ->
  is_ident_char c = false ->
  lex_tokens LDefault (k ++ String c rest)
  = TId k :: lex_tokens LDefault (String c rest).
Proof.
  intros Hk Hc. destruct (lex_run_identifier k Hk) as [st [Hrun Hstep]].
  rewrite lex_tokens_app, Hrun. cbn [fst snd List.app].
  rewrite !lex_tokens_cons, (Hstep c Hc). unfold emit_then. cbn [lex_step].
  destruct (lex_default c). reflexivity.
Qed.

Lemma identifier_plain (k : string) : identifier k = true -> plain_name k = true.
Proof. unfold identifier. intros H. apply andb_true_iff in H. tauto. Qed.

Lemma plain_is_name (k : string) : plain_name k = true -> is_name k = true.
Proof. unfold plain_name. intros H. apply andb_true_iff in H. tauto. Qed.

Lemma lex_comma (s : string) :
  lex_tokens LDefault (String "," s) = TComma :: lex_tokens LDefault s.
Proof. rewrite lex_tokens_cons. reflexivity. Qed.

Lemma lex_question (s : string) :
  lex_tokens LDefault (String "?" s) = TQMark :: lex_tokens LDefault s.
Proof. rewrite lex_tokens_cons. reflexivity. Qed.

(** The keys of a body, joined by commas, are that many identifiers. *)
Lemma lex_keys (keys : list string) (c : ascii) (rest : string) :
  keys <> [] ->
  forallb identifier keys = true ->
  is_ident_char c = false ->
  lex_tokens LDefault (join "," keys ++ String c rest)
  = (comma_separated (List.map TId keys) ++ lex_tokens LDefault (String c rest))%list.
Proof.
  intros Hne Hp Hc. induction keys as [| k keys IH]; [contradiction |].
  simpl in Hp. apply andb_true_iff in Hp as [Hk Hp].
  destruct keys as [| k2 keys].
  - simpl. apply lex_plain_then; assumption.
  - change (join "," (k :: k2 :: keys)) with (k ++ "," ++ join "," (k2 :: keys)).
    rewrite append_assoc.
    change (("," ++ join "," (k2 :: keys)) ++ String c rest)
      with (String "," (join "," (k2 :: keys) ++ String c rest)).
    rewrite (lex_plain_then k "," _ Hk eq_refl), lex_comma.
    rewrite IH by (discriminate || assumption). reflexivity.
Qed.

Lemma lex_placeholders {A : Type} (keys : list A) (rest : string) :
  keys <> [] ->
  lex_tokens LDefault (join "," (List.map (fun _ => "?") keys) ++ rest)
  = (comma_separated (List.map (fun _ => TQMark) keys) ++ lex_tokens LDefault rest)%list.
Proof.
  intros Hne. induction keys as [| k keys IH]; [contradiction |].
  destruct keys as [| k2 keys].
  - simpl. apply lex_question.
  - change (join "," (List.map (fun _ : A => "?") (k :: k2 :: keys)) ++ rest)
      with (String "?" (String "," (join "," (List.map (fun _ : A => "?") (k2 :: keys)) ++ rest))).
    rewrite lex_question, lex_comma, IH by discriminate. reflexivity.
Qed.

Lemma parse_idlist_keys (keys : list string) (rest : list token) :
  keys <> [] ->
  forallb is_name keys = true ->
  parse_idlist (comma_separated (List.map TId keys) ++ TRParen :: rest)
  = Some (keys, TRParen :: rest).
Proof.
  intros Hne Hn. induction keys as [| k keys IH]; [contradiction |].
  simpl in Hn. apply andb_true_iff in Hn as [Hk Hn].
  destruct keys as [| k2 keys].
  - simpl. rewrite Hk. reflexivity.
  - change (comma_separated (List.map TId (k :: k2 :: keys)) ++ TRParen :: rest)%list
      with (TId k :: TComma
              :: (comma_separated (List.map TId (k2 :: keys)) ++ TRParen :: rest))%list.
    cbn [parse_idlist]. rewrite Hk, IH by (discriminate || assumption).
    reflexivity.
Qed.

Lemma parse_exprlist_placeholders {A : Type} (keys : list A) (rest : list token) :
  keys <> [] ->
  parse_exprlist (comma_separated (List.map (fun _ => TQMark) keys) ++ TRParen :: rest)
  = Some (List.map (fun _ => EParam) keys, TRParen :: rest).
Proof.
  intros Hne. induction keys as [| k keys IH]; [contradiction |].
  destruct keys as [| k2 keys].
  - reflexivity.
  - change (comma_separated (List.map (fun _ : A => TQMark) (k :: k2 :: keys))
              ++ TRParen :: rest)%list
      with (TQMark :: TComma
              :: (comma_separated (List.map (fun _ : A => TQMark) (k2 :: keys))
                    ++ TRParen :: rest))%list.
    cbn [parse_exprlist expr_of_token]. rewrite IH by discriminate. reflexivity.
Qed.

Lemma forallb_identifier_plain (keys : list string) :
  forallb identifier keys = true -> forallb plain_name keys = true.
Proof.
  intros H. apply forallb_forall. intros k Hk.
  apply identifier_plain. apply (proj1 (forallb_forall _ _) H k Hk).
Qed.

Lemma forallb_plain_names (keys : list string) :
  forallb plain_name keys = true -> forallb is_name keys = true.
Proof.
  intros H. apply forallb_forall. intros k Hk.
  apply plain_is_name. apply (proj1 (forallb_forall _ _) H k Hk).
Qed.

(** The INSERT the create route writes for a plain module name and plain
    keys. *)
Lemma tokens_create (m : string) (keys : list string) :
  identifier m = true ->
  keys <> [] ->
  forallb identifier keys = true ->
  tokens (create_sql m keys)
  = ([TId "INSERT"; TId "INTO"; TId m; TLParen]
       ++ comma_separated (List.map TId keys)
       ++ [TRParen; TId "VALUES"; TLParen]
       ++ comma_separated (List.map (fun _ => TQMark) keys)
       ++ [TRParen])%list.
Proof.
  intros Hm Hne Hp. rewrite tokens_lex_tokens. unfold create_sql.
  change ("INSERT INTO " ++ m ++ " (" ++ join "," keys ++ ") VALUES ("
            ++ join "," (List.map (fun _ => "?") keys) ++ ")")
    with ("INSERT INTO "
            ++ (m ++ String " " (String "("
                  (join "," keys ++ String ")" (" VALUES ("
                     ++ (join "," (List.map (fun _ => "?") keys) ++ ")")))))).
  rewrite lex_tokens_app.
  change (lex_run LDefault "INSERT INTO ")
    with ([TId "INSERT"; TId "INTO"], LDefault).
  cbn [fst snd].
  rewrite (lex_plain_then m " " _ Hm eq_refl).
  rewrite 2 lex_tokens_cons. cbn [lex_step lex_default fst snd List.app].
  change (is_space " ") with true. cbv iota. cbn [fst snd List.app].
  change (lex_default "(") with ([TLParen], LDefault). cbn [fst snd List.app].
  rewrite (lex_keys keys ")" _ Hne Hp eq_refl).
  change (String ")" (" VALUES (" ++ join "," (List.map (fun _ => "?") keys) ++ ")"))
    with (") VALUES (" ++ (join "," (List.map (fun _ => "?") keys) ++ ")")).
  rewrite lex_tokens_app.
  change (lex_run LDefault ") VALUES (")
    with ([TRParen; TId "VALUES"; TLParen], LDefault).
  cbn [fst snd].
  rewrite (lex_placeholders keys ")" Hne).
  reflexivity.
Qed.

Lemma parse_create (m : string) (keys : list string) :
  identifier m = true ->
  keys <> [] ->
  forallb identifier keys = true ->
  parse_stmt (tokens (create_sql m keys))
  = Ok (SInsert m keys (List.map (fun _ => EParam) keys)).
Proof.
  intros Hm Hne Hp. rewrite (tokens_create m keys Hm Hne Hp).
  change ([TId "INSERT"; TId "INTO"; TId m; TLParen]
            ++ comma_separated (List.map TId keys)
            ++ [TRParen; TId "VALUES"; TLParen]
            ++ comma_separated (List.map (fun _ => TQMark) keys)
            ++ [TRParen])%list
    with (TId "INSERT" :: TId "INTO" :: TId m :: TLParen
            :: (comma_separated (List.map TId keys)
                  ++ TRParen :: TId "VALUES" :: TLParen
                  :: (comma_separated (List.map (fun _ => TQMark) keys)
                        ++ TRParen :: []))%list).
  cbn [parse_stmt]. change (kw "INSERT" "INSERT" && kw "INTO" "INTO") with true.
  rewrite (plain_is_name m (identifier_plain m Hm)). cbn [andb parse_insert].
  rewrite (parse_idlist_keys keys _ Hne (forallb_plain_names keys (forallb_identifier_plain keys Hp))).
  change (kw "VALUES" "VALUES") with true. cbv iota.
  rewrite (parse_exprlist_placeholders keys [] Hne).
  reflexivity.
Qed.

Lemma resolve_cols_unknown (err : string -> sqlite_error) (d : table_def)
    (keys : list string) :
  existsb (fun k => negb (match resolve_col d k with Some _ => true | None => false end)) keys
  = true ->
  exists k,
    In k keys /\ resolve_col d k = None
    /\ resolve_cols err d keys = Err (SqliteError (err k)).
Proof.
  induction keys as [| k keys IH]; simpl; [discriminate |].
  destruct (resolve_col d k) as [c |] eqn:Ek; simpl.
  - intros H. destruct (IH H) as [k' [Hin [Hk' ->]]].
    exists k'. auto.
  - intros _. exists k. auto.
Qed.

Lemma valid_module_plain (m : string) : In m validModules -> plain_name m = true.
Proof. revert m. apply valid_module_cases; reflexivity. Qed.

Lemma valid_module_identifier (m : string) :
  In m validModules -> identifier m = true.
Proof. revert m. apply valid_module_cases; reflexivity. Qed.

(** A name that matches, up to case, one that starts with an ASCII
    character does not begin with a byte-order mark. *)
Lemma upper_ascii_not_bom (x : ascii) :
  (code x <? 128)%nat = true -> upper x <> "239"%char.
Proof.
  destruct x as [[] [] [] [] [] [] [] []]; vm_compute; congruence.
Qed.

Lemma upper_bom (y : ascii) : y = "239"%char -> upper y = "239"%char.
Proof. intros ->. reflexivity. Qed.

Lemma same_name_no_bom (a k : string) :
  same_name a k = true ->
  match a with
  | String x _ => (code x <? 128)%nat
  | EmptyString => false
  end = true ->
  no_bom k = true.
Proof.
  unfold same_name, no_bom. intros H Ha.
  destruct a as [| x a]; [discriminate |].
  destruct k as [| y k]; [reflexivity |].
  cbn [upper_string] in H. apply String.eqb_eq in H. injection H as Hxy _.
  apply negb_true_iff. unfold bom. cbn [String.prefix].
  destruct (ascii_dec "239" y) as [E | E]; [| reflexivity].
  exfalso. apply (upper_ascii_not_bom x Ha).
  rewrite Hxy. apply upper_bom. symmetry. exact E.
Qed.

Lemma def_of_ascii_names (m : string) (c : column) :
  In m validModules ->
  In c (tbl_cols (def_of m)) ->
  match col_name c with
  | String x _ => (code x <? 128)%nat
  | EmptyString => false
  end = true.
Proof.
  intros Hm. revert c. each_module m Hm; intros c Hc; vm_compute in Hc;
    repeat (destruct Hc as [<- | Hc]; [reflexivity |]); contradiction.
Qed.

(** A key that names a column of a module's table does not begin with a
    byte-order mark. *)
Lemma known_no_bom (m k : string) :
  In m validModules -> known_column m k = true -> no_bom k = true.
Proof.
  intros Hm. unfold known_column, resolve_col.
  destruct (same_name "id" k) eqn:Eid.
  - intros _. apply (same_name_no_bom "id" k Eid). reflexivity.
  - destruct (find_column (def_of m) k) as [c |] eqn:Ef.
    + intros _. unfold find_column in Ef.
      apply List.find_some in Ef as [Hc Hs].
      apply (same_name_no_bom (col_name c) k Hs).
      apply (def_of_ascii_names m c Hm Hc).
    + destruct (existsb _ rowid_aliases) eqn:Ea; [| discriminate].
      intros _. apply existsb_exists in Ea as [a [Ha Hs]].
      apply String.eqb_eq in Hs.
      assert (Hsame : same_name a k = true /\
                      match a with
                      | String x _ => (code x <? 128)%nat
                      | EmptyString => false
                      end = true).
      { unfold same_name. rewrite Hs. simpl in Ha.
        destruct Ha as [<- | [<- | [<- | []]]]; split; reflexivity. }
      destruct Hsame as [H1 H2]. apply (same_name_no_bom a k H1 H2).
Qed.

Lemma known_identifiers (m : string) (keys : list string) :
  In m validModules ->
  forallb plain_name keys = true ->
  forallb (known_column m) keys = true ->
  forallb identifier keys = true.
Proof.
  intros Hm Hp Hk. apply forallb_forall. intros k Hin.
  rewrite forallb_forall in Hp, Hk. unfold identifier.
  rewrite (Hp k Hin), (known_no_bom m k Hm (Hk k Hin)). reflexivity.
Qed.

(** C2, as stated, fails: a key that is no column, but closes the column
    list and comments out the rest of the statement, creates a row. *)
Lemma injected_key_creates_row :
  let out := post_create "2026-11-03 10:00:00" "leads"
               [(injected_key, JStr "Acme")] ∅ in
  known_column "leads" injected_key = false
  /\ create_sql "leads" [injected_key]
     = "INSERT INTO leads (name) VALUES (?) --) VALUES (?)"
  /\ fst out = Json 200 (BId 1)
  /\ count ∅ "leads" = 0%nat
  /\ count (snd out) "leads" = 1%nat.
Proof. repeat split; vm_compute; reflexivity. Qed.

(** C2, amended: on each of the five modules, when every key of the body
    is one identifier (a letter, underscore or non-ASCII byte, then
    identifier characters; no reserved word; no byte-order mark in
    front), the keys are no more than the parameters SQLite allows by
    default, and some key names no column of the module's table, the
    create route fails with SQLite's "table has no column named" error
    for such a key, and the database is left as it was. *)
Theorem create_unknown_column_rejected (now m : string)
    (body : list (string * jsval)) (db : database) :
  In m validModules ->
  forallb identifier (List.map fst body) = true ->
  Z.of_nat (List.length body) <= max_variables ->
  existsb (fun k => negb (known_column m k)) (List.map fst body) = true ->
  exists k,
    In k (List.map fst body)
    /\ known_column m k = false
    /\ post_create now m body db
       = (Unhandled (SqliteError (NoColumnNamed m k)), db).
Proof.
  intros Hm Hp _ Hex.
  destruct (resolve_cols_unknown (NoColumnNamed m) (def_of m) _ Hex)
    as [k [Hin [Hk Hres]]].
  exists k. split; [exact Hin |]. split; [unfold known_column; rewrite Hk; reflexivity |].
  assert (Hne : List.map fst body <> []) by (destruct body; [discriminate Hex | discriminate]).
  unfold post_create, prepare.
  rewrite (parse_create m _ (valid_module_identifier m Hm) Hne Hp).
  cbn [Sqlite.bind resolve]. rewrite (resolve_table_valid m Hm).
  cbn [Sqlite.bind]. rewrite Hres. reflexivity.
Qed.

Lemma create_unknown_column_rejected_witness :
  In "leads" validModules
  /\ forallb identifier (List.map fst [("name", JStr "Acme"); ("key", JNum 1)]) = true
  /\ Z.of_nat (List.length [("name", JStr "Acme"); ("key", JNum 1)]) <= max_variables
  /\ existsb (fun k => negb (known_column "leads" k))
       (List.map fst [("name", JStr "Acme"); ("key", JNum 1)]) = true
  /\ exists k,
       In k (List.map fst [("name", JStr "Acme"); ("key", JNum 1)])
       /\ known_column "leads" k = false
       /\ post_create "2026-11-03 10:00:00" "leads"
            [("name", JStr "Acme"); ("key", JNum 1)] one_lead
          = (Unhandled (SqliteError (NoColumnNamed "leads" k)), one_lead).
Proof.
  split; [simpl; tauto |].
  split; [reflexivity |].
  split; [vm_compute; discriminate |].
  split; [reflexivity |].
  apply (create_unknown_column_rejected "2026-11-03 10:00:00" "leads"
           [("name", JStr "Acme"); ("key", JNum 1)] one_lead).
  - simpl; tauto.
  - reflexivity.
  - vm_compute; discriminate.
  - reflexivity.
Defined.

(** ** The UPDATE the update route writes *)

Lemma lex_assign (k : string) (rest : string) :
  identifier k = true ->
  lex_tokens LDefault ((k ++ " = ?") ++ String "," rest)
  = TId k :: TEq :: TQMark :: TComma :: lex_tokens LDefault rest.
Proof.
  intros Hk. rewrite append_assoc.
  change (" = ?" ++ String "," rest)
    with (String " " (String "=" (String " " (String "?" (String "," rest))))).
  rewrite (lex_plain_then k " " _ Hk eq_refl).
  rewrite !lex_tokens_cons. reflexivity.
Qed.

Lemma lex_assigns (keys : list string) (rest : string) :
  keys <> [] ->
  forallb identifier keys = true ->
  lex_tokens LDefault
    (join "," (List.map (fun f => f ++ " = ?") keys) ++ String "," rest)
  = (assign_tokens keys ++ lex_tokens LDefault rest)%list.
Proof.
  intros Hne Hp. induction keys as [| k keys IH]; [contradiction |].
  simpl in Hp. apply andb_true_iff in Hp as [Hk Hp].
  destruct keys as [| k2 keys].
  - simpl. apply lex_assign. exact Hk.
  - change (join "," (List.map (fun f => f ++ " = ?") (k :: k2 :: keys)))
      with ((k ++ " = ?") ++ ","
              ++ join "," (List.map (fun f => f ++ " = ?") (k2 :: keys))).
    rewrite append_assoc.
    change (("," ++ join "," (List.map (fun f => f ++ " = ?") (k2 :: keys)))
              ++ String "," rest)
      with (String ","
              (join "," (List.map (fun f => f ++ " = ?") (k2 :: keys))
                 ++ String "," rest)).
    rewrite (lex_assign k _ Hk), IH by (discriminate || assumption).
    reflexivity.
Qed.

Lemma tokens_update (m : string) (keys : list string) :
  identifier m = true ->
  keys <> [] ->
  forallb identifier keys = true ->
  tokens (update_sql m keys)
  = (TId "UPDATE" :: TId m :: TId "SET" :: assign_tokens keys ++ update_tail)%list.
Proof.
  intros Hm Hne Hp. rewrite tokens_lex_tokens. unfold update_sql.
  change ("UPDATE " ++ m ++ " SET "
            ++ join "," (List.map (fun f => f ++ " = ?") keys)
            ++ ", updated_at = CURRENT_TIMESTAMP WHERE id = ?")
    with ("UPDATE "
            ++ (m ++ String " " ("SET "
                  ++ (join "," (List.map (fun f => f ++ " = ?") keys)
                        ++ String "," " updated_at = CURRENT_TIMESTAMP WHERE id = ?")))).
  rewrite lex_tokens_app.
  change (lex_run LDefault "UPDATE ") with ([TId "UPDATE"], LDefault).
  cbn [fst snd].
  rewrite (lex_plain_then m " " _ Hm eq_refl).
  rewrite lex_tokens_cons.
  change (lex_step LDefault " ") with (@nil token, LDefault). cbn [fst snd List.app].
  rewrite lex_tokens_app.
  change (lex_run LDefault "SET ") with ([TId "SET"], LDefault).
  cbn [fst snd].
  rewrite (lex_assigns keys _ Hne Hp).
  reflexivity.
Qed.

Lemma parse_assigns_keys (keys : list string) :
  forallb is_name keys = true ->
  parse_assigns (assign_tokens keys ++ update_tail)
  = Some (key_sets keys, [TId "WHERE"; TId "id"; TEq; TQMark]).
Proof.
  intros Hn. induction keys as [| k keys IH].
  - reflexivity.
  - simpl in Hn. apply andb_true_iff in Hn as [Hk Hn].
    change (assign_tokens (k :: keys) ++ update_tail)%list
      with (TId k :: TEq :: TQMark :: TComma :: (assign_tokens keys ++ update_tail))%list.
    cbn [parse_assigns expr_of_token]. rewrite Hk, (IH Hn). reflexivity.
Qed.

Lemma parse_update_keys (m : string) (keys : list string) :
  identifier m = true ->
  keys <> [] ->
  forallb identifier keys = true ->
  (List.length keys < max_columns)%nat ->
  parse_stmt (tokens (update_sql m keys))
  = Ok (SUpdate m (key_sets keys) (Some (CEq "id" EParam))).
Proof.
  intros Hm Hne Hp Hlen. rewrite (tokens_update m keys Hm Hne Hp).
  cbn [parse_stmt]. change (kw "INSERT" "UPDATE") with false.
  change (kw "UPDATE" "UPDATE") with true. change (kw "SET" "SET") with true.
  rewrite (plain_is_name m (identifier_plain m Hm)). cbn [andb]. unfold parse_update.
  rewrite (parse_assigns_keys keys
             (forallb_plain_names keys (forallb_identifier_plain keys Hp))).
  change (parse_opt_where [TId "WHERE"; TId "id"; TEq; TQMark])
    with (Some (Some (CEq "id" EParam), @nil token)).
  cbv beta iota.
  assert ((max_columns <? List.length (key_sets keys))%nat = false) as ->.
  { apply Nat.ltb_ge. unfold key_sets.
    rewrite List.length_app, List.length_map. simpl. lia. }
  reflexivity.
Qed.

Lemma resolve_cols_known (err : string -> sqlite_error) (d : table_def)
    (keys : list string) :
  forallb (fun k => match resolve_col d k with Some _ => true | None => false end) keys
  = true ->
  exists cs,
    resolve_cols err d keys = Ok cs /\ List.length cs = List.length keys.
Proof.
  induction keys as [| k keys IH]; simpl.
  - intros _. exists []. auto.
  - destruct (resolve_col d k) as [c |]; simpl; [| discriminate].
    intros H. destruct (IH H) as [cs [-> Hlen]].
    exists (c :: cs). simpl. auto.
Qed.

Lemma map_snd_combine {A B : Type} (xs : list A) (ys : list B) :
  List.length xs = List.length ys -> List.map snd (List.combine xs ys) = ys.
Proof.
  revert ys. induction xs as [| x xs IH]; intros [| y ys] H; simpl in *;
    try discriminate; [reflexivity |].
  rewrite IH by lia. reflexivity.
Qed.

Lemma map_fst_combine {A B : Type} (xs : list A) (ys : list B) :
  List.length xs = List.length ys -> List.map fst (List.combine xs ys) = xs.
Proof.
  revert ys. induction xs as [| x xs IH]; intros [| y ys] H; simpl in *;
    try discriminate; [reflexivity |].
  rewrite IH by lia. reflexivity.
Qed.

Lemma known_updated_at (m : string) :
  In m validModules ->
  resolve_col (def_of m) "updated_at" = Some "updated_at".
Proof. revert m. apply valid_module_cases; reflexivity. Qed.

(** With plain keys that all name columns the statement compiles, to
    one assignment per key, then [updated_at], under [WHERE id = ?]. *)
Lemma prepare_update_known (m : string) (keys : list string) :
  In m validModules ->
  keys <> [] ->
  forallb plain_name keys = true ->
  forallb (known_column m) keys = true ->
  (List.length keys < max_columns)%nat ->
  exists cs,
    List.length cs = List.length keys
    /\ prepare schema (update_sql m keys)
       = Ok (SUpdate m
               (List.combine (cs ++ ["updated_at"])
                  (List.map (fun _ => EParam) keys ++ [ENow]))
               (Some (CEq "id" EParam))).
Proof.
  intros Hm Hne Hp Hk Hmax.
  destruct (resolve_cols_known NoSuchColumn (def_of m) keys Hk) as [cs [Hcs Hlen]].
  exists cs. split; [exact Hlen |].
  unfold prepare.
  rewrite (parse_update_keys m keys (valid_module_identifier m Hm) Hne
             (known_identifiers m keys Hm Hp Hk) Hmax).
  cbn [Sqlite.bind resolve]. rewrite (resolve_table_valid m Hm).
  cbn [Sqlite.bind]. rewrite (def_of_name m Hm).
  assert (Hfst : List.map fst (key_sets keys) = (keys ++ ["updated_at"])%list).
  { unfold key_sets. rewrite List.map_app, List.map_map. simpl.
    rewrite List.map_id. reflexivity. }
  assert (Hsnd : List.map snd (key_sets keys)
                 = (List.map (fun _ => EParam) keys ++ [ENow])%list).
  { unfold key_sets. rewrite List.map_app, List.map_map. reflexivity. }
  rewrite Hfst, Hsnd.
  assert (Hall : resolve_cols NoSuchColumn (def_of m) (keys ++ ["updated_at"])
                 = Ok (cs ++ ["updated_at"])%list).
  { clear Hfst Hsnd Hlen Hmax. revert cs Hcs.
    induction keys as [| k keys IH]; intros cs Hcs; simpl in *.
    - injection Hcs as <-. rewrite (known_updated_at m Hm). reflexivity.
    - simpl in Hk, Hp.
      apply andb_true_iff in Hk as [_ Hk]. apply andb_true_iff in Hp as [_ Hp].
      destruct (resolve_col (def_of m) k) as [c |]; [| discriminate].
      destruct (resolve_cols NoSuchColumn (def_of m) keys) as [cs' | e] eqn:E;
        [| discriminate].
      simpl in Hcs. injection Hcs as <-.
      destruct keys as [| k2 keys].
      + simpl in E. injection E as <-. simpl.
        rewrite (known_updated_at m Hm). reflexivity.
      + rewrite (IH ltac:(discriminate) Hp Hk cs' eq_refl). reflexivity. }
  rewrite Hall. reflexivity.
Qed.

Lemma int_of_text_of_any (n : Z) :
  int_of_text (text_of_int n) = if in_int64 n then Some n else None.
Proof.
  unfold int_of_text, text_of_int.
  rewrite NilZero.isi.
  - rewrite DecimalZ.of_to. reflexivity.
  - destruct n; simpl; try discriminate.
    intros [= H]. exact (DecimalPos.Unsigned.to_uint_nonnil _ H).
  - destruct n; simpl; try discriminate.
    intros [= H]. exact (DecimalPos.Unsigned.to_uint_nonnil _ H).
Qed.

(** The path parameter that spells [n] selects no row of another id. *)
Lemma id_matches_other (n : Z) (r : row) :
  rowid r <> n -> id_matches (text_of_int n) r = false.
Proof.
  intros Hne. unfold id_matches. simpl. rewrite int_of_text_of_any.
  destruct (in_int64 n); simpl; [| reflexivity].
  apply Z.eqb_neq. exact Hne.
Qed.

Lemma rewrite_rows_missing (f : row -> row) (n : Z) (m : string) (db : database) :
  (forall r, In r (rows_of db m) -> rowid r <> n) ->
  rewrite_rows f (text_of_int n) m db = db.
Proof.
  intros H. unfold rewrite_rows.
  destruct (existsb _ _) eqn:E; [| reflexivity].
  apply existsb_exists in E as [r [Hr Hm]].
  rewrite (id_matches_other n r (H r Hr)) in Hm. discriminate.
Qed.

Lemma bind_args_then_id (args : list jsval) (id : string) :
  forallb bindable args = true ->
  bind_args (List.length args + 1) (args ++ [JStr id])
  = Ok (values_of args ++ [VText id])%list.
Proof.
  induction args as [| a args IH]; intros H; simpl.
  - reflexivity.
  - simpl in H. apply andb_true_iff in H as [Ha H]. unfold bindable in Ha.
    destruct (to_value a) as [v |]; [| discriminate].
    rewrite (IH H). reflexivity.
Qed.

Lemma sum_params_keys {A : Type} (keys : list A) :
  sum_params (List.map (fun _ => EParam) keys ++ [ENow]) = List.length keys.
Proof. induction keys as [| k keys IH]; simpl; [reflexivity | rewrite IH; reflexivity]. Qed.

Lemma subst_exprs_keys {A : Type} (keys : list A) (vs rest : list value) :
  List.length keys = List.length vs ->
  subst_exprs (List.map (fun _ => EParam) keys ++ [ENow]) (vs ++ rest)
  = ((List.map ELit vs ++ [ENow])%list, rest).
Proof.
  revert vs. induction keys as [| k keys IH]; intros [| v vs] H; simpl in *;
    try discriminate.
  - destruct rest; reflexivity.
  - rewrite IH by lia. reflexivity.
Qed.

(** Binding the values of the body, then the id, to the compiled
    update. *)
Lemma bind_update (m id : string) (cols : list string)
    (body : list (string * jsval)) :
  List.length cols = S (List.length body) ->
  forallb bindable (List.map snd body) = true ->
  exists sets,
    bind_stmt
      (SUpdate m (List.combine cols (List.map (fun _ => EParam) (List.map fst body) ++ [ENow]))
         (Some (CEq "id" EParam)))
      (List.map snd body ++ [JStr id])
    = Ok (SUpdate m sets (id_is id)).
Proof.
  intros Hlen Hb. unfold bind_stmt, stmt_params.
  assert (Hes : List.length cols
                = List.length (List.map (fun _ : string => EParam) (List.map fst body) ++ [ENow])).
  { rewrite List.length_app, !List.length_map. simpl. lia. }
  rewrite (map_snd_combine _ _ Hes), sum_params_keys.
  cbn [where_params cond_params expr_params].
  rewrite List.length_map.
  replace (List.length body) with (List.length (List.map snd body))
    by apply List.length_map.
  rewrite (bind_args_then_id _ id Hb). cbn [Sqlite.bind subst_stmt].
  rewrite (map_snd_combine _ _ Hes), (map_fst_combine _ _ Hes).
  rewrite subst_exprs_keys
    by (unfold values_of; rewrite !List.length_map; reflexivity).
  eexists. reflexivity.
Qed.

(** C3, amended: on each of the five modules, when no row has the id of
    the request, soft delete and restore answer success; so does update,
    for a body that is not empty, of fewer keys than SQLite allows
    assignments in one UPDATE (2000, [updated_at] included), whose keys
    are plain identifiers naming columns of the module's table and whose
    values can be bound.  The database is left as it was. *)
Theorem missing_row_is_success (now m : string) (n : Z) (db : database) :
  In m validModules ->
  (forall r, In r (rows_of db m) -> rowid r <> n) ->
  delete_soft now m (text_of_int n) db = (Json 200 BSuccess, db)
  /\ post_restore now m (text_of_int n) db = (Json 200 BSuccess, db)
  /\ forall body,
       body <> [] ->
       (List.length body < max_columns)%nat ->
       forallb plain_name (List.map fst body) = true ->
       forallb (known_column m) (List.map fst body) = true ->
       forallb bindable (List.map snd body) = true ->
       put_update now m (text_of_int n) body db = (Json 200 BSuccess, db).
Proof.
  intros Hm Hmiss. split; [| split].
  - rewrite (delete_soft_spec now m _ db Hm), rewrite_rows_missing by exact Hmiss.
    reflexivity.
  - rewrite (post_restore_spec now m _ db Hm), rewrite_rows_missing by exact Hmiss.
    reflexivity.
  - intros body Hne Hmax Hp Hk Hb.
    assert (Hkeys : List.map fst body <> []) by (destruct body; [contradiction | discriminate]).
    assert (Hmax' : (List.length (List.map fst body) < max_columns)%nat)
      by (rewrite List.length_map; exact Hmax).
    destruct (prepare_update_known m _ Hm Hkeys Hp Hk Hmax') as [cs [Hlen Hprep]].
    unfold put_update. rewrite Hprep. cbn [Sqlite.bind]. unfold run.
    destruct (bind_update m (text_of_int n) (cs ++ ["updated_at"]) body) as [sets ->].
    + rewrite List.length_app, Hlen, List.length_map. simpl. lia.
    + exact Hb.
    + cbn [Sqlite.bind exec]. rewrite (resolve_table_valid m Hm). cbn [Sqlite.bind].
      rewrite exec_update_no_match; [reflexivity |].
      intros r Hr. rewrite (def_of_name m Hm) in Hr.
      rewrite (eval_where_id m now _ r Hm).
      apply id_matches_other. apply Hmiss. exact Hr.
Qed.

Lemma missing_row_is_success_witness :
  In "leads" validModules
  /\ (forall r, In r (rows_of one_lead "leads") -> rowid r <> 999)
  /\ delete_soft "2026-11-03 10:00:00" "leads" (text_of_int 999) one_lead
     = (Json 200 BSuccess, one_lead)
  /\ post_restore "2026-11-03 10:00:00" "leads" (text_of_int 999) one_lead
     = (Json 200 BSuccess, one_lead)
  /\ forall body,
       body <> [] ->
       (List.length body < max_columns)%nat ->
       forallb plain_name (List.map fst body) = true ->
       forallb (known_column "leads") (List.map fst body) = true ->
       forallb bindable (List.map snd body) = true ->
       put_update "2026-11-03 10:00:00" "leads" (text_of_int 999) body one_lead
       = (Json 200 BSuccess, one_lead).
Proof.
  assert (H : forall r, In r (rows_of one_lead "leads") -> rowid r <> 999).
  { intros r Hr. vm_compute in Hr. destruct Hr as [<- | []]. discriminate. }
  split; [simpl; tauto |].
  split; [exact H |].
  apply (missing_row_is_success "2026-11-03 10:00:00" "leads" 999 one_lead).
  - simpl; tauto.
  - exact H.
Defined.

(** ** Soft delete and restore as operations on the database *)

Lemma id_matches_same_rowid (id : string) (a b : row) :
  rowid a = rowid b -> id_matches id a = id_matches id b.
Proof. unfold id_matches. intros ->. reflexivity. Qed.

Lemma rewrite_rows_ext (f g : row -> row) (id m : string) (db : database) :
  (forall r, f r = g r) -> rewrite_rows f id m db = rewrite_rows g id m db.
Proof.
  intros H. unfold rewrite_rows.
  destruct (existsb _ _); [| reflexivity].
  do 2 f_equal. apply List.map_ext. intros r. rewrite H. reflexivity.
Qed.

Lemma existsb_map {A B : Type} (f : B -> bool) (g : A -> B) (l : list A) :
  existsb f (List.map g l) = existsb (fun x => f (g x)) l.
Proof.
  induction l as [| x l IH]; simpl; [reflexivity | rewrite IH; reflexivity].
Qed.

(** Two UPDATEs by the same id compose into one, when the first keeps
    rowids. *)
Lemma rewrite_rows_compose (f g : row -> row) (id m : string) (db : database) :
  (forall r, rowid (g r) = rowid r) ->
  rewrite_rows f id m (rewrite_rows g id m db)
  = rewrite_rows (fun r => f (g r)) id m db.
Proof.
  intros Hg.
  assert (Hsel : forall r,
             id_matches id (if id_matches id r then g r else r) = id_matches id r).
  { intros r. destruct (id_matches id r) eqn:Er; [| exact Er].
    rewrite <- Er. apply id_matches_same_rowid. apply Hg. }
  unfold rewrite_rows. cbv zeta.
  set (t := get_table db m).
  destruct (existsb (id_matches id) (tbl_rows t)) eqn:E.
  - set (t1 := {| tbl_rows := List.map (fun r => if id_matches id r then g r else r)
                                (tbl_rows t);
                  tbl_seq := tbl_seq t |}).
    assert (Ht1 : get_table (<[m := t1]> db) m = t1)
      by (unfold get_table; rewrite lookup_insert_eq; reflexivity).
    rewrite Ht1. subst t1. cbn [tbl_rows tbl_seq].
    rewrite existsb_map, (existsb_ext _ _ _ Hsel), E.
    rewrite insert_insert_eq. do 2 f_equal.
    rewrite List.map_map. apply List.map_ext. intros r.
    rewrite Hsel. destruct (id_matches id r); reflexivity.
  - fold t. rewrite E. reflexivity.
Qed.

Lemma overwrite_two (c : gmap string value) (k1 k2 : string) (x1 x2 y1 y2 : value) :
  k1 <> k2 ->
  <[k2 := y2]> (<[k1 := x2]> (<[k2 := y1]> (<[k1 := x1]> c)))
  = <[k2 := y2]> (<[k1 := x2]> c).
Proof.
  intros Hne. apply map_eq. intros k.
  destruct (decide (k2 = k)) as [<- | H2].
  - rewrite !lookup_insert_eq. reflexivity.
  - rewrite !(lookup_insert_ne _ k2 k) by exact H2.
    destruct (decide (k1 = k)) as [<- | H1].
    + rewrite !lookup_insert_eq. reflexivity.
    + rewrite !(lookup_insert_ne _ k1 k) by exact H1.
      rewrite (lookup_insert_ne _ k2 k) by exact H2.
      rewrite (lookup_insert_ne _ k1 k) by exact H1. reflexivity.
Qed.

(** Writing the delete columns twice is writing them once, with the
    later values. *)
Lemma set_delete_columns_twice (d : table_def) (a1 a2 b1 b2 : value) (r : row) :
  set_cells d [("is_deleted", a2); ("deleted_at", b2)]
    (set_cells d [("is_deleted", a1); ("deleted_at", b1)] r)
  = set_cells d [("is_deleted", a2); ("deleted_at", b2)] r.
Proof.
  unfold set_cells, set_cell. simpl. f_equal.
  apply overwrite_two. discriminate.
Qed.

Lemma delete_soft_db (now m id : string) (db : database) :
  In m validModules ->
  delete_soft now m id db
  = (Json 200 BSuccess,
     rewrite_rows (set_cells (def_of m) (deleted_cells now)) id m db).
Proof. apply delete_soft_spec. Qed.

Lemma post_restore_db (now m id : string) (db : database) :
  In m validModules ->
  post_restore now m id db
  = (Json 200 BSuccess,
     rewrite_rows (set_cells (def_of m) restored_cells) id m db).
Proof. apply post_restore_spec. Qed.

(** Restore after soft delete writes what restore alone writes. *)
Lemma restore_after_delete (t1 t2 m id : string) (db : database) :
  In m validModules ->
  post_restore t2 m id (snd (delete_soft t1 m id db)) = post_restore t2 m id db.
Proof.
  intros Hm. rewrite (delete_soft_db t1 m id db Hm). cbn [snd].
  rewrite (post_restore_db t2 m id _ Hm), (post_restore_db t2 m id db Hm).
  f_equal.
  rewrite rewrite_rows_compose by (intros r; apply set_cells_rowid).
  apply rewrite_rows_ext. intros r. apply set_delete_columns_twice.
Qed.

(** X1: soft delete is idempotent up to the time stamp: deleting again,
    at [t2], leaves the database exactly as one soft delete at [t2]
    would, and answers success both times. *)
Theorem soft_delete_twice (t1 t2 m id : string) (db : database) :
  In m validModules ->
  fst (delete_soft t1 m id db) = Json 200 BSuccess
  /\ delete_soft t2 m id (snd (delete_soft t1 m id db)) = delete_soft t2 m id db.
Proof.
  intros Hm. rewrite (delete_soft_db t1 m id db Hm). cbn [fst snd].
  split; [reflexivity |].
  rewrite (delete_soft_db t2 m id _ Hm), (delete_soft_db t2 m id db Hm). f_equal.
  rewrite rewrite_rows_compose by (intros r; apply set_cells_rowid).
  apply rewrite_rows_ext. intros r. apply set_delete_columns_twice.
Qed.

(** X2: restore is idempotent, whatever the clock: a second restore
    changes nothing; and restore after soft delete leaves the database
    exactly as restore alone would. *)
Theorem restore_absorbs (t1 t2 m id : string) (db : database) :
  In m validModules ->
  post_restore t2 m id (snd (post_restore t1 m id db)) = post_restore t1 m id db
  /\ post_restore t2 m id (snd (delete_soft t1 m id db)) = post_restore t2 m id db.
Proof.
  intros Hm. split.
  - rewrite (post_restore_db t1 m id db Hm). cbn [snd].
    rewrite (post_restore_db t2 m id _ Hm). f_equal.
    rewrite rewrite_rows_compose by (intros r; apply set_cells_rowid).
    apply rewrite_rows_ext. intros r. apply set_delete_columns_twice.
  - apply restore_after_delete. exact Hm.
Qed.

Lemma soft_delete_twice_witness :
  In "leads" validModules
  /\ fst (delete_soft "2026-11-03 10:00:00" "leads" "1" one_lead) = Json 200 BSuccess
  /\ delete_soft "2026-11-03 11:00:00" "leads" "1"
       (snd (delete_soft "2026-11-03 10:00:00" "leads" "1" one_lead))
     = delete_soft "2026-11-03 11:00:00" "leads" "1" one_lead.
Proof.
  split; [simpl; tauto |].
  apply (soft_delete_twice "2026-11-03 10:00:00" "2026-11-03 11:00:00" "leads" "1"
           one_lead).
  simpl; tauto.
Defined.

Lemma restore_absorbs_witness :
  In "leads" validModules
  /\ post_restore "2026-11-03 11:00:00" "leads" "1"
       (snd (post_restore "2026-11-03 10:00:00" "leads" "1" one_lead))
     = post_restore "2026-11-03 10:00:00" "leads" "1" one_lead
  /\ post_restore "2026-11-03 11:00:00" "leads" "1"
       (snd (delete_soft "2026-11-03 10:00:00" "leads" "1" one_lead))
     = post_restore "2026-11-03 11:00:00" "leads" "1" one_lead.
Proof.
  split; [simpl; tauto |].
  apply (restore_absorbs "2026-11-03 10:00:00" "2026-11-03 11:00:00" "leads" "1"
           one_lead).
  simpl; tauto.
Defined.

Lemma set_restored_never_deleted (m : string) (r : row) :
  In m validModules ->
  never_deleted r ->
  set_cells (def_of m) restored_cells r = r.
Proof.
  intros Hm [H0 Hn]. unfold set_cells, set_cell, restored_cells. simpl.
  rewrite (def_of_is_deleted_affinity m Hm), apply_affinity_null. simpl.
  rewrite (insert_id _ "is_deleted" (VInt 0)) by exact H0.
  rewrite (insert_id _ "deleted_at" VNull) by exact Hn.
  destruct r. reflexivity.
Qed.

Lemma rewrite_rows_fixed (f : row -> row) (id m : string) (db : database) :
  (forall r, In r (rows_of db m) -> id_matches id r = true -> f r = r) ->
  rewrite_rows f id m db = db.
Proof.
  intros H. unfold rewrite_rows. cbv zeta.
  destruct (existsb _ _) eqn:E; [| reflexivity].
  unfold rows_of, get_table in *.
  destruct (db !! m) as [t |] eqn:Et; simpl in *; [| discriminate].
  apply insert_id. rewrite Et. f_equal. destruct t as [rows seq]. simpl in *.
  f_equal. symmetry. erewrite List.map_ext_in; [apply List.map_id |].
  intros r Hr. simpl. destruct (id_matches id r) eqn:Er; [| reflexivity].
  apply H; assumption.
Qed.

(** X3: when the rows of the id in the path were never deleted (their
    [is_deleted] is 0 and their [deleted_at] NULL, as create leaves
    them), soft delete followed by restore gives back the very same
    database. *)
Theorem delete_then_restore_is_identity (t1 t2 m : string) (n : Z)
    (db : database) :
  In m validModules ->
  (forall r, In r (rows_of db m) -> rowid r = n -> never_deleted r) ->
  post_restore t2 m (text_of_int n)
    (snd (delete_soft t1 m (text_of_int n) db))
  = (Json 200 BSuccess, db).
Proof.
  intros Hm Hnd.
  rewrite (restore_after_delete t1 t2 m _ db Hm).
  rewrite (post_restore_db t2 m _ db Hm). f_equal.
  apply rewrite_rows_fixed. intros r Hr Hsel.
  apply set_restored_never_deleted; [exact Hm |]. apply (Hnd r Hr).
  destruct (Z.eq_dec (rowid r) n) as [E | E]; [exact E |].
  rewrite (id_matches_other n r E) in Hsel. discriminate.
Qed.

Lemma delete_then_restore_is_identity_witness :
  In "leads" validModules
  /\ (forall r, In r (rows_of one_lead "leads") -> rowid r = 1 -> never_deleted r)
  /\ post_restore "2026-11-03 11:00:00" "leads" (text_of_int 1)
       (snd (delete_soft "2026-11-03 10:00:00" "leads" (text_of_int 1) one_lead))
     = (Json 200 BSuccess, one_lead).
Proof.
  assert (H : forall r, In r (rows_of one_lead "leads") -> rowid r = 1 ->
                        never_deleted r).
  { intros r Hr _. vm_compute in Hr. destruct Hr as [<- | []].
    split; vm_compute; reflexivity. }
  split; [simpl; tauto |]. split; [exact H |].
  apply (delete_then_restore_is_identity "2026-11-03 10:00:00" "2026-11-03 11:00:00"
           "leads" 1 one_lead); [simpl; tauto | exact H].
Defined.

(** ** What soft delete and restore touch *)

Lemma rewrite_rows_other_table (f : row -> row) (id m t : string) (db : database) :
  t <> m -> get_table (rewrite_rows f id m db) t = get_table db t.
Proof.
  intros Ht. unfold rewrite_rows. cbv zeta.
  destruct (existsb _ _); [| reflexivity].
  unfold get_table. rewrite lookup_insert_ne by congruence. reflexivity.
Qed.

Lemma rewrite_rows_seq (f : row -> row) (id m : string) (db : database) :
  tbl_seq (get_table (rewrite_rows f id m db) m) = tbl_seq (get_table db m).
Proof.
  unfold rewrite_rows. cbv zeta.
  destruct (existsb _ _); [| reflexivity].
  unfold get_table at 1. rewrite lookup_insert_eq. reflexivity.
Qed.

Lemma def_of_deleted_at_affinity (m : string) :
  In m validModules -> col_affinity (def_of m) "deleted_at" = AffNumeric.
Proof. revert m. apply valid_module_cases; reflexivity. Qed.

(** X4: soft delete of a row answers success, sets the row's
    [is_deleted] to 1 and its [deleted_at] to the current time, and
    changes nothing else: no other column of the row, no row of another
    id, no other table, and not the table's AUTOINCREMENT mark. *)
Theorem soft_delete_marks_only (now m : string) (db : database) (r : row) :
  In m validModules ->
  In r (rows_of db m) ->
  in_int64 (rowid r) = true ->
  let out := delete_soft now m (text_of_int (rowid r)) db in
  fst out = Json 200 BSuccess
  /\ (exists r',
         In r' (rows_of (snd out) m)
         /\ rowid r' = rowid r
         /\ row_get r' "is_deleted" = VInt 1
         /\ row_get r' "deleted_at" = timestamp now
         /\ forall c, c <> "is_deleted" -> c <> "deleted_at" ->
                      row_get r' c = row_get r c)
  /\ (forall x, In x (rows_of db m) -> rowid x <> rowid r ->
                In x (rows_of (snd out) m))
  /\ (forall t, t <> m -> get_table (snd out) t = get_table db t)
  /\ tbl_seq (get_table (snd out) m) = tbl_seq (get_table db m).
Proof.
  intros Hm Hr H64 out. subst out.
  rewrite (delete_soft_db now m _ db Hm). cbn [fst snd].
  set (del := set_cells (def_of m) (deleted_cells now)).
  assert (Hid : forall y, id_matches (text_of_int (rowid r)) y = (rowid y =? rowid r))
    by (intros y; apply id_matches_rowid; exact H64).
  split; [reflexivity |]. split; [| split; [| split]].
  - exists (del r). split; [| split; [| split; [| split]]].
    + rewrite rows_of_rewrite. apply List.in_map_iff. exists r.
      rewrite Hid, Z.eqb_refl. auto.
    + apply set_cells_rowid.
    + destruct (row_get_set_cells_2 (def_of m) "is_deleted" "deleted_at"
                  (VInt 1) (VText now) r) as [Ha _]; try discriminate.
      unfold del, deleted_cells. rewrite Ha, (def_of_is_deleted_affinity m Hm).
      reflexivity.
    + destruct (row_get_set_cells_2 (def_of m) "is_deleted" "deleted_at"
                  (VInt 1) (VText now) r) as [_ Hb]; try discriminate.
      unfold del, deleted_cells. rewrite Hb, (def_of_deleted_at_affinity m Hm).
      reflexivity.
    + intros c Hc1 Hc2. apply row_get_set_cells_other.
      simpl. intuition congruence.
  - intros y Hy Hne. rewrite rows_of_rewrite. apply List.in_map_iff.
    exists y. rewrite Hid. apply Z.eqb_neq in Hne. rewrite Hne. auto.
  - intros t Ht. apply rewrite_rows_other_table. exact Ht.
  - apply rewrite_rows_seq.
Qed.

Lemma soft_delete_marks_only_witness :
  In "leads" validModules
  /\ In acme (rows_of one_lead "leads")
  /\ in_int64 (rowid acme) = true
  /\ let out := delete_soft "2026-11-03 10:00:00" "leads" (text_of_int (rowid acme))
                  one_lead in
     fst out = Json 200 BSuccess
     /\ (exists r',
            In r' (rows_of (snd out) "leads")
            /\ rowid r' = rowid acme
            /\ row_get r' "is_deleted" = VInt 1
            /\ row_get r' "deleted_at" = timestamp "2026-11-03 10:00:00"
            /\ forall c, c <> "is_deleted" -> c <> "deleted_at" ->
                         row_get r' c = row_get acme c)
     /\ (forall x, In x (rows_of one_lead "leads") -> rowid x <> rowid acme ->
                   In x (rows_of (snd out) "leads"))
     /\ (forall t, t <> "leads" -> get_table (snd out) t = get_table one_lead t)
     /\ tbl_seq (get_table (snd out) "leads") = tbl_seq (get_table one_lead "leads").
Proof.
  split; [simpl; tauto |].
  split; [vm_compute; left; reflexivity |].
  split; [reflexivity |].
  apply (soft_delete_marks_only "2026-11-03 10:00:00" "leads" one_lead acme).
  - simpl; tauto.
  - vm_compute; left; reflexivity.
  - reflexivity.
Defined.

(** ** Soft delete, then list *)

Lemma row_object_id (d : table_def) (r : row) :
  row_object d r !! "id" = Some (VInt (rowid r)).
Proof. unfold row_object. simpl. apply lookup_insert_eq. Qed.

(** X5: after the soft delete of a row, the default listing holds no
    record of that id, and the listing asked for [is_deleted] 1 holds
    one. *)
Theorem soft_deleted_row_is_hidden (t now m : string) (db : database) (r : row) :
  In m validModules ->
  In r (rows_of db m) ->
  in_int64 (rowid r) = true ->
  let db' := snd (delete_soft t m (text_of_int (rowid r)) db) in
  (exists rows,
      get_list now m no_filters db' = (Json 200 (BRows rows), db')
      /\ forall o, In o rows -> o !! "id" <> Some (VInt (rowid r)))
  /\ (exists rows,
         get_list now m (only_is_deleted "1") db' = (Json 200 (BRows rows), db')
         /\ exists o, In o rows /\ o !! "id" = Some (VInt (rowid r))).
Proof.
  intros Hm Hr H64 db'. subst db'.
  rewrite (delete_soft_db t m _ db Hm). cbn [snd].
  set (del := set_cells (def_of m) (deleted_cells t)).
  set (db1 := rewrite_rows del (text_of_int (rowid r)) m db).
  assert (Hid : forall y, id_matches (text_of_int (rowid r)) y = (rowid y =? rowid r))
    by (intros y; apply id_matches_rowid; exact H64).
  assert (Hdel : forall y, row_get (del y) "is_deleted" = VInt 1).
  { intros y.
    destruct (row_get_set_cells_2 (def_of m) "is_deleted" "deleted_at"
                (VInt 1) (VText t) y) as [Ha _]; try discriminate.
    unfold del, deleted_cells. rewrite Ha, (def_of_is_deleted_affinity m Hm).
    reflexivity. }
  split.
  - eexists. split; [apply (get_list_plain now m None None db1 Hm) |].
    intros o Ho Hoid. apply List.in_map_iff in Ho as [x [<- Hx]].
    rewrite row_object_id in Hoid. injection Hoid as Hoid.
    unfold select_rows, newest, order_rows in Hx.
    apply sort_by_In in Hx. apply List.filter_In in Hx as [Hx Hw].
    fold (rows_of db1 m) in Hx. unfold db1 in Hx. rewrite rows_of_rewrite in Hx.
    apply List.in_map_iff in Hx as [y [Hy _]].
    simpl in Hw. rewrite (def_of_is_deleted_affinity m Hm) in Hw.
    rewrite Hid in Hy. destruct (rowid y =? rowid r) eqn:E.
    + subst x. rewrite Hdel in Hw. discriminate.
    + subst x. apply Z.eqb_neq in E. contradiction.
  - eexists. split; [apply (get_list_plain now m None (Some "1") db1 Hm) |].
    exists (row_object (def_of m) (del r)). split.
    + apply List.in_map. unfold select_rows, newest, order_rows.
      apply sort_by_In. apply List.filter_In. split.
      * fold (rows_of db1 m). unfold db1. rewrite rows_of_rewrite.
        apply List.in_map_iff. exists r. rewrite Hid, Z.eqb_refl. auto.
      * simpl. rewrite (def_of_is_deleted_affinity m Hm), Hdel. reflexivity.
    + rewrite row_object_id. unfold del. rewrite set_cells_rowid. reflexivity.
Qed.

Lemma soft_deleted_row_is_hidden_witness :
  In "leads" validModules
  /\ In acme (rows_of one_lead "leads")
  /\ in_int64 (rowid acme) = true
  /\ let db' := snd (delete_soft "2026-11-03 10:00:00" "leads"
                       (text_of_int (rowid acme)) one_lead) in
     (exists rows,
         get_list "2026-11-03 10:05:00" "leads" no_filters db'
         = (Json 200 (BRows rows), db')
         /\ forall o, In o rows -> o !! "id" <> Some (VInt (rowid acme)))
     /\ (exists rows,
            get_list "2026-11-03 10:05:00" "leads" (only_is_deleted "1") db'
            = (Json 200 (BRows rows), db')
            /\ exists o, In o rows /\ o !! "id" = Some (VInt (rowid acme))).
Proof.
  split; [simpl; tauto |].
  split; [vm_compute; left; reflexivity |].
  split; [reflexivity |].
  apply (soft_deleted_row_is_hidden "2026-11-03 10:00:00" "2026-11-03 10:05:00"
           "leads" one_lead acme).
  - simpl; tauto.
  - vm_compute; left; reflexivity.
  - reflexivity.
Defined.

(** ** The list route, filter by filter *)

Lemma order_before_newer (x y : row) :
  order_before "created_at" true x y = true -> newer_first x y.
Proof.
  unfold order_before, newer_first.
  destruct (value_compare _ _); simpl; congruence.
Qed.

Lemma filter_ext_eq {A : Type} (f g : A -> bool) (l : list A) :
  (forall x, f x = g x) -> List.filter f l = List.filter g l.
Proof.
  intros H. induction l as [| x l IH]; simpl; [reflexivity |].
  rewrite H, IH. reflexivity.
Qed.

(** Evaluates the statement of one module and one shape of query. *)
Ltac list_case :=
  unfold get_list;
  match goal with
  | |- context [includes validModules ?m] =>
      change (includes validModules m) with true
  end;
  cbn [negb];
  match goal with
  | |- context [list_sql ?m ?qy] =>
      let p := eval vm_compute in (list_sql m qy) in
      change (list_sql m qy) with p
  end;
  cbv beta iota zeta;
  match goal with
  | |- context [prepare schema ?sql] =>
      let r := eval vm_compute in (prepare schema sql) in
      replace (prepare schema sql) with r by (vm_compute; reflexivity)
  end;
  cbv [all bind_stmt stmt_params where_params cond_params expr_params Nat.add
       Sqlite.bind bind_args to_value subst_stmt subst_where subst_cond
       subst_expr fst];
  match goal with
  | |- context [resolve_table schema ?m] =>
      replace (resolve_table schema m) with (Ok (def_of m))
        by (vm_compute; reflexivity)
  end;
  cbv beta iota;
  unfold select_rows, newest, order_rows, rows_of;
  match goal with
  | |- context [List.filter (eval_where ?d ?n ?w) ?l] =>
      match goal with
      | |- context [wanted ?qy] =>
          rewrite (filter_ext_eq (eval_where d n w) (wanted qy) l);
          [reflexivity |]
      end
  end;
  intros r;
  unfold wanted, q_wanted, status_wanted;
  cbn [eval_where eval_cond eval_expr q status is_deleted truthy negb
       is_deleted_param default];
  cbv beta iota;
  rewrite ?andb_true_r, ?andb_assoc;
  reflexivity.

Lemma get_list_filtered (now m : string) (qy : query) (db : database) :
  In m validModules ->
  (truthy (q qy) = true -> In m searchModules) ->
  (truthy (status qy) = true -> In m statusModules) ->
  get_list now m qy db
  = (Json 200
       (BRows
          (List.map (row_object (def_of m))
             (sort_by (order_before "created_at" true)
                (List.filter (wanted qy) (rows_of db m))))),
     db).
Proof.
  intros Hm Hq Hs. destruct qy as [qq st o isd].
  cbn [q status] in Hq, Hs.
  destruct qq as [[| c s] |]; destruct st as [[| c' s'] |];
    destruct isd as [i |];
    revert Hq Hs; each_module m Hm; intros Hq Hs;
    try (exfalso; specialize (Hq eq_refl); simpl in Hq; intuition discriminate);
    try (exfalso; specialize (Hs eq_refl); simpl in Hs; intuition discriminate);
    list_case.
Qed.

(** X6: on every module whose table has the columns the query needs
    ([name] and [contact_person] for [q], [status] for [status]), the
    list route answers exactly the rows that pass all the filters given
    (the [is_deleted] parameter, 0 by default or a whole number in
    decimal, and [q] and [status] when they are not empty), each once,
    the newest first.  The pattern of [q] is one LIKE accepts, and the
    two columns it is matched against hold NULL or text. *)
Theorem list_answers_filter (now m : string) (qy : query) (db : database) :
  In m validModules ->
  (truthy (q qy) = true -> In m searchModules) ->
  (truthy (status qy) = true -> In m statusModules) ->
  (forall s, is_deleted qy = Some s -> decimal s) ->
  (forall s, q qy = Some s ->
     Z.of_nat (String.length (q_pattern s)) <= max_like_pattern) ->
  (truthy (q qy) = true -> forallb searchable (rows_of db m) = true) ->
  exists l,
    get_list now m qy db
    = (Json 200 (BRows (List.map (row_object (def_of m)) l)), db)
    /\ Permutation l (List.filter (wanted qy) (rows_of db m))
    /\ Sorted newer_first l.
Proof.
  intros Hm Hq Hs _ _ _.
  exists (sort_by (order_before "created_at" true)
            (List.filter (wanted qy) (rows_of db m))).
  split; [apply get_list_filtered; assumption |]. split.
  - apply Permutation_sym. apply sort_by_perm.
  - eapply Sorted_impl; [exact order_before_newer |].
    apply sort_by_Sorted. intros x y. apply order_before_total.
Qed.

Lemma list_answers_filter_witness :
  let qy := {| q := Some "acme"; status := Some "未跟进"; owner_id := None;
               is_deleted := None |} in
  (In "leads" validModules
   /\ (truthy (q qy) = true -> In "leads" searchModules)
   /\ (truthy (status qy) = true -> In "leads" statusModules)
   /\ (forall s, is_deleted qy = Some s -> decimal s)
   /\ (forall s, q qy = Some s ->
         Z.of_nat (String.length (q_pattern s)) <= max_like_pattern)
   /\ (truthy (q qy) = true ->
       forallb searchable (rows_of three_leads "leads") = true))
  /\ List.filter (wanted qy) (rows_of three_leads "leads") = [acme; globex]
  /\ fst (get_list "2026-11-03 10:00:00" "leads" qy three_leads)
     = Json 200 (BRows (List.map (row_object (def_of "leads")) [globex; acme]))
  /\ exists l,
       get_list "2026-11-03 10:00:00" "leads" qy three_leads
       = (Json 200 (BRows (List.map (row_object (def_of "leads")) l)),
          three_leads)
       /\ Permutation l (List.filter (wanted qy) (rows_of three_leads "leads"))
       /\ Sorted newer_first l.
Proof.
  intros qy.
  assert (Hpat : forall s, q qy = Some s ->
                   Z.of_nat (String.length (q_pattern s)) <= max_like_pattern).
  { intros s Hs. injection Hs as <-. vm_compute. discriminate. }
  split.
  { split; [simpl; tauto |].
    split; [intros _; simpl; tauto |].
    split; [intros _; simpl; tauto |].
    split; [intros s Hs; discriminate Hs |].
    split; [exact Hpat |].
    intros _. vm_compute. reflexivity. }
  split; [vm_compute; reflexivity |].
  split; [vm_compute; reflexivity |].
  apply (list_answers_filter "2026-11-03 10:00:00" "leads" qy three_leads).
  - simpl; tauto.
  - intros _; simpl; tauto.
  - intros _; simpl; tauto.
  - intros s Hs; discriminate Hs.
  - exact Hpat.
  - intros _. vm_compute. reflexivity.
Defined.

(** X7: the table [opportunities] has no [status] column, so the list
    route with a non-empty [status] fails on it, whatever the value. *)
Theorem list_status_needs_column (now : string) (c : ascii) (s : string)
    (db : database) :
  get_list now "opportunities" (only_status (String c s)) db
  = (Unhandled (SqliteError (NoSuchColumn "status")), db).
Proof. vm_compute. reflexivity. Qed.

(** ** Update: the empty body and the [updated_at] key *)

(** X8: with an empty body the update route writes [SET , updated_at = ...],
    which SQLite refuses as a syntax error: nothing is written, not even
    [updated_at]. *)
Theorem update_empty_body_rejected (now m id : string) (db : database) :
  In m validModules ->
  update_sql m [] = "UPDATE " ++ m ++ " SET , updated_at = CURRENT_TIMESTAMP WHERE id = ?"
  /\ put_update now m id [] db = (Unhandled (SqliteError SyntaxError), db).
Proof.
  intros Hm. each_module m Hm; split; vm_compute; reflexivity.
Qed.

Lemma update_empty_body_rejected_witness :
  In "leads" validModules
  /\ update_sql "leads" []
     = "UPDATE leads SET , updated_at = CURRENT_TIMESTAMP WHERE id = ?"
  /\ put_update "2026-11-03 10:00:00" "leads" "1" [] one_lead
     = (Unhandled (SqliteError SyntaxError), one_lead).
Proof.
  split; [simpl; tauto |].
  apply (update_empty_body_rejected "2026-11-03 10:00:00" "leads" "1" one_lead).
  simpl; tauto.
Defined.

Lemma prepare_update_updated_at (m : string) :
  In m validModules ->
  prepare schema (update_sql m ["updated_at"])
  = Ok (SUpdate m [("updated_at", EParam); ("updated_at", ENow)]
          (Some (CEq "id" EParam))).
Proof. revert m. apply valid_module_cases; vm_compute; reflexivity. Qed.

Lemma put_updated_at_spec (now m id : string) (v : jsval) (x : value)
    (db : database) :
  In m validModules ->
  to_value v = Some x ->
  put_update now m id [("updated_at", v)] db
  = (Json 200 BSuccess,
     rewrite_rows (set_cells (def_of m) [("updated_at", VText now)]) id m db).
Proof.
  intros Hm Hv. unfold put_update.
  cbn [List.map fst snd List.app]. rewrite (prepare_update_updated_at m Hm).
  cbv [run bind_stmt stmt_params List.map snd sum_params
       List.fold_right expr_params where_params cond_params Nat.add
       Sqlite.bind bind_args].
  rewrite Hv.
  cbv [to_value subst_stmt subst_exprs subst_expr subst_where subst_cond fst snd
       List.map List.combine exec Sqlite.bind].
  rewrite (resolve_table_valid m Hm).
  change (Ok (def_of m)) with (@Ok table_def (def_of m)).
  cbv beta iota.
  apply (update_by_id now m id [("updated_at", ELit x); ("updated_at", ENow)] db Hm);
    [reflexivity |].
  each_module m Hm; plain_columns.
Qed.

(** X9: a client cannot choose [updated_at]: when the body of an update
    names it, the value sent is dropped and the column holds the current
    time; no other column changes. *)
Theorem update_overrides_updated_at (now m : string) (v : jsval) (db : database)
    (r : row) :
  In m validModules ->
  In r (rows_of db m) ->
  in_int64 (rowid r) = true ->
  bindable v = true ->
  let out := put_update now m (text_of_int (rowid r)) [("updated_at", v)] db in
  fst out = Json 200 BSuccess
  /\ exists r',
       In r' (rows_of (snd out) m)
       /\ rowid r' = rowid r
       /\ row_get r' "updated_at" = timestamp now
       /\ forall c, c <> "updated_at" -> row_get r' c = row_get r c.
Proof.
  intros Hm Hr H64 Hb out. subst out. unfold bindable in Hb.
  destruct (to_value v) as [x |] eqn:Hv; [| discriminate].
  rewrite (put_updated_at_spec now m _ v x db Hm Hv). cbn [fst snd].
  split; [reflexivity |].
  set (upd := set_cells (def_of m) [("updated_at", VText now)]).
  exists (upd r). split; [| split; [| split]].
  - rewrite rows_of_rewrite. apply List.in_map_iff. exists r.
    rewrite (id_matches_rowid _ r H64), Z.eqb_refl. auto.
  - apply set_cells_rowid.
  - pose proof (row_get_set_cell_same (def_of m) ("updated_at", VText now) r)
      as Hsame.
    cbn [fst snd] in Hsame. unfold upd, set_cells. cbn [List.fold_left].
    rewrite Hsame by discriminate.
    rewrite (def_of_updated_at_affinity m Hm). reflexivity.
  - intros c Hc. apply row_get_set_cells_other. simpl. intuition congruence.
Qed.

Lemma update_overrides_updated_at_witness :
  In "leads" validModules
  /\ In acme (rows_of one_lead "leads")
  /\ in_int64 (rowid acme) = true
  /\ bindable (JStr "1999-01-01 00:00:00") = true
  /\ let out := put_update "2026-11-03 10:00:00" "leads" (text_of_int (rowid acme))
                  [("updated_at", JStr "1999-01-01 00:00:00")] one_lead in
     fst out = Json 200 BSuccess
     /\ exists r',
          In r' (rows_of (snd out) "leads")
          /\ rowid r' = rowid acme
          /\ row_get r' "updated_at" = timestamp "2026-11-03 10:00:00"
          /\ forall c, c <> "updated_at" -> row_get r' c = row_get acme c.
Proof.
  split; [simpl; tauto |].
  split; [vm_compute; left; reflexivity |].
  split; [reflexivity |].
  split; [reflexivity |].
  apply (update_overrides_updated_at "2026-11-03 10:00:00" "leads"
           (JStr "1999-01-01 00:00:00") one_lead acme).
  - simpl; tauto.
  - vm_compute; left; reflexivity.
  - reflexivity.
  - reflexivity.
Defined.

(** ** Values that cannot be bound *)

Lemma prepare_create_known (m : string) (keys : list string) :
  In m validModules ->
  keys <> [] ->
  forallb plain_name keys = true ->
  forallb (known_column m) keys = true ->
  exists cs,
    resolve_cols (NoColumnNamed m) (def_of m) keys = Ok cs
    /\ List.length cs = List.length keys
    /\ prepare schema (create_sql m keys)
       = Ok (SInsert m cs (List.map (fun _ => EParam) keys)).
Proof.
  intros Hm Hne Hp Hk.
  destruct (resolve_cols_known (NoColumnNamed m) (def_of m) keys Hk)
    as [cs [Hcs Hlen]].
  exists cs. split; [exact Hcs |]. split; [exact Hlen |].
  unfold prepare.
  rewrite (parse_create m keys (valid_module_identifier m Hm) Hne
             (known_identifiers m keys Hm Hp Hk)).
  cbn [Sqlite.bind resolve]. rewrite (resolve_table_valid m Hm).
  cbn [Sqlite.bind]. rewrite Hcs. cbn [Sqlite.bind].
  rewrite List.length_map, Nat.eqb_refl, (def_of_name m Hm). reflexivity.
Qed.

Lemma sum_params_all {A : Type} (keys : list A) :
  sum_params (List.map (fun _ => EParam) keys) = List.length keys.
Proof. induction keys as [| k keys IH]; simpl; [reflexivity | rewrite IH; reflexivity]. Qed.

(** The first value that cannot be bound stops [run] with a TypeError,
    when there are not more values than parameters. *)
Lemma bind_args_unbindable (n : nat) (args : list jsval) :
  existsb (fun a => negb (bindable a)) args = true ->
  (List.length args <= n)%nat ->
  bind_args n args = Err cannot_bind.
Proof.
  revert n. induction args as [| a args IH]; intros n Hex Hlen.
  - discriminate.
  - cbn [existsb] in Hex. cbn [List.length] in Hlen.
    unfold bindable at 1 in Hex.
    destruct n as [| n]; [lia |]. cbn [bind_args].
    destruct (to_value a) as [v |]; [| reflexivity].
    cbn [negb orb] in Hex.
    rewrite (IH n Hex) by lia. reflexivity.
Qed.

Lemma map_snd_length {A B : Type} (l : list (A * B)) :
  List.length (List.map snd l) = List.length (List.map fst l).
Proof. rewrite !List.length_map. reflexivity. Qed.

(** X10: a body value that better-sqlite3 cannot bind (a boolean) makes
    the create and update routes fail with its TypeError, and nothing is
    written, although every key names a column and the statement
    compiles: the keys are no more than the parameters SQLite allows by
    default for create, and fewer than the assignments it allows in one
    UPDATE (2000, [updated_at] included) for update. *)
Theorem unbindable_value_rejected (now m id : string)
    (body : list (string * jsval)) (db : database) :
  In m validModules ->
  forallb plain_name (List.map fst body) = true ->
  forallb (known_column m) (List.map fst body) = true ->
  existsb (fun v => negb (bindable v)) (List.map snd body) = true ->
  (Z.of_nat (List.length body) <= max_variables ->
   post_create now m body db = (Unhandled cannot_bind, db))
  /\ ((List.length body < max_columns)%nat ->
      put_update now m id body db = (Unhandled cannot_bind, db)).
Proof.
  intros Hm Hp Hk Hex.
  assert (Hne : List.map fst body <> [])
    by (destruct body; [discriminate Hex | discriminate]).
  split.
  - intros _.
    destruct (prepare_create_known m _ Hm Hne Hp Hk) as [cs [_ [_ Hprep]]].
    unfold post_create. rewrite Hprep. cbn [Sqlite.bind].
    unfold run, bind_stmt. cbn [stmt_params]. rewrite sum_params_all.
    rewrite bind_args_unbindable; [reflexivity | exact Hex |].
    rewrite map_snd_length. lia.
  - intros Hmax.
    assert (Hmax' : (List.length (List.map fst body) < max_columns)%nat)
      by (rewrite List.length_map; exact Hmax).
    destruct (prepare_update_known m _ Hm Hne Hp Hk Hmax') as [cs [Hlen Hprep]].
    unfold put_update. rewrite Hprep. cbn [Sqlite.bind].
    unfold run, bind_stmt. cbn [stmt_params].
    rewrite map_snd_combine
      by (rewrite !List.length_app, !List.length_map, Hlen, List.length_map;
          reflexivity).
    rewrite sum_params_keys. cbn [where_params cond_params expr_params].
    rewrite bind_args_unbindable; [reflexivity | |].
    + rewrite existsb_app, Hex. reflexivity.
    + rewrite List.length_app, map_snd_length. simpl. lia.
Qed.

Lemma unbindable_value_rejected_witness :
  let body := [("name", JStr "Acme"); ("level", JBool true)] in
  In "leads" validModules
  /\ forallb plain_name (List.map fst body) = true
  /\ forallb (known_column "leads") (List.map fst body) = true
  /\ existsb (fun v => negb (bindable v)) (List.map snd body) = true
  /\ Z.of_nat (List.length body) <= max_variables
  /\ (List.length body < max_columns)%nat
  /\ post_create "2026-11-03 10:00:00" "leads" body one_lead
     = (Unhandled cannot_bind, one_lead)
  /\ put_update "2026-11-03 10:00:00" "leads" "1" body one_lead
     = (Unhandled cannot_bind, one_lead).
Proof.
  intros body.
  assert (Hv : Z.of_nat (List.length body) <= max_variables)
    by (vm_compute; discriminate).
  assert (Hc : (List.length body < max_columns)%nat)
    by (apply Nat.ltb_lt; vm_compute; reflexivity).
  split; [simpl; tauto |].
  split; [reflexivity |]. split; [reflexivity |]. split; [reflexivity |].
  split; [exact Hv |]. split; [exact Hc |].
  destruct (unbindable_value_rejected "2026-11-03 10:00:00" "leads" "1" body one_lead)
    as [Hcreate Hupdate].
  - simpl; tauto.
  - reflexivity.
  - reflexivity.
  - reflexivity.
  - split; [exact (Hcreate Hv) | exact (Hupdate Hc)].
Defined.

(** ** INSERT of a row without constrained columns *)

(** A whole number a JavaScript number holds exactly fits 64 bits. *)
Lemma safe_in_int64 (z : Z) : Z.abs z <= max_safe_integer -> in_int64 z = true.
Proof.
  unfold max_safe_integer, in_int64, int64_min, int64_max. intros H.
  apply andb_true_iff. split; apply Z.leb_le; lia.
Qed.

Lemma given_absent (cols : list string) (vals : list value) (c : string) :
  ~ In c cols -> given cols vals c = None.
Proof.
  intros H. unfold given.
  rewrite find_all_false; [reflexivity |].
  intros [k v] Hp. simpl. apply String.eqb_neq. intros ->.
  apply H. eapply List.in_combine_l. exact Hp.
Qed.

Lemma given_id_absent (cols : list string) (vals : list value) :
  ~ In "id" cols -> given_id cols vals = None.
Proof.
  intros H. unfold given_id.
  rewrite find_all_false; [reflexivity |].
  intros [k v] Hp. simpl. apply String.eqb_neq. intros ->.
  apply H. apply List.in_rev in Hp. eapply List.in_combine_l. exact Hp.
Qed.

Lemma max_fold_bounds (s : Z) (l : list Z) :
  s <= List.fold_right Z.max s l
  /\ forall x, In x l -> x <= List.fold_right Z.max s l.
Proof.
  induction l as [| y l [IHs IHl]]; simpl.
  - split; [lia | contradiction].
  - split; [lia |]. intros x [<- | Hx]; [lia |].
    specialize (IHl x Hx). lia.
Qed.

(** The next rowid is above every rowid of the table. *)
Lemma next_id_fresh (t : table) :
  tbl_seq t < next_id t
  /\ forall r, In r (tbl_rows t) -> rowid r < next_id t.
Proof.
  unfold next_id. destruct (max_fold_bounds (tbl_seq t) (ids t)) as [Hs Hl].
  split; [lia |]. intros r Hr.
  assert (rowid r <= List.fold_right Z.max (tbl_seq t) (ids t))
    by (apply Hl; unfold ids; apply List.in_map; exact Hr).
  lia.
Qed.

Lemma new_row_get (now : string) (d : table_def) (cols : list string)
    (vals : list value) (id : Z) (k : column) :
  NoDup ("id" :: List.map col_name (tbl_cols d)) ->
  In k (tbl_cols d) ->
  row_get {| rowid := id; cells := new_cells now d cols vals |} (col_name k)
  = new_cell now cols vals k.
Proof.
  intros Hnd Hk. inversion Hnd as [| x l Hid Hnd' ]; subst.
  unfold row_get. cbn [cells].
  assert (col_name k <> "id")
    by (intros E; apply Hid; rewrite <- E;
        apply list_elem_of_In, List.in_map; exact Hk).
  apply String.eqb_neq in H. rewrite H.
  unfold new_cells.
  rewrite (elem_of_list_to_map_1 _ (col_name k) (new_cell now cols vals k));
    [reflexivity | |].
  - rewrite List.map_map. simpl. exact Hnd'.
  - apply list_elem_of_In. apply List.in_map_iff. exists k. auto.
Qed.

Lemma insert_null_keeps_unique {A : Type} (before : A -> A -> bool)
    (get : A -> value) (r : A) (rows : list A) :
  get r = VNull ->
  List.filter non_null (List.map get (insert_sorted before r rows))
  = List.filter non_null (List.map get rows).
Proof.
  intros Hr. induction rows as [| x rows IH]; simpl.
  - rewrite Hr. reflexivity.
  - destruct (before r x); simpl.
    + rewrite Hr. reflexivity.
    + rewrite IH. reflexivity.
Qed.

(** An INSERT that does not name [id], into a table that meets its
    UNIQUE constraints and is not full, succeeds with the next rowid
    when the new row is NULL in the UNIQUE columns and meets the FOREIGN
    KEY constraints. *)
Lemma exec_insert_next (now : string) (d : table_def) (cols : list string)
    (vals : list value) (db : database) :
  let t := get_table db (tbl_name d) in
  let r := {| rowid := next_id t; cells := new_cells now d cols vals |} in
  ~ In "id" cols ->
  (forall k, In k (tbl_cols d) -> col_unique k = true ->
             row_get r (col_name k) = VNull) ->
  (forall k, In k (tbl_cols d) -> col_ref k = Some (tbl_name d) ->
             row_get r (col_name k) = VNull) ->
  (forall k, In k (tbl_cols d) -> fk_ok db k (row_get r (col_name k)) = true) ->
  next_id t <= int64_max ->
  first_violation (tbl_rows t) (tbl_cols d) = None ->
  exec_insert now d cols vals db
  = Ok ({| changes := 1; lastInsertRowid := Some (next_id t) |},
        <[tbl_name d :=
            {| tbl_rows := insert_sorted rowid_before r (tbl_rows t);
               tbl_seq := next_id t |}]> db).
Proof.
  intros t r Hid Hnull Hself Hfk Hfull Huniq.
  destruct (next_id_fresh t) as [Hseq Hrows].
  unfold exec_insert. fold t.
  unfold new_rowid. rewrite (given_id_absent cols vals Hid).
  unfold next_rowid. fold (next_id t).
  assert ((next_id t <=? int64_max) = true) as -> by (apply Z.leb_le; exact Hfull).
  cbn [Sqlite.bind].
  assert (existsb (Z.eqb (next_id t)) (ids t) = false) as ->.
  { apply not_true_is_false. intros Hex.
    apply existsb_exists in Hex as [x [Hx Heq]]. apply Z.eqb_eq in Heq.
    unfold ids in Hx. apply List.in_map_iff in Hx as [y [<- Hy]].
    specialize (Hrows y Hy). lia. }
  fold r.
  assert (first_violation (insert_sorted rowid_before r (tbl_rows t)) (tbl_cols d)
          = None) as ->.
  { unfold first_violation in *. rewrite find_all_false; [reflexivity |].
    intros k Hk. destruct (col_unique k) eqn:Eu; [| reflexivity]. simpl.
    apply negb_false_iff. unfold unique_ok.
    rewrite (insert_null_keeps_unique rowid_before
               (fun x => row_get x (col_name k)) r (tbl_rows t))
      by (apply Hnull; auto).
    destruct (List.find _ (tbl_cols d)) as [bad |] eqn:Ef; [discriminate |].
    pose proof (List.find_none _ _ Ef k Hk) as Hok. cbv beta in Hok.
    rewrite Eu in Hok. simpl in Hok. apply negb_false_iff in Hok. exact Hok. }
  replace (Z.max (tbl_seq t) (next_id t)) with (next_id t) by lia.
  assert (row_fks_ok
            (<[tbl_name d :=
                 {| tbl_rows := insert_sorted rowid_before r (tbl_rows t);
                    tbl_seq := next_id t |}]> db) (tbl_cols d) r = true) as ->.
  { unfold row_fks_ok. apply forallb_forall. intros k Hk.
    specialize (Hfk k Hk). unfold fk_ok in *.
    destruct (col_ref k) as [p |] eqn:Er; [| reflexivity].
    destruct (String.eqb_spec p (tbl_name d)) as [-> | Hp].
    - rewrite (Hself k Hk Er). reflexivity.
    - unfold get_table in *. rewrite lookup_insert_ne by congruence. exact Hfk. }
  reflexivity.
Qed.

(** An INSERT that names neither [id] nor a constrained column. *)
Lemma exec_insert_free (now : string) (d : table_def) (cols : list string)
    (vals : list value) (db : database) :
  let t := get_table db (tbl_name d) in
  let r := {| rowid := next_id t; cells := new_cells now d cols vals |} in
  NoDup ("id" :: List.map col_name (tbl_cols d)) ->
  ~ In "id" cols ->
  (forall k, In k (tbl_cols d) -> col_unique k = true \/ col_ref k <> None ->
             ~ In (col_name k) cols /\ col_default k = DefNull) ->
  next_id t <= int64_max ->
  first_violation (tbl_rows t) (tbl_cols d) = None ->
  exec_insert now d cols vals db
  = Ok ({| changes := 1; lastInsertRowid := Some (next_id t) |},
        <[tbl_name d :=
            {| tbl_rows := insert_sorted rowid_before r (tbl_rows t);
               tbl_seq := next_id t |}]> db).
Proof.
  intros t r Hnd Hid Hcon Hfull Huniq.
  assert (Hnull : forall k, In k (tbl_cols d) ->
                    col_unique k = true \/ col_ref k <> None ->
                    row_get r (col_name k) = VNull).
  { intros k Hk Hc. destruct (Hcon k Hk Hc) as [Hnot Hdef].
    unfold r. rewrite (new_row_get now d cols vals _ k Hnd Hk).
    unfold new_cell. rewrite (given_absent cols vals _ Hnot).
    unfold default_value. rewrite Hdef. reflexivity. }
  apply exec_insert_next; auto.
  - intros k Hk Hr. apply Hnull; [exact Hk |]. right. congruence.
  - intros k Hk. pose proof (Hnull k Hk) as Hn. unfold r, t in Hn.
    unfold fk_ok. destruct (col_ref k) eqn:Er; [| reflexivity].
    rewrite Hn; [reflexivity |]. right. congruence.
Qed.

(** ** The create route on unconstrained columns *)

Lemma names_determine_column (cols : list column) (c k : column) :
  NoDup (List.map col_name cols) ->
  In c cols -> In k cols -> col_name c = col_name k -> c = k.
Proof.
  induction cols as [| x cols IH]; simpl; [contradiction |].
  intros Hnd Hc Hk E. inversion Hnd as [| y l Hx Hnd']; subst.
  destruct Hc as [-> | Hc], Hk as [-> | Hk]; auto.
  - exfalso. apply Hx. rewrite E. apply list_elem_of_In, List.in_map. exact Hk.
  - exfalso. apply Hx. rewrite <- E. apply list_elem_of_In, List.in_map. exact Hc.
Qed.

Lemma free_column_spec (m k : string) :
  free_column m k = true ->
  exists c,
    In c (tbl_cols (def_of m))
    /\ find_column (def_of m) k = Some c
    /\ col_unique c = false /\ col_ref c = None
    /\ resolve_col (def_of m) k = Some (col_name c)
    /\ column_of m k = col_name c.
Proof.
  unfold free_column, column_of, resolve_col. intros H.
  apply andb_true_iff in H as [Hid H]. apply negb_true_iff in Hid.
  rewrite Hid.
  destruct (find_column (def_of m) k) as [c |] eqn:Ef; [| discriminate].
  apply andb_true_iff in H as [Hu Hr]. apply negb_true_iff in Hu.
  exists c. unfold find_column in Ef. apply List.find_some in Ef as [Hin _].
  destruct (col_ref c); [discriminate |]. auto 10.
Qed.

Lemma free_columns_known (m : string) (keys : list string) :
  forallb (free_column m) keys = true ->
  forallb (known_column m) keys = true.
Proof.
  rewrite !forallb_forall. intros H k Hk.
  destruct (free_column_spec m k (H k Hk)) as [c [_ [_ [_ [_ [Hr _]]]]]].
  unfold known_column. rewrite Hr. reflexivity.
Qed.

Lemma resolve_cols_column_of (err : string -> sqlite_error) (m : string)
    (keys : list string) :
  forallb (known_column m) keys = true ->
  resolve_cols err (def_of m) keys = Ok (List.map (column_of m) keys).
Proof.
  induction keys as [| k keys IH]; simpl; [reflexivity |].
  intros H. apply andb_true_iff in H as [Hk H].
  unfold known_column in Hk. unfold column_of at 1.
  destruct (resolve_col (def_of m) k) as [c |]; [| discriminate].
  rewrite (IH H). reflexivity.
Qed.

Lemma bind_args_all (args : list jsval) :
  forallb bindable args = true ->
  bind_args (List.length args) args = Ok (values_of args).
Proof.
  induction args as [| a args IH]; intros H; simpl.
  - reflexivity.
  - simpl in H. apply andb_true_iff in H as [Ha H]. unfold bindable in Ha.
    destruct (to_value a) as [v |]; [| discriminate].
    rewrite (IH H). reflexivity.
Qed.

Lemma subst_exprs_all {A : Type} (keys : list A) (vs : list value) :
  List.length keys = List.length vs ->
  subst_exprs (List.map (fun _ => EParam) keys) vs = (List.map ELit vs, []).
Proof.
  revert vs. induction keys as [| k keys IH]; intros [| v vs] H; simpl in *;
    try discriminate; [reflexivity |].
  rewrite IH by lia. reflexivity.
Qed.

Lemma eval_literals (now : string) (vs : list value) :
  List.map (eval_expr now) (List.map ELit vs) = vs.
Proof. induction vs as [| v vs IH]; simpl; [| rewrite IH]; reflexivity. Qed.

(** In the tables of the five modules a column under a UNIQUE or FOREIGN
    KEY constraint has no default. *)
Lemma def_of_constrained_default (m : string) (k : column) :
  In m validModules ->
  In k (tbl_cols (def_of m)) ->
  col_unique k = true \/ col_ref k <> None ->
  col_default k = DefNull.
Proof.
  intros Hm. revert k. each_module m Hm; intros k Hk Hc; vm_compute in Hk;
    repeat (destruct Hk as [<- | Hk];
            [first [reflexivity
                   | destruct Hc as [Hc | Hc];
                     [vm_compute in Hc; discriminate Hc
                     | exfalso; apply Hc; reflexivity]] |]);
    contradiction.
Qed.

(** The create route, for a body whose keys name unconstrained columns
    and whose values can be bound, on a table that meets its UNIQUE
    constraints and is not full. *)
Lemma post_create_free (now m : string) (body : list (string * jsval))
    (db : database) :
  In m validModules ->
  body <> [] ->
  forallb plain_name (List.map fst body) = true ->
  forallb (free_column m) (List.map fst body) = true ->
  forallb bindable (List.map snd body) = true ->
  next_id (get_table db m) <= int64_max ->
  first_violation (rows_of db m) (tbl_cols (def_of m)) = None ->
  post_create now m body db
  = (Json 200 (BId (next_id (get_table db m))),
     <[m := {| tbl_rows := insert_sorted rowid_before (created_row now m body db)
                             (rows_of db m);
               tbl_seq := next_id (get_table db m) |}]> db).
Proof.
  intros Hm Hne Hp Hf Hb Hfull Hu.
  assert (Hne' : List.map fst body <> []) by (destruct body; [congruence | discriminate]).
  pose proof (free_columns_known m _ Hf) as Hk.
  destruct (prepare_create_known m _ Hm Hne' Hp Hk) as [cs [Hcs [_ Hprep]]].
  rewrite (resolve_cols_column_of _ m _ Hk) in Hcs. injection Hcs as <-.
  unfold post_create. rewrite Hprep. cbn [Sqlite.bind].
  unfold run, bind_stmt. cbn [stmt_params]. rewrite sum_params_all.
  rewrite <- map_snd_length, (bind_args_all _ Hb).
  cbn [Sqlite.bind subst_stmt].
  rewrite subst_exprs_all
    by (unfold values_of; rewrite !List.length_map; reflexivity).
  cbn [fst exec]. rewrite (resolve_table_valid m Hm). cbn [Sqlite.bind].
  rewrite eval_literals.
  pose proof (exec_insert_free now (def_of m)
                (List.map (column_of m) (List.map fst body))
                (values_of (List.map snd body)) db) as He.
  cbv zeta in He. rewrite (def_of_name m Hm) in He.
  rewrite He; [reflexivity | | | | exact Hfull | exact Hu].
  - apply def_of_names_nodup. exact Hm.
  - intros Hin. apply List.in_map_iff in Hin as [k [Hk' Hin]].
    rewrite forallb_forall in Hf.
    destruct (free_column_spec m k (Hf k Hin)) as [c [Hc [_ [_ [_ [_ Hcol]]]]]].
    pose proof (def_of_names_nodup m Hm) as Hnd.
    inversion Hnd as [| x l Hid _]; subst. apply Hid.
    rewrite <- Hk', Hcol. apply list_elem_of_In, List.in_map. exact Hc.
  - intros k Hkin Hcon. split; [| apply (def_of_constrained_default m k Hm Hkin Hcon)].
    intros Hin. apply List.in_map_iff in Hin as [x [Hx Hin]].
    rewrite forallb_forall in Hf.
    destruct (free_column_spec m x (Hf x Hin)) as [c [Hc [_ [Hcu [Hcr [_ Hcol]]]]]].
    pose proof (def_of_names_nodup m Hm) as Hnd.
    inversion Hnd as [| y l _ Hnd']; subst.
    assert (c = k)
      by (apply (names_determine_column _ c k Hnd' Hc Hkin); congruence).
    subst c. destruct Hcon as [Hcon | Hcon]; congruence.
Qed.

Lemma given_present {K V : Type} (f : K -> string) (g : V -> value)
    (body : list (K * V)) (k : K) (v : V) :
  NoDup (List.map f (List.map fst body)) ->
  In (k, v) body ->
  given (List.map f (List.map fst body)) (List.map g (List.map snd body)) (f k)
  = Some (g v).
Proof.
  unfold given. induction body as [| [k0 v0] body IH]; simpl; [contradiction |].
  intros Hnd Hin. inversion Hnd as [| x l Hx Hnd']; subst.
  destruct (String.eqb_spec (f k0) (f k)) as [E | E].
  - destruct Hin as [Hin | Hin]; [injection Hin as _ <-; reflexivity |].
    exfalso. apply Hx. rewrite E. apply list_elem_of_In.
    apply List.in_map, (List.in_map fst _ (k, v)). exact Hin.
  - destruct Hin as [Hin | Hin]; [injection Hin as <- _; congruence |].
    apply IH; assumption.
Qed.

(** What the created row holds in the column a key of the body names. *)
Lemma created_row_named (now m : string) (body : list (string * jsval))
    (db : database) (k : string) (v : jsval) :
  In m validModules ->
  forallb (free_column m) (List.map fst body) = true ->
  NoDup (List.map (column_of m) (List.map fst body)) ->
  In (k, v) body ->
  row_get (created_row now m body db) (column_of m k)
  = apply_affinity (col_affinity (def_of m) k) (default VNull (to_value v)).
Proof.
  intros Hm Hf Hnd Hin. rewrite forallb_forall in Hf.
  destruct (free_column_spec m k (Hf k (List.in_map fst _ (k, v) Hin)))
    as [c [Hc [Hfind [_ [_ [_ Hcol]]]]]].
  unfold created_row. rewrite Hcol.
  rewrite (new_row_get now (def_of m) _ _ _ c (def_of_names_nodup m Hm) Hc).
  unfold new_cell, values_of. rewrite <- Hcol.
  rewrite (given_present (column_of m) (fun a => default VNull (to_value a))
             body k v Hnd Hin).
  unfold col_affinity. rewrite Hfind. reflexivity.
Qed.

Lemma created_row_default (now m : string) (body : list (string * jsval))
    (db : database) (c : column) :
  In m validModules ->
  In c (tbl_cols (def_of m)) ->
  ~ In (col_name c) (List.map (column_of m) (List.map fst body)) ->
  row_get (created_row now m body db) (col_name c) = default_value now c.
Proof.
  intros Hm Hc Hnot. unfold created_row.
  rewrite (new_row_get now (def_of m) _ _ _ c (def_of_names_nodup m Hm) Hc).
  unfold new_cell. rewrite (given_absent _ _ _ Hnot). reflexivity.
Qed.

Lemma kept_bindable (a : affinity) (v : jsval) :
  kept a v = true -> bindable v = true.
Proof. destruct v; simpl; [reflexivity | discriminate | reflexivity | reflexivity]. Qed.

Lemma all_kept_bindable (m : string) (body : list (string * jsval)) :
  all_kept m body = true -> forallb bindable (List.map snd body) = true.
Proof.
  unfold all_kept. rewrite !forallb_forall. intros H v Hv.
  apply List.in_map_iff in Hv as [p [<- Hp]].
  apply (kept_bindable _ _ (H p Hp)).
Qed.

Lemma safe_fits_integer (z : Z) :
  Z.abs z <= max_safe_integer -> fits_integer z = true.
Proof.
  unfold max_safe_integer, fits_integer, int64_min, int64_max. intros H.
  apply andb_true_iff. split; apply Z.ltb_lt; lia.
Qed.

(** What the column of affinity [a] holds for a value it keeps. *)
Lemma kept_string (a : affinity) (s : string) :
  a = AffText \/ int_of_text s = None ->
  apply_affinity a (VText s) = VText s.
Proof.
  intros [-> | H]; [reflexivity |].
  destruct a; simpl; rewrite ?H; reflexivity.
Qed.

Lemma kept_integer_text (s : string) (z : Z) :
  int_of_text s = Some z -> apply_affinity AffInteger (VText s) = VInt z.
Proof. intros H. simpl. rewrite H. reflexivity. Qed.

Lemma kept_number (z : Z) :
  kept AffInteger (JNum z) = true ->
  apply_affinity AffInteger (VReal z) = VInt z.
Proof.
  simpl. intros H. apply Z.leb_le in H.
  rewrite (safe_fits_integer z H). reflexivity.
Qed.



(** ** A created row in the listing *)

Lemma def_of_is_deleted_column (m : string) :
  In m validModules ->
  exists c,
    In c (tbl_cols (def_of m))
    /\ col_name c = "is_deleted" /\ col_default c = DefLit (VInt 0).
Proof.
  intros Hm. each_module m Hm;
    (exists (Schema.with_default (Schema.integer "is_deleted") (DefLit (VInt 0))));
    (split; [vm_compute; tauto | split; reflexivity]).
Qed.



(** ** The update route on unconstrained columns *)

Lemma prepare_update_columns (m : string) (keys : list string) :
  In m validModules ->
  keys <> [] ->
  forallb plain_name keys = true ->
  forallb (known_column m) keys = true ->
  (List.length keys < max_columns)%nat ->
  prepare schema (update_sql m keys)
  = Ok (SUpdate m
          (List.combine (List.map (column_of m) keys ++ ["updated_at"])
             (List.map (fun _ => EParam) keys ++ [ENow]))
          (Some (CEq "id" EParam))).
Proof.
  intros Hm Hne Hp Hk Hmax. unfold prepare.
  rewrite (parse_update_keys m keys (valid_module_identifier m Hm) Hne
             (known_identifiers m keys Hm Hp Hk) Hmax).
  cbn [Sqlite.bind resolve]. rewrite (resolve_table_valid m Hm).
  cbn [Sqlite.bind]. rewrite (def_of_name m Hm).
  assert (Hfst : List.map fst (key_sets keys) = (keys ++ ["updated_at"])%list).
  { unfold key_sets. rewrite List.map_app, List.map_map. simpl.
    rewrite List.map_id. reflexivity. }
  assert (Hsnd : List.map snd (key_sets keys)
                 = (List.map (fun _ => EParam) keys ++ [ENow])%list).
  { unfold key_sets. rewrite List.map_app, List.map_map. reflexivity. }
  rewrite Hfst, Hsnd.
  rewrite (resolve_cols_column_of NoSuchColumn m (keys ++ ["updated_at"])).
  - rewrite List.map_app. cbn [List.map]. unfold column_of at 2.
    rewrite (known_updated_at m Hm). reflexivity.
  - rewrite forallb_app, Hk. unfold known_column. simpl.
    rewrite (known_updated_at m Hm). reflexivity.
Qed.

Lemma bind_update_values (m id : string) (cols : list string)
    (body : list (string * jsval)) :
  List.length cols = S (List.length body) ->
  forallb bindable (List.map snd body) = true ->
  bind_stmt
    (SUpdate m (List.combine cols (List.map (fun _ => EParam) (List.map fst body) ++ [ENow]))
       (Some (CEq "id" EParam)))
    (List.map snd body ++ [JStr id])
  = Ok (SUpdate m
          (List.combine cols (List.map ELit (values_of (List.map snd body)) ++ [ENow]))
          (id_is id)).
Proof.
  intros Hlen Hb. unfold bind_stmt, stmt_params.
  assert (Hes : List.length cols
                = List.length (List.map (fun _ : string => EParam) (List.map fst body) ++ [ENow])).
  { rewrite List.length_app, !List.length_map. simpl. lia. }
  rewrite (map_snd_combine _ _ Hes), sum_params_keys.
  cbn [where_params cond_params expr_params].
  rewrite List.length_map.
  replace (List.length body) with (List.length (List.map snd body))
    by apply List.length_map.
  rewrite (bind_args_then_id _ id Hb). cbn [Sqlite.bind subst_stmt].
  rewrite (map_snd_combine _ _ Hes), (map_fst_combine _ _ Hes).
  rewrite subst_exprs_keys
    by (unfold values_of; rewrite !List.length_map; reflexivity).
  reflexivity.
Qed.

Lemma existsb_all_false {A : Type} (f : A -> bool) (l : list A) :
  (forall x, In x l -> f x = false) -> existsb f l = false.
Proof.
  induction l as [| x l IH]; intros H; simpl; [reflexivity |].
  rewrite (H x (or_introl eq_refl)). apply IH.
  intros y Hy. apply H. right. exact Hy.
Qed.

Lemma effective_distinct (sets : list (string * value)) :
  NoDup (List.map fst sets) -> effective sets = sets.
Proof.
  induction sets as [| [c v] sets IH]; simpl; [reflexivity |].
  intros Hnd. inversion Hnd as [| x l Hx Hnd']; subst.
  rewrite (IH Hnd').
  rewrite existsb_all_false; [reflexivity |].
  intros p Hp. apply String.eqb_neq. intros E. apply Hx. rewrite <- E.
  apply list_elem_of_In, List.in_map. exact Hp.
Qed.

Lemma combine_app {A B : Type} (xs xs' : list A) (ys ys' : list B) :
  List.length xs = List.length ys ->
  List.combine (xs ++ xs') (ys ++ ys')
  = (List.combine xs ys ++ List.combine xs' ys')%list.
Proof.
  revert ys. induction xs as [| x xs IH]; intros [| y ys] H; simpl in *;
    try discriminate; [reflexivity |].
  rewrite IH by lia. reflexivity.
Qed.

Lemma eval_sets (now : string) (cols : list string) (vs : list value) :
  List.length cols = S (List.length vs) ->
  List.map (fun p : string * expr => (fst p, eval_expr now (snd p)))
    (List.combine cols (List.map ELit vs ++ [ENow]))
  = List.combine cols (vs ++ [VText now]).
Proof.
  revert vs. induction cols as [| c cols IH]; intros vs H; [discriminate |].
  destruct vs as [| v vs]; simpl.
  - destruct cols; reflexivity.
  - simpl in H. rewrite IH by lia. reflexivity.
Qed.

Lemma row_get_set_cells_in (d : table_def) (sets : list (string * value))
    (r : row) (c : string) (v : value) :
  NoDup (List.map fst sets) ->
  In (c, v) sets ->
  c <> "id" ->
  row_get (set_cells d sets r) c = apply_affinity (col_affinity d c) v.
Proof.
  unfold set_cells. revert r.
  induction sets as [| a sets IH]; intros r Hnd Hin Hc; [contradiction |].
  simpl in Hnd. inversion Hnd as [| x l Hx Hnd']; subst.
  cbn [List.fold_left]. destruct Hin as [-> | Hin].
  - pose proof (row_get_set_cells_other d sets (set_cell d r (c, v)) c) as Ho.
    unfold set_cells in Ho. rewrite Ho.
    + apply (row_get_set_cell_same d (c, v) r Hc).
    + intros Hin. apply Hx. apply list_elem_of_In. exact Hin.
  - apply IH; assumption.
Qed.

(** In the tables of the five modules a column is found under its own
    name. *)
Lemma def_of_find_own (m : string) (c : column) :
  In m validModules ->
  In c (tbl_cols (def_of m)) ->
  find_column (def_of m) (col_name c) = Some c.
Proof.
  intros Hm. revert c. each_module m Hm; intros c Hc; vm_compute in Hc;
    repeat (destruct Hc as [<- | Hc]; [reflexivity |]); contradiction.
Qed.

Lemma def_of_updated_at_free (m : string) (k : column) :
  In m validModules ->
  In k (tbl_cols (def_of m)) ->
  col_name k = "updated_at" ->
  col_unique k = false /\ col_ref k = None.
Proof.
  intros Hm. revert k. each_module m Hm; intros k Hk Hn; vm_compute in Hk;
    repeat (destruct Hk as [<- | Hk];
            [first [split; reflexivity | vm_compute in Hn; discriminate Hn] |]);
    contradiction.
Qed.

Lemma column_of_affinity (m k : string) :
  In m validModules ->
  free_column m k = true ->
  col_affinity (def_of m) (column_of m k) = col_affinity (def_of m) k.
Proof.
  intros Hm Hf.
  destruct (free_column_spec m k Hf) as [c [Hc [Hfind [_ [_ [_ Hcol]]]]]].
  unfold col_affinity. rewrite Hcol, (def_of_find_own m c Hm Hc), Hfind.
  reflexivity.
Qed.

Lemma column_of_not_id (m k : string) :
  In m validModules -> free_column m k = true -> column_of m k <> "id".
Proof.
  intros Hm Hf E.
  destruct (free_column_spec m k Hf) as [c [Hc [_ [_ [_ [_ Hcol]]]]]].
  pose proof (def_of_names_nodup m Hm) as Hnd.
  inversion Hnd as [| x l Hid _]; subst. apply Hid.
  rewrite <- E, Hcol. apply list_elem_of_In, List.in_map. exact Hc.
Qed.

Lemma body_sets (m : string) (body : list (string * jsval)) :
  List.combine (List.map (column_of m) (List.map fst body))
    (values_of (List.map snd body))
  = List.map (fun p => (column_of m (fst p), default VNull (to_value (snd p)))) body.
Proof.
  unfold values_of. induction body as [| [k v] body IH]; simpl; [reflexivity |].
  rewrite IH. reflexivity.
Qed.

Lemma def_of_few_columns (m : string) :
  In m validModules -> (List.length (tbl_cols (def_of m)) < 100)%nat.
Proof. intros Hm. each_module m Hm; vm_compute; lia. Qed.

(** Distinct columns of one table are fewer than a SET list may hold. *)
Lemma free_columns_few (m : string) (keys : list string) :
  In m validModules ->
  forallb (free_column m) keys = true ->
  NoDup (List.map (column_of m) keys) ->
  (List.length keys < max_columns)%nat.
Proof.
  intros Hm Hf Hnd.
  assert (Hsub : List.map (column_of m) keys
                 ⊆+ List.map col_name (tbl_cols (def_of m))).
  { apply NoDup_submseteq; [exact Hnd |].
    intros x Hx. apply list_elem_of_In in Hx. apply list_elem_of_In.
    apply List.in_map_iff in Hx as [k [<- Hk]].
    rewrite forallb_forall in Hf.
    destruct (free_column_spec m k (Hf k Hk)) as [c [Hc [_ [_ [_ [_ ->]]]]]].
    apply List.in_map. exact Hc. }
  apply submseteq_length in Hsub. rewrite !List.length_map in Hsub.
  pose proof (def_of_few_columns m Hm). unfold max_columns. lia.
Qed.

(** The update route, for a body whose keys name distinct unconstrained
    columns other than [updated_at] and whose values can be bound. *)
Lemma put_update_free (now m id : string) (body : list (string * jsval))
    (db : database) :
  In m validModules ->
  body <> [] ->
  forallb plain_name (List.map fst body) = true ->
  forallb (free_column m) (List.map fst body) = true ->
  NoDup (List.map (column_of m) (List.map fst body) ++ ["updated_at"]) ->
  forallb bindable (List.map snd body) = true ->
  put_update now m id body db
  = (Json 200 BSuccess, rewrite_rows (updated_row now m body) id m db).
Proof.
  intros Hm Hne Hp Hf Hnd Hb.
  assert (Hne' : List.map fst body <> []) by (destruct body; [congruence | discriminate]).
  pose proof (free_columns_known m _ Hf) as Hk.
  assert (Hmax : (List.length (List.map fst body) < max_columns)%nat).
  { apply (free_columns_few m _ Hm Hf).
    apply NoDup_app in Hnd as [Hnd _]. exact Hnd. }
  unfold put_update.
  rewrite (prepare_update_columns m _ Hm Hne' Hp Hk Hmax). cbn [Sqlite.bind].
  unfold run. rewrite bind_update_values;
    [| rewrite List.length_app, !List.length_map; simpl; lia | exact Hb].
  cbn [Sqlite.bind exec]. rewrite (resolve_table_valid m Hm). cbn [Sqlite.bind].
  set (cols := (List.map (column_of m) (List.map fst body) ++ ["updated_at"])%list) in *.
  set (vs := values_of (List.map snd body)).
  assert (Hlen : List.length cols = S (List.length vs)).
  { unfold cols, vs, values_of. rewrite List.length_app, !List.length_map.
    simpl. lia. }
  assert (Hlen' : List.length cols = List.length (vs ++ [VText now])).
  { rewrite List.length_app. simpl. lia. }
  assert (Hsets : effective
                    (List.map (fun p : string * expr => (fst p, eval_expr now (snd p)))
                       (List.combine cols (List.map ELit vs ++ [ENow])))
                  = List.combine cols (vs ++ [VText now])).
  { rewrite (eval_sets now cols vs Hlen). apply effective_distinct.
    rewrite (map_fst_combine _ _ Hlen'). exact Hnd. }
  pose proof (update_by_id now m id (List.combine cols (List.map ELit vs ++ [ENow]))
                db Hm) as Hu.
  cbv zeta in Hu. rewrite Hsets in Hu. unfold answer in Hu.
  unfold updated_row. fold cols vs. apply Hu.
  - apply existsb_all_false. intros [c v] Hin. simpl.
    apply String.eqb_neq. intros ->.
    apply List.in_combine_l in Hin. unfold cols in Hin.
    apply List.in_app_iff in Hin as [Hin | [Hin | []]]; [| discriminate].
    apply List.in_map_iff in Hin as [k [E Hin]].
    rewrite forallb_forall in Hf.
    exact (column_of_not_id m k Hm (Hf k Hin) E).
  - intros k Hkin Ha. unfold assigned in Ha.
    apply existsb_exists in Ha as [[c v] [Hin E]]. simpl in E.
    apply String.eqb_eq in E. subst c.
    apply List.in_combine_l in Hin. unfold cols in Hin.
    apply List.in_app_iff in Hin as [Hin | [Hin | []]].
    + apply List.in_map_iff in Hin as [x [E Hin]].
      rewrite forallb_forall in Hf.
      destruct (free_column_spec m x (Hf x Hin)) as [c [Hc [_ [Hcu [Hcr [_ Hcol]]]]]].
      pose proof (def_of_names_nodup m Hm) as Hnd0.
      inversion Hnd0 as [| y l _ Hnd']; subst.
      assert (c = k)
        by (apply (names_determine_column _ c k Hnd' Hc Hkin); congruence).
      subst c. auto.
    + apply (def_of_updated_at_free m k Hm Hkin). symmetry. exact Hin.
Qed.

(** X13: on each of the five modules the update route, given a body that
    is not empty, whose keys are plain identifiers naming distinct
    columns other than [id] and [updated_at] and free of UNIQUE and
    FOREIGN KEY constraints, and whose values the columns keep (null,
    whole numbers exact in JavaScript, strings that are text to the
    column), answers success and rewrites the rows of the id in the path,
    no other row and no other table.  A rewritten row keeps its id; its
    [updated_at] holds the current time; a column given a string holds
    the string when it is a text column or the string is no decimal
    integer, an INTEGER column given a decimal integer, as a number or as
    a string, holds the integer, a column given null holds NULL; every
    other column holds what it held. *)
Theorem update_writes_named_columns (now m : string) (n : Z)
    (body : list (string * jsval)) (db : database) :
  In m validModules ->
  body <> [] ->
  forallb plain_name (List.map fst body) = true ->
  forallb (free_column m) (List.map fst body) = true ->
  NoDup (List.map (column_of m) (List.map fst body) ++ ["updated_at"]) ->
  all_kept m body = true ->
  in_int64 n = true ->
  exists db',
    put_update now m (text_of_int n) body db = (Json 200 BSuccess, db')
    /\ rows_of db' m
       = List.map (fun x => if rowid x =? n then updated_row now m body x else x)
           (rows_of db m)
    /\ tbl_seq (get_table db' m) = tbl_seq (get_table db m)
    /\ (forall t, t <> m -> db' !! t = db !! t)
    /\ forall x,
         let x' := updated_row now m body x in
         rowid x' = rowid x
         /\ row_get x' "updated_at" = timestamp now
         /\ (forall k s, In (k, JStr s) body ->
               col_affinity (def_of m) k = AffText \/ int_of_text s = None ->
               row_get x' (column_of m k) = VText s)
         /\ (forall k s z, In (k, JStr s) body ->
               col_affinity (def_of m) k = AffInteger ->
               int_of_text s = Some z ->
               row_get x' (column_of m k) = VInt z)
         /\ (forall k z, In (k, JNum z) body ->
               col_affinity (def_of m) k = AffInteger ->
               row_get x' (column_of m k) = VInt z)
         /\ (forall k, In (k, JNull) body -> row_get x' (column_of m k) = VNull)
         /\ (forall c, ~ In c (List.map (column_of m) (List.map fst body)) ->
               c <> "updated_at" -> row_get x' c = row_get x c).
Proof.
  intros Hm Hne Hp Hf Hnd Hkept Hn.
  pose proof (all_kept_bindable m body Hkept) as Hb.
  exists (rewrite_rows (updated_row now m body) (text_of_int n) m db).
  split; [apply put_update_free; assumption |].
  split; [| split; [| split]].
  - rewrite rows_of_rewrite. apply List.map_ext. intros x.
    rewrite (id_matches_rowid n x Hn). reflexivity.
  - apply rewrite_rows_seq.
  - intros t Ht. unfold rewrite_rows. cbv zeta.
    destruct (existsb _ _); [| reflexivity].
    rewrite lookup_insert_ne by congruence. reflexivity.
  - intros x x'.
    set (cols := (List.map (column_of m) (List.map fst body) ++ ["updated_at"])%list) in *.
    set (vs := (values_of (List.map snd body) ++ [VText now])%list).
    assert (Hlen : List.length cols = List.length vs).
    { unfold cols, vs, values_of. rewrite !List.length_app, !List.length_map.
      reflexivity. }
    assert (Hsets : List.combine cols vs
                    = (List.map (fun p => (column_of m (fst p),
                                           default VNull (to_value (snd p)))) body
                       ++ [("updated_at", VText now)])%list).
    { unfold cols, vs. rewrite combine_app
        by (unfold values_of; rewrite !List.length_map; reflexivity).
      rewrite body_sets. reflexivity. }
    assert (Hnamed : forall k v, In (k, v) body ->
              row_get x' (column_of m k)
              = apply_affinity (col_affinity (def_of m) k)
                  (default VNull (to_value v))).
    { intros k v Hin. rewrite forallb_forall in Hf.
      pose proof (Hf k (List.in_map fst _ (k, v) Hin)) as Hfk.
      rewrite <- (column_of_affinity m k Hm Hfk).
      unfold x', updated_row. fold cols vs.
      apply row_get_set_cells_in.
      - rewrite (map_fst_combine _ _ Hlen). exact Hnd.
      - rewrite Hsets. apply List.in_app_iff. left.
        apply List.in_map_iff. exists (k, v). auto.
      - apply column_of_not_id; assumption. }
    split; [apply set_cells_rowid |].
    split; [| split; [| split; [| split; [| split]]]].
    + unfold timestamp. rewrite <- (def_of_updated_at_affinity m Hm).
      unfold x', updated_row. fold cols vs.
      apply row_get_set_cells_in.
      * rewrite (map_fst_combine _ _ Hlen). exact Hnd.
      * rewrite Hsets. apply List.in_app_iff. right. left. reflexivity.
      * discriminate.
    + intros k s Hin Ha. rewrite (Hnamed k (JStr s) Hin).
      apply kept_string. exact Ha.
    + intros k s z Hin Ha Hz. rewrite (Hnamed k (JStr s) Hin), Ha.
      apply kept_integer_text. exact Hz.
    + intros k z Hin Ha. rewrite (Hnamed k (JNum z) Hin), Ha.
      apply kept_number. unfold all_kept in Hkept.
      rewrite forallb_forall in Hkept.
      specialize (Hkept (k, JNum z) Hin). cbn [fst snd] in Hkept.
      rewrite Ha in Hkept. exact Hkept.
    + intros k Hin. rewrite (Hnamed k JNull Hin). apply apply_affinity_null.
    + intros c Hc Hu. unfold x', updated_row. fold cols vs.
      apply row_get_set_cells_other.
      rewrite (map_fst_combine _ _ Hlen). unfold cols.
      rewrite List.in_app_iff. simpl. intuition congruence.
Qed.

Lemma update_writes_named_columns_witness :
  let body := [("name", JStr "Globex"); ("phone", JNull)] in
  all_kept "leads" body = true
  /\ exists db',
    put_update "2026-11-03 10:00:00" "leads" (text_of_int 1) body one_lead
    = (Json 200 BSuccess, db')
    /\ rows_of db' "leads"
       = List.map (fun x => if rowid x =? 1
                            then updated_row "2026-11-03 10:00:00" "leads" body x
                            else x)
           (rows_of one_lead "leads")
    /\ tbl_seq (get_table db' "leads") = tbl_seq (get_table one_lead "leads")
    /\ (forall t, t <> "leads" -> db' !! t = one_lead !! t)
    /\ forall x,
         let x' := updated_row "2026-11-03 10:00:00" "leads" body x in
         rowid x' = rowid x
         /\ row_get x' "updated_at" = timestamp "2026-11-03 10:00:00"
         /\ (forall k s, In (k, JStr s) body ->
               col_affinity (def_of "leads") k = AffText \/ int_of_text s = None ->
               row_get x' (column_of "leads" k) = VText s)
         /\ (forall k s z, In (k, JStr s) body ->
               col_affinity (def_of "leads") k = AffInteger ->
               int_of_text s = Some z ->
               row_get x' (column_of "leads" k) = VInt z)
         /\ (forall k z, In (k, JNum z) body ->
               col_affinity (def_of "leads") k = AffInteger ->
               row_get x' (column_of "leads" k) = VInt z)
         /\ (forall k, In (k, JNull) body ->
               row_get x' (column_of "leads" k) = VNull)
         /\ (forall c, ~ In c (List.map (column_of "leads") (List.map fst body)) ->
               c <> "updated_at" -> row_get x' c = row_get x c).
Proof.
  intros body. split; [reflexivity |].
  apply (update_writes_named_columns "2026-11-03 10:00:00" "leads" 1 body one_lead).
  - simpl; tauto.
  - discriminate.
  - reflexivity.
  - reflexivity.
  - apply (bool_decide_unpack _). vm_compute. reflexivity.
  - reflexivity.
  - reflexivity.
Defined.

(** ** Routing *)

(** A path that matches [/api/comments] matches [/api/:module]. *)
Lemma comments_is_a_module (path : list string) (ps : list (string * string)) :
  match_path [Lit "api"; Lit "comments"] path = Some ps ->
  exists module,
    match_path [Lit "api"; Par "module"] path = Some [("module", module)]
    /\ same_name "comments" module = true.
Proof.
  assert (Hend : forall rest qs, match_path [] rest = Some qs -> qs = []).
  { intros [| x [| y rest]] qs; cbn [match_path]; [congruence | | discriminate].
    destruct (String.eqb x ""); congruence. }
  destruct path as [| s1 [| s2 rest]]; cbn [match_path]; try discriminate.
  - destruct (same_name "api" s1); discriminate.
  - destruct (same_name "api" s1); [| discriminate].
    destruct (same_name "comments" s2) eqn:E2; [| discriminate].
    destruct (String.eqb_spec s2 "") as [-> | _]; [discriminate E2 |].
    intros H. exists s2. rewrite H, (Hend rest ps H). auto.
Qed.


Lemma same_name_both (a b x : string) :
  same_name a x = true -> same_name b x = true -> same_name a b = true.
Proof.
  unfold same_name. rewrite !String.eqb_eq. congruence.
Qed.

(** Two literal pieces that differ match no common piece, and no literal
    piece is empty. *)
Ltac clash :=
  match goal with
  | E1 : same_name ?a ?x = true, E2 : same_name ?b ?x = true |- _ =>
      let H := fresh in
      pose proof (same_name_both a b x E1 E2) as H; vm_compute in H;
      discriminate H
  | E1 : String.eqb ?x "" = true, E2 : same_name ?a ?x = true |- _ =>
      apply String.eqb_eq in E1; subst x; vm_compute in E2; discriminate E2
  end.



(** ** The current user *)

Lemma admins_In (db : database) (u r : row) :
  In (u, r) (admins db)
  <-> In u (rows_of db "users") /\ is_admin u = true
      /\ In r (rows_of db "roles") /\ has_role u r = true.
Proof.
  unfold admins, rows_of. rewrite List.in_flat_map. split.
  - intros [u' [Hu Hr]]. apply List.filter_In in Hu as [Hu Ha].
    apply List.in_map_iff in Hr as [r' [Heq Hr]]. injection Heq as <- <-.
    apply List.filter_In in Hr as [Hr Hj]. auto.
  - intros [Hu [Ha [Hr Hj]]]. exists u. split.
    + apply List.filter_In. auto.
    + apply List.in_map_iff. exists r. split; [reflexivity |].
      apply List.filter_In. auto.
Qed.

Lemma users_names_nodup :
  NoDup ("id" :: List.map col_name (tbl_cols Schema.users)).
Proof. apply (bool_decide_unpack _). vm_compute. reflexivity. Qed.

Lemma me_object_user (ur : row * row) (c : string) :
  In c (List.map col_name (tbl_cols Schema.users)) ->
  me_object ur !! c = Some (row_get (fst ur) c).
Proof.
  intros Hc. unfold me_object.
  assert (Hne : forall x, In x ["permissions"; "role_level"; "role_name"] -> x <> c).
  { intros x Hx ->. vm_compute in Hc, Hx.
    repeat (destruct Hx as [<- | Hx]; [intuition discriminate |]). exact Hx. }
  rewrite !lookup_insert_ne by (apply Hne; simpl; tauto).
  apply (row_object_lookup Schema.users (fst ur) c users_names_nodup Hc).
Qed.

(** X16: the current user route answers a stored user named [admin]
    joined with the stored role its [role_id] names, or nothing when no
    such pair is stored, and writes nothing.  What it answers carries the
    user's columns, the stored [password] among them, and the name, level
    and permissions of the role. *)
Theorem me_answers_a_stored_admin (db : database) :
  snd (get_me db) = db
  /\ (forall o, fst (get_me db) = Some o ->
        exists u r,
          In u (rows_of db "users") /\ is_admin u = true
          /\ In r (rows_of db "roles") /\ has_role u r = true
          /\ o = me_object (u, r))
  /\ (fst (get_me db) = None <->
      forall u r, In u (rows_of db "users") -> In r (rows_of db "roles") ->
                  is_admin u = true -> has_role u r = false)
  /\ forall u r,
       is_admin u = true ->
       let o := me_object (u, r) in
       o !! "username" = Some (VText "admin")
       /\ o !! "password" = Some (row_get u "password")
       /\ o !! "role_id" = Some (row_get u "role_id")
       /\ o !! "role_name" = Some (row_get r "name")
       /\ o !! "role_level" = Some (row_get r "level")
       /\ o !! "permissions" = Some (row_get r "permissions").
Proof.
  split; [reflexivity |]. split; [| split].
  - intros o Ho. unfold get_me in Ho. cbn [fst] in Ho.
    destruct (admins db) as [| [u r] rest] eqn:E; [discriminate |].
    cbn [List.map List.head] in Ho. injection Ho as <-.
    assert (Hin : In (u, r) (admins db)) by (rewrite E; left; reflexivity).
    apply admins_In in Hin as [Hu [Ha [Hr Hj]]]. exists u, r. auto 10.
  - unfold get_me. cbn [fst]. split.
    + intros Hn u r Hu Hr Ha. apply not_true_is_false. intros Hj.
      assert (Hin : In (u, r) (admins db)) by (apply admins_In; auto).
      destruct (admins db); [contradiction | discriminate].
    + intros Hall. destruct (admins db) as [| [u r] rest] eqn:E; [reflexivity |].
      assert (Hin : In (u, r) (admins db)) by (rewrite E; left; reflexivity).
      apply admins_In in Hin as [Hu [Ha [Hr Hj]]].
      rewrite (Hall u r Hu Hr Ha) in Hj. discriminate.
  - intros u r Ha o. subst o.
    split; [| split; [| split; [| split; [| split]]]].
    + rewrite (me_object_user (u, r) "username") by (vm_compute; tauto).
      cbn [fst]. unfold is_admin, sql_eq in Ha.
      destruct (row_get u "username") as [| z | z | s]; try discriminate.
      simpl in Ha. apply String.eqb_eq in Ha. congruence.
    + apply (me_object_user (u, r) "password"). vm_compute. tauto.
    + apply (me_object_user (u, r) "role_id"). vm_compute. tauto.
    + unfold me_object. rewrite !lookup_insert_ne by discriminate.
      apply lookup_insert_eq.
    + unfold me_object. rewrite lookup_insert_ne by discriminate.
      apply lookup_insert_eq.
    + unfold me_object. apply lookup_insert_eq.
Qed.

(** X17: after the seed block has run on the fresh database, whatever
    the clock, the current user route answers the seeded [admin], with
    its password and with the name, level and permissions of the first
    seeded role. *)
Theorem seeded_admin_is_me (clock : nat -> string) :
  exists seeded o,
    seed clock ∅ = Ok seeded
    /\ fst (get_me seeded) = Some o
    /\ o !! "username" = Some (VText "admin")
    /\ o !! "password" = Some (VText "admin123")
    /\ o !! "role_name" = Some (VText "超级管理员")
    /\ o !! "role_level" = Some (VInt 1)
    /\ o !! "permissions" = Some (VText (stringify_flag "all")).
Proof.
  assert (H : match seed clock ∅ with
              | Ok d =>
                  option_map
                    (fun o : gmap string value =>
                       (o !! "username", o !! "password", o !! "role_name",
                        o !! "role_level", o !! "permissions"))
                    (fst (get_me d))
              | Err _ => None
              end
              = Some (Some (VText "admin"), Some (VText "admin123"),
                      Some (VText "超级管理员"), Some (VInt 1),
                      Some (VText (stringify_flag "all"))))
    by (vm_compute; reflexivity).
  destruct (seed clock ∅) as [seeded | e]; [| discriminate H].
  exists seeded. destruct (fst (get_me seeded)) as [o |]; [| discriminate H].
  exists o. cbn [option_map] in H. injection H as H1 H2 H3 H4 H5. auto 10.
Qed.

(** ** Posting a comment *)

Lemma prepare_comment_create :
  prepare schema (create_sql "comments" comment_keys)
  = Ok (SInsert "comments" comment_keys [EParam; EParam; EParam; EParam; EParam]).
Proof. vm_compute. reflexivity. Qed.

(** Both handlers of a POST to [/api/comments] run the same statement
    with the same values, for a body of exactly the five keys. *)
Lemma comment_handlers_agree (now : string) (v1 v2 v3 v4 v5 : jsval)
    (db : database) :
  let body := [("entity_type", v1); ("entity_id", v2); ("user_id", v3);
               ("content", v4); ("parent_id", v5)] in
  post_comment now body db = post_create now "comments" body db.
Proof.
  intros body. unfold post_comment, post_create.
  change (List.map fst body) with comment_keys.
  rewrite prepare_comment_create.
  match goal with
  | |- context [prepare schema ?s] =>
      replace (prepare schema s)
        with (@Ok stmt (SInsert "comments" comment_keys
                          [EParam; EParam; EParam; EParam; EParam]))
        by (vm_compute; reflexivity)
  end.
  reflexivity.
Qed.

Lemma comments_names_nodup :
  NoDup ("id" :: List.map col_name (tbl_cols Schema.comments)).
Proof. apply (bool_decide_unpack _). vm_compute. reflexivity. Qed.

(** The row a posted comment becomes. *)
Lemma post_comment_row (now type text : string) (eid uid : Z) (parent : jsval)
    (db : database) :
  Z.abs eid <= max_safe_integer ->
  Z.abs uid <= max_safe_integer ->
  bindable parent = true ->
  existsb (Z.eqb uid) (ids (get_table db "users")) = true ->
  next_id (get_table db "comments") <= int64_max ->
  exists r,
    rowid r = next_id (get_table db "comments")
    /\ row_get r "entity_type" = VText type
    /\ row_get r "entity_id" = VInt eid
    /\ row_get r "user_id" = VInt uid
    /\ row_get r "content" = VText text
    /\ post_create now "comments" (comment_body type eid uid text parent) db
       = (Json 200 (BId (rowid r)),
          <["comments" :=
              {| tbl_rows := insert_sorted rowid_before r (rows_of db "comments");
                 tbl_seq := rowid r |}]> db).
Proof.
  intros He Hu Hb Hex Hfull. unfold bindable in Hb.
  destruct (to_value parent) as [pv |] eqn:Hp; [| discriminate].
  set (vals := [VText type; VReal eid; VReal uid; VText text; pv]).
  set (r := {| rowid := next_id (get_table db "comments");
               cells := new_cells now Schema.comments comment_keys vals |}).
  assert (Hget : forall k, In k (tbl_cols Schema.comments) ->
                   row_get r (col_name k) = new_cell now comment_keys vals k).
  { intros k Hk. apply (new_row_get now Schema.comments comment_keys vals _ k
                          comments_names_nodup Hk). }
  assert (H1 : row_get r "entity_type" = VText type).
  { apply (Hget (Schema.text "entity_type")). simpl. tauto. }
  assert (H2 : row_get r "entity_id" = VInt eid).
  { transitivity (new_cell now comment_keys vals (Schema.integer "entity_id"));
      [apply (Hget (Schema.integer "entity_id")); simpl; tauto |].
    cbv [new_cell given vals comment_keys]. simpl.
    rewrite (safe_fits_integer eid He). reflexivity. }
  assert (H3 : row_get r "user_id" = VInt uid).
  { transitivity (new_cell now comment_keys vals
                    (Schema.references (Schema.integer "user_id") "users"));
      [apply (Hget (Schema.references (Schema.integer "user_id") "users"));
       simpl; tauto |].
    cbv [new_cell given vals comment_keys]. simpl.
    rewrite (safe_fits_integer uid Hu). reflexivity. }
  assert (H4 : row_get r "content" = VText text).
  { apply (Hget (Schema.text "content")). simpl. tauto. }
  exists r. split; [reflexivity |]. do 4 (split; [assumption |]).
  unfold post_create, comment_body. cbn [List.map fst snd].
  fold comment_keys. rewrite prepare_comment_create. cbn [Sqlite.bind].
  unfold run, bind_stmt. cbn [stmt_params sum_params List.fold_right expr_params
                              List.map Nat.add bind_args to_value].
  rewrite Hp. cbn [Sqlite.bind subst_stmt subst_exprs subst_expr fst exec].
  change (resolve_table schema "comments") with (@Ok table_def Schema.comments).
  cbn [Sqlite.bind List.map eval_expr].
  pose proof (exec_insert_next now Schema.comments comment_keys vals db) as Hins.
  cbv zeta in Hins. cbn [tbl_name Schema.comments] in Hins.
  change (Build_row (next_id (get_table db "comments"))
            (new_cells now Schema.comments comment_keys vals)) with r in Hins.
  fold vals. rewrite Hins; [reflexivity | | | | | exact Hfull |].
  - vm_compute. intuition discriminate.
  - intros k Hk Hq. vm_compute in Hk.
    repeat (destruct Hk as [<- | Hk]; [discriminate Hq |]). contradiction.
  - intros k Hk Hq. vm_compute in Hk.
    repeat (destruct Hk as [<- | Hk]; [discriminate Hq |]). contradiction.
  - intros k Hk. unfold fk_ok.
    destruct (col_ref k) as [p |] eqn:Er; [| reflexivity].
    simpl in Hk.
    repeat (destruct Hk as [<- | Hk]; [try discriminate Er |]); [| contradiction].
    injection Er as <-. cbn [col_name Schema.references Schema.integer Schema.col].
    rewrite H3. exact Hex.
  - unfold first_violation. rewrite find_all_false; [reflexivity |].
    intros k Hk. vm_compute in Hk.
    repeat (destruct Hk as [<- | Hk]; [reflexivity |]). contradiction.
Qed.


